(** * Reaction decision-and-dispatch pipeline: a shallow embedding

    The development follows the Python sources module by module:
      - [Utils]      LastPerson07/utils.py      (exponential_backoff,
                     sanitize_input, format_duration)
      - [Reactions]  LastPerson07/reactions.py  (TelegramBot._select_emoji,
                     _send_reaction, _handle_reaction, _update_analytics)
      - [Analytics]  LastPerson07/analytics.py  (AnalyticsEngine)
      - [Websocket]  LastPerson07/websocket.py  (WebSocketManager)
      - [Auth]       LastPerson07/auth.py       (AuthManager.check_rate_limit)

    Conventions.  Python [int] is [Z] (attempt counters, which start at 0
    and only grow, are [nat]); Python [float] is idealised as an exact
    rational [Q], except that converting an [int] beyond the range of a
    float raises, as it does in CPython; a dict read with
    [.get(key, default)] is a record whose field is an [option]; the
    MongoDB collections are the fields of [Database]; a raised exception
    is the [Raise] constructor of [result]; every source of randomness or
    of wall-clock time is an explicit argument.  The store accepts every
    write of the dispatcher and of the selector; its reads may fail where
    the aggregator is concerned ([Analytics.Read]).  A Python [str] that
    is only stored or compared is a [string]; where the code works on its
    characters ([sanitize_input]) it is the list of its code points. *)

From Stdlib Require Import ZArith QArith Qround Qminmax Lqa Lia Ascii String.
From stdpp Require Import gmap strings pretty list sorting.

Set Default Proof Using "Type".

(** ** Exceptions and results *)

Inductive exn : Type :=
  | IndexError          (* random.choice on an empty sequence *)
  | ZeroDivisionError   (* integer modulo by zero *)
  | OverflowError       (* int too large to convert to float *)
  | DatabaseError.      (* any failure raised by the storage driver *)

Inductive result (A : Type) : Type :=
  | Ok (a : A)
  | Raise (e : exn).
Arguments Ok {A} a.
Arguments Raise {A} e.

(** ** Documents of the store *)

(** A document of the [reactions] collection (the OutcomeRecord). *)
Record ReactionDoc : Type := mkReactionDoc {
  rd_chat_id : Z;
  rd_message_id : Z;
  rd_emoji : string;
  rd_timestamp : Q;            (* seconds since the epoch, UTC *)
  rd_status : string;          (* "success" | "flood_wait" | "error" *)
  rd_error : option (list N);  (* key absent on success; code points *)
  rd_retry_count : nat
}.

(** A document of the [chats] collection, as far as the code reads it.
    Every key read through [.get] may be absent. *)
Record ChatConfig : Type := mkChatConfig {
  chat_id : Z;
  chat_title : option string;
  enabled : option bool;
  reaction_mode : option string;
  emojis : option (list string);
  last_emoji_idx : option Z;
  delay_min : option Q;
  delay_max : option Q;
  react_to_text : option bool;
  react_to_media : option bool;
  react_to_forwards : option bool
}.

Definition set_last_emoji_idx (v : Z) (c : ChatConfig) : ChatConfig :=
  mkChatConfig (chat_id c) (chat_title c) (enabled c) (reaction_mode c)
    (emojis c) (Some v) (delay_min c) (delay_max c)
    (react_to_text c) (react_to_media c) (react_to_forwards c).

(** The [value] of the one [settings] document with key "bot_settings"
    (models.BotSettings, admin.get_bot_settings). *)
Record BotSettings : Type := mkBotSettings {
  auto_react : option bool;
  max_retries_setting : option Z;
  retry_delay : option Z;
  flood_wait_multiplier : option Q
}.

(** A document of the [analytics] collection. *)
Record AnalyticsDoc : Type := mkAnalyticsDoc {
  an_metric_type : string;
  an_value : Q;
  an_timestamp : Q;
  an_date : Z;                 (* the calendar day, as days since the epoch *)
  an_hour : Z;
  an_emoji : option string     (* metadata *)
}.

(** The document store.  [chats] has a unique index on [chat_id], hence a
    finite map; the append-only collections are lists in insertion order. *)
Record Database : Type := mkDatabase {
  chats : gmap Z ChatConfig;
  reactions : list ReactionDoc;
  analytics : list AnalyticsDoc;
  settings : option BotSettings
}.

Definition set_chats (m : gmap Z ChatConfig) (d : Database) : Database :=
  mkDatabase m (reactions d) (analytics d) (settings d).
Definition set_settings (s : option BotSettings) (d : Database) : Database :=
  mkDatabase (chats d) (reactions d) (analytics d) s.
Definition insert_reaction (r : ReactionDoc) (d : Database) : Database :=
  mkDatabase (chats d) (reactions d ++ [r]) (analytics d) (settings d).
Definition insert_analytics (a : AnalyticsDoc) (d : Database) : Database :=
  mkDatabase (chats d) (reactions d) (analytics d ++ [a]) (settings d).

(** A Python [str] that the code only stores or compares is a [string]; one
    whose characters the code looks at is the list of its code points.
    [code_points] gives the code points of a text written with ASCII
    characters only. *)
Definition code_points (s : string) : list N :=
  map N_of_ascii (list_ascii_of_string s).

(** Calendar helpers on epoch seconds. *)
Definition epoch_hour (t : Q) : Z := Qfloor (t / 3600).
Definition epoch_day (t : Q) : Z := Qfloor (t / 86400).
Definition hour_of_day (t : Q) : Z := (epoch_hour t mod 24)%Z.

(** * utils.py *)
Module Utils.

(** Conversion of an [int] operand in [float * int]: CPython raises
    OverflowError ("int too large to convert to float") when the integer
    rounds to a magnitude of 2^1024 or more, that is from 2^1024 - 2^970
    on.  Below that bound the value is taken exactly. *)
Definition float_of_int (n : Z) : result Q :=
  if (Z.abs n <? 2 ^ 1024 - 2 ^ 970)%Z then Ok (inject_Z n)
  else Raise OverflowError.

(** [secrets.randbelow(n)]: a value in [0, n) drawn from the entropy
    source, which is the first argument. *)
Definition randbelow (entropy : Z) (n : Z) : Z := (entropy mod n)%Z.

(** [exponential_backoff(attempt, base_delay, max_delay)]:
      delay = min(base_delay * (2 ** attempt), max_delay)
      jitter = secrets.randbelow(1000) / 1000.0
      return delay + jitter *)
Definition exponential_backoff (attempt : nat) (base_delay max_delay : Q)
    (entropy : Z) : result Q :=
  match float_of_int (2 ^ Z.of_nat attempt) with
  | Raise e => Raise e
  | Ok p =>
      let delay := Qmin (base_delay * p)%Q max_delay in
      let jitter := (inject_Z (randbelow entropy 1000) / 1000)%Q in
      Ok (delay + jitter)%Q
  end.

(** The defaults of the signature. *)
Definition default_base_delay : Q := 1%Q.
Definition default_max_delay : Q := 60%Q.


(** A Python [str] as the sequence of its code points. *)
Definition text : Type := list N.

(** [str.isspace()] on one character, as [str.strip()] without argument
    uses it: the characters of Unicode's bidirectional classes WS, B and S
    and of category Zs. *)
Definition is_space (c : N) : bool :=
  ((9 <=? c) && (c <=? 13)              (* \t \n \v \f \r *)
   || (28 <=? c) && (c <=? 32)          (* FS GS RS US and the space *)
   || (c =? 133) || (c =? 160)          (* NEL, no-break space *)
   || (c =? 5760)                       (* U+1680 *)
   || (8192 <=? c) && (c <=? 8202)      (* U+2000 .. U+200A *)
   || (c =? 8232) || (c =? 8233)        (* U+2028, U+2029 *)
   || (c =? 8239) || (c =? 8287)        (* U+202F, U+205F *)
   || (c =? 12288))%N.                  (* U+3000 *)

Fixpoint lstrip (t : text) : text :=
  match t with
  | [] => []
  | c :: t' => if is_space c then lstrip t' else t
  end.

(** [text.strip()] *)
Definition strip (t : text) : text := rev (lstrip (rev (lstrip t))).

(** [text[:stop]] for a Python int [stop]: a negative [stop] counts from
    the end. *)
Definition slice_to (stop : Z) (t : text) : text :=
  if (0 <=? stop)%Z then take (Z.to_nat stop) t
  else take (Z.to_nat (Z.of_nat (length t) + stop)) t.

(** [text.replace(char, "")] for a one-character [char]. *)
Definition replace_with_empty (char : N) (t : text) : text :=
  List.filter (fun x => negb (x =? char)%N) t.

(** [dangerous_chars]: the code points of  <  >  &  the double quote, the
    single quote,  /  the backslash,  {  }  and  ;  in the order of the
    source list. *)
Definition dangerous_chars : list N :=
  [60; 62; 38; 34; 39; 47; 92; 123; 125; 59]%N.

(** [sanitize_input(text, max_length)] *)
Definition sanitize_input (t : text) (max_length : Z) : text :=
  match t with
  | [] => []
  | _ =>
      foldl (fun t char => replace_with_empty char t)
            (slice_to max_length (strip t)) dangerous_chars
  end.

Definition default_max_length : Z := 500.

(** [format_duration(seconds)]; [//] and [%] are the floor division and
    its remainder. *)
Definition format_duration (seconds : Z) : string :=
  if (seconds <? 60)%Z then pretty seconds +:+ "s"
  else if (seconds <? 3600)%Z then
    pretty (seconds / 60)%Z +:+ "m " +:+ pretty (seconds mod 60)%Z +:+ "s"
  else
    pretty (seconds / 3600)%Z +:+ "h "
    +:+ pretty ((seconds mod 3600) / 60)%Z +:+ "m".

End Utils.

(** * reactions.py *)
Module Reactions.

(** The in-memory counters [TelegramBot.stats]. *)
Record BotStats : Type := mkBotStats {
  total_reactions : nat;
  flood_waits : nat;
  errors : nat;
  active_chats : gset Z
}.

(** Everything a dispatch can change: the counters, the store, the
    durations handed to [asyncio.sleep] and the calls made to the platform
    (chat, message, emoji), both oldest first. *)
Record World : Type := mkWorld {
  stats : BotStats;
  db : Database;
  sleeps : list Q;
  platform_calls : list (Z * Z * string)
}.

Definition set_stats (s : BotStats) (w : World) : World :=
  mkWorld s (db w) (sleeps w) (platform_calls w).
Definition set_db (d : Database) (w : World) : World :=
  mkWorld (stats w) d (sleeps w) (platform_calls w).
Definition sleep (d : Q) (w : World) : World :=
  mkWorld (stats w) (db w) (sleeps w ++ [d]) (platform_calls w).
Definition call_platform (chat message : Z) (emoji : string) (w : World)
    : World :=
  mkWorld (stats w) (db w) (sleeps w)
    (platform_calls w ++ [(chat, message, emoji)]).
Definition count_reaction (chat : Z) (w : World) : World :=
  let s := stats w in
  set_stats (mkBotStats (S (total_reactions s)) (flood_waits s) (errors s)
               ({[ chat ]} ∪ active_chats s)) w.
Definition count_flood_wait (w : World) : World :=
  let s := stats w in
  set_stats (mkBotStats (total_reactions s) (S (flood_waits s)) (errors s)
               (active_chats s)) w.
Definition count_error (w : World) : World :=
  let s := stats w in
  set_stats (mkBotStats (total_reactions s) (flood_waits s) (S (errors s))
               (active_chats s)) w.

(** The inbound message, as far as the handler looks at it. *)
Record Message : Type := mkMessage {
  msg_chat_id : Z;             (* message.chat.id *)
  msg_id : Z;                  (* message.id *)
  msg_text : bool;             (* truth value of message.text *)
  msg_media : bool;            (* message.photo or .video or .document *)
  msg_forward_date : bool      (* truth value of message.forward_date *)
}.

(** What [self.app.send_reaction] does on one call. *)
Inductive SendResult : Type :=
  | Delivered
  | FloodWait (value : Z)              (* pyrogram.errors.FloodWait, e.value:
                                          the seconds of FLOOD_WAIT_n, a
                                          32-bit integer on the wire *)
  | RPCError (text : list N)           (* other RPCError, text = str(e) *)
  | OtherException.                    (* any other Exception *)

(** The surroundings of one message's dispatch. *)
Record Env : Type := mkEnv {
  platform : nat -> SendResult;   (* outcome of the call made by attempt k *)
  utcnow : nat -> Q;              (* datetime.utcnow() read by attempt k *)
  jitter_entropy : nat -> Z;      (* entropy of the backoff after attempt k *)
  choice_entropy : nat;           (* entropy of random.choice *)
  uniform_draw : Q                (* random.random() behind random.uniform *)
}.

Definition default_emoji : string := "❤️".
Definition default_emojis : list string := ["❤️"; "🔥"; "👍"].

(** [random.choice(seq)]: IndexError on an empty sequence, else
    seq[randbelow(len(seq))]. *)
Definition random_choice (entropy : nat) (l : list string) : result string :=
  match l with
  | [] => Raise IndexError
  | _ :: _ => Ok (nth (entropy mod length l) l default_emoji)
  end.

(** [update_one({"chat_id": cid}, {"$set": {"last_emoji_idx": v}})] on the
    [chats] collection: without upsert, a filter that matches no document
    changes nothing. *)
Definition update_last_emoji_idx (cid : Z) (v : Z) (d : Database) : Database :=
  set_chats (alter (set_last_emoji_idx v) cid (chats d)) d.

(** [TelegramBot._select_emoji(chat_config)]. *)
Definition select_emoji (chat_config : ChatConfig) (entropy : nat)
    (d : Database) : result string * Database :=
  let mode := default "random" (reaction_mode chat_config) in
  let emojis := default default_emojis (emojis chat_config) in
  if String.eqb mode "random" then
    (random_choice entropy emojis, d)
  else if String.eqb mode "fixed" then
    (Ok (match emojis with e :: _ => e | [] => default_emoji end), d)
  else if String.eqb mode "sequential" then
    let last_emoji_idx := default 0%Z (last_emoji_idx chat_config) in
    let n := Z.of_nat (length emojis) in
    if (n =? 0)%Z then (Raise ZeroDivisionError, d)
    else
      let emoji := nth (Z.to_nat (last_emoji_idx mod n)) emojis default_emoji in
      (Ok emoji,
       update_last_emoji_idx (chat_id chat_config)
         ((last_emoji_idx + 1) mod n)%Z d)
  else (Ok default_emoji, d).

(** [str.upper()] works character by character with the full upper-case
    mapping of the Unicode database (here that of CPython 3.11, Unicode
    14.0.0); upper-casing has no rule that looks at the neighbours.  The
    mapping is kept as two tables.  [upper_runs] holds the characters
    whose upper case is one character: each entry (first, last, step,
    delta) says that the code points first, first + step, ..., last map to
    themselves plus delta.  [upper_specials] holds the characters whose
    upper case is more than one character.  Every other code point is its
    own upper case. *)
Definition upper_runs : list (N * N * N * Z) :=
  [
   (97, 122, 1, (-32)%Z); (181, 181, 1, 743%Z); (224, 246, 1, (-32)%Z);
   (248, 254, 1, (-32)%Z); (255, 255, 1, 121%Z); (257, 303, 2, (-1)%Z);
   (305, 305, 1, (-232)%Z); (307, 311, 2, (-1)%Z); (314, 328, 2, (-1)%Z);
   (331, 375, 2, (-1)%Z); (378, 382, 2, (-1)%Z); (383, 383, 1, (-300)%Z);
   (384, 384, 1, 195%Z); (387, 389, 2, (-1)%Z); (392, 392, 1, (-1)%Z);
   (396, 396, 1, (-1)%Z); (402, 402, 1, (-1)%Z); (405, 405, 1, 97%Z);
   (409, 409, 1, (-1)%Z); (410, 410, 1, 163%Z); (414, 414, 1, 130%Z);
   (417, 421, 2, (-1)%Z); (424, 424, 1, (-1)%Z); (429, 429, 1, (-1)%Z);
   (432, 432, 1, (-1)%Z); (436, 438, 2, (-1)%Z); (441, 441, 1, (-1)%Z);
   (445, 445, 1, (-1)%Z); (447, 447, 1, 56%Z); (453, 453, 1, (-1)%Z);
   (454, 454, 1, (-2)%Z); (456, 456, 1, (-1)%Z); (457, 457, 1, (-2)%Z);
   (459, 459, 1, (-1)%Z); (460, 460, 1, (-2)%Z); (462, 476, 2, (-1)%Z);
   (477, 477, 1, (-79)%Z); (479, 495, 2, (-1)%Z); (498, 498, 1, (-1)%Z);
   (499, 499, 1, (-2)%Z); (501, 501, 1, (-1)%Z); (505, 543, 2, (-1)%Z);
   (547, 563, 2, (-1)%Z); (572, 572, 1, (-1)%Z); (575, 576, 1, 10815%Z);
   (578, 578, 1, (-1)%Z); (583, 591, 2, (-1)%Z); (592, 592, 1, 10783%Z);
   (593, 593, 1, 10780%Z); (594, 594, 1, 10782%Z); (595, 595, 1, (-210)%Z);
   (596, 596, 1, (-206)%Z); (598, 599, 1, (-205)%Z); (601, 601, 1, (-202)%Z);
   (603, 603, 1, (-203)%Z); (604, 604, 1, 42319%Z); (608, 608, 1, (-205)%Z);
   (609, 609, 1, 42315%Z); (611, 611, 1, (-207)%Z); (613, 613, 1, 42280%Z);
   (614, 614, 1, 42308%Z); (616, 616, 1, (-209)%Z); (617, 617, 1, (-211)%Z);
   (618, 618, 1, 42308%Z); (619, 619, 1, 10743%Z); (620, 620, 1, 42305%Z);
   (623, 623, 1, (-211)%Z); (625, 625, 1, 10749%Z); (626, 626, 1, (-213)%Z);
   (629, 629, 1, (-214)%Z); (637, 637, 1, 10727%Z); (640, 640, 1, (-218)%Z);
   (642, 642, 1, 42307%Z); (643, 643, 1, (-218)%Z); (647, 647, 1, 42282%Z);
   (648, 648, 1, (-218)%Z); (649, 649, 1, (-69)%Z); (650, 651, 1, (-217)%Z);
   (652, 652, 1, (-71)%Z); (658, 658, 1, (-219)%Z); (669, 669, 1, 42261%Z);
   (670, 670, 1, 42258%Z); (837, 837, 1, 84%Z); (881, 883, 2, (-1)%Z);
   (887, 887, 1, (-1)%Z); (891, 893, 1, 130%Z); (940, 940, 1, (-38)%Z);
   (941, 943, 1, (-37)%Z); (945, 961, 1, (-32)%Z); (962, 962, 1, (-31)%Z);
   (963, 971, 1, (-32)%Z); (972, 972, 1, (-64)%Z); (973, 974, 1, (-63)%Z);
   (976, 976, 1, (-62)%Z); (977, 977, 1, (-57)%Z); (981, 981, 1, (-47)%Z);
   (982, 982, 1, (-54)%Z); (983, 983, 1, (-8)%Z); (985, 1007, 2, (-1)%Z);
   (1008, 1008, 1, (-86)%Z); (1009, 1009, 1, (-80)%Z); (1010, 1010, 1, 7%Z);
   (1011, 1011, 1, (-116)%Z); (1013, 1013, 1, (-96)%Z);
   (1016, 1016, 1, (-1)%Z); (1019, 1019, 1, (-1)%Z);
   (1072, 1103, 1, (-32)%Z); (1104, 1119, 1, (-80)%Z);
   (1121, 1153, 2, (-1)%Z); (1163, 1215, 2, (-1)%Z); (1218, 1230, 2, (-1)%Z);
   (1231, 1231, 1, (-15)%Z); (1233, 1327, 2, (-1)%Z);
   (1377, 1414, 1, (-48)%Z); (4304, 4346, 1, 3008%Z);
   (4349, 4351, 1, 3008%Z); (5112, 5117, 1, (-8)%Z);
   (7296, 7296, 1, (-6254)%Z); (7297, 7297, 1, (-6253)%Z);
   (7298, 7298, 1, (-6244)%Z); (7299, 7300, 1, (-6242)%Z);
   (7301, 7301, 1, (-6243)%Z); (7302, 7302, 1, (-6236)%Z);
   (7303, 7303, 1, (-6181)%Z); (7304, 7304, 1, 35266%Z);
   (7545, 7545, 1, 35332%Z); (7549, 7549, 1, 3814%Z);
   (7566, 7566, 1, 35384%Z); (7681, 7829, 2, (-1)%Z);
   (7835, 7835, 1, (-59)%Z); (7841, 7935, 2, (-1)%Z); (7936, 7943, 1, 8%Z);
   (7952, 7957, 1, 8%Z); (7968, 7975, 1, 8%Z); (7984, 7991, 1, 8%Z);
   (8000, 8005, 1, 8%Z); (8017, 8023, 2, 8%Z); (8032, 8039, 1, 8%Z);
   (8048, 8049, 1, 74%Z); (8050, 8053, 1, 86%Z); (8054, 8055, 1, 100%Z);
   (8056, 8057, 1, 128%Z); (8058, 8059, 1, 112%Z); (8060, 8061, 1, 126%Z);
   (8112, 8113, 1, 8%Z); (8126, 8126, 1, (-7205)%Z); (8144, 8145, 1, 8%Z);
   (8160, 8161, 1, 8%Z); (8165, 8165, 1, 7%Z); (8526, 8526, 1, (-28)%Z);
   (8560, 8575, 1, (-16)%Z); (8580, 8580, 1, (-1)%Z);
   (9424, 9449, 1, (-26)%Z); (11312, 11359, 1, (-48)%Z);
   (11361, 11361, 1, (-1)%Z); (11365, 11365, 1, (-10795)%Z);
   (11366, 11366, 1, (-10792)%Z); (11368, 11372, 2, (-1)%Z);
   (11379, 11379, 1, (-1)%Z); (11382, 11382, 1, (-1)%Z);
   (11393, 11491, 2, (-1)%Z); (11500, 11502, 2, (-1)%Z);
   (11507, 11507, 1, (-1)%Z); (11520, 11557, 1, (-7264)%Z);
   (11559, 11559, 1, (-7264)%Z); (11565, 11565, 1, (-7264)%Z);
   (42561, 42605, 2, (-1)%Z); (42625, 42651, 2, (-1)%Z);
   (42787, 42799, 2, (-1)%Z); (42803, 42863, 2, (-1)%Z);
   (42874, 42876, 2, (-1)%Z); (42879, 42887, 2, (-1)%Z);
   (42892, 42892, 1, (-1)%Z); (42897, 42899, 2, (-1)%Z);
   (42900, 42900, 1, 48%Z); (42903, 42921, 2, (-1)%Z);
   (42933, 42947, 2, (-1)%Z); (42952, 42954, 2, (-1)%Z);
   (42961, 42961, 1, (-1)%Z); (42967, 42969, 2, (-1)%Z);
   (42998, 42998, 1, (-1)%Z); (43859, 43859, 1, (-928)%Z);
   (43888, 43967, 1, (-38864)%Z); (65345, 65370, 1, (-32)%Z);
   (66600, 66639, 1, (-40)%Z); (66776, 66811, 1, (-40)%Z);
   (66967, 66977, 1, (-39)%Z); (66979, 66993, 1, (-39)%Z);
   (66995, 67001, 1, (-39)%Z); (67003, 67004, 1, (-39)%Z);
   (68800, 68850, 1, (-64)%Z); (71872, 71903, 1, (-32)%Z);
   (93792, 93823, 1, (-32)%Z); (125218, 125251, 1, (-34)%Z)
  ]%N.

Definition upper_specials : list (N * list N) :=
  [
   (223, [83; 83]); (329, [700; 78]); (496, [74; 780]);
   (912, [921; 776; 769]); (944, [933; 776; 769]); (1415, [1333; 1362]);
   (7830, [72; 817]); (7831, [84; 776]); (7832, [87; 778]);
   (7833, [89; 778]); (7834, [65; 702]); (8016, [933; 787]);
   (8018, [933; 787; 768]); (8020, [933; 787; 769]); (8022, [933; 787; 834]);
   (8064, [7944; 921]); (8065, [7945; 921]); (8066, [7946; 921]);
   (8067, [7947; 921]); (8068, [7948; 921]); (8069, [7949; 921]);
   (8070, [7950; 921]); (8071, [7951; 921]); (8072, [7944; 921]);
   (8073, [7945; 921]); (8074, [7946; 921]); (8075, [7947; 921]);
   (8076, [7948; 921]); (8077, [7949; 921]); (8078, [7950; 921]);
   (8079, [7951; 921]); (8080, [7976; 921]); (8081, [7977; 921]);
   (8082, [7978; 921]); (8083, [7979; 921]); (8084, [7980; 921]);
   (8085, [7981; 921]); (8086, [7982; 921]); (8087, [7983; 921]);
   (8088, [7976; 921]); (8089, [7977; 921]); (8090, [7978; 921]);
   (8091, [7979; 921]); (8092, [7980; 921]); (8093, [7981; 921]);
   (8094, [7982; 921]); (8095, [7983; 921]); (8096, [8040; 921]);
   (8097, [8041; 921]); (8098, [8042; 921]); (8099, [8043; 921]);
   (8100, [8044; 921]); (8101, [8045; 921]); (8102, [8046; 921]);
   (8103, [8047; 921]); (8104, [8040; 921]); (8105, [8041; 921]);
   (8106, [8042; 921]); (8107, [8043; 921]); (8108, [8044; 921]);
   (8109, [8045; 921]); (8110, [8046; 921]); (8111, [8047; 921]);
   (8114, [8122; 921]); (8115, [913; 921]); (8116, [902; 921]);
   (8118, [913; 834]); (8119, [913; 834; 921]); (8124, [913; 921]);
   (8130, [8138; 921]); (8131, [919; 921]); (8132, [905; 921]);
   (8134, [919; 834]); (8135, [919; 834; 921]); (8140, [919; 921]);
   (8146, [921; 776; 768]); (8147, [921; 776; 769]); (8150, [921; 834]);
   (8151, [921; 776; 834]); (8162, [933; 776; 768]); (8163, [933; 776; 769]);
   (8164, [929; 787]); (8166, [933; 834]); (8167, [933; 776; 834]);
   (8178, [8186; 921]); (8179, [937; 921]); (8180, [911; 921]);
   (8182, [937; 834]); (8183, [937; 834; 921]); (8188, [937; 921]);
   (64256, [70; 70]); (64257, [70; 73]); (64258, [70; 76]);
   (64259, [70; 70; 73]); (64260, [70; 70; 76]); (64261, [83; 84]);
   (64262, [83; 84]); (64275, [1348; 1350]); (64276, [1348; 1333]);
   (64277, [1348; 1339]); (64278, [1358; 1350]); (64279, [1348; 1341])
  ]%N.

Definition in_run (c : N) (r : N * N * N * Z) : bool :=
  let '(first, last, step, _) := r in
  ((first <=? c) && (c <=? last) && ((c - first) mod step =? 0))%N.

Definition to_upper_full (c : N) : list N :=
  match List.find (fun p => (fst p =? c)%N) upper_specials with
  | Some p => snd p
  | None =>
      match List.find (in_run c) upper_runs with
      | Some (_, _, _, delta) => [Z.to_N (Z.of_N c + delta)]
      | None => [c]
      end
  end.

(** [s.upper()] *)
Definition upper (s : list N) : list N := flat_map to_upper_full s.

(** [needle in hay] on two [str]. *)
Fixpoint starts_with (needle hay : list N) : bool :=
  match needle, hay with
  | [], _ => true
  | a :: needle', b :: hay' => (a =? b)%N && starts_with needle' hay'
  | _ :: _, [] => false
  end.

Fixpoint contains (needle hay : list N) : bool :=
  starts_with needle hay ||
  match hay with
  | [] => false
  | _ :: t => contains needle t
  end.

(** [TelegramBot._update_analytics(metric_type, value, metadata)]. *)
Definition update_analytics (metric_type : string) (value : Q)
    (emoji : option string) (now : Q) (w : World) : World :=
  set_db (insert_analytics
            (mkAnalyticsDoc metric_type value now (epoch_day now)
               (hour_of_day now) emoji)
            (db w)) w.

(** The local constant of [_send_reaction]. *)
Definition max_retries : nat := 3.

(** The record inserted by each of the three branches. *)
Definition outcome_record (env : Env) (message : Message) (emoji : string)
    (attempt : nat) (status : string) (error : option (list N))
    : ReactionDoc :=
  mkReactionDoc (msg_chat_id message) (msg_id message) emoji
    (utcnow env attempt) status error attempt.

Definition record_outcome (r : ReactionDoc) (w : World) : World :=
  set_db (insert_reaction r (db w)) w.

(** [TelegramBot._send_reaction(message, emoji, chat_config, attempt)].
    The recursion of the source is on [attempt]; [fuel] bounds its depth
    and [None] means the bound was reached. *)
Fixpoint send_reaction (fuel : nat) (env : Env) (message : Message)
    (emoji : string) (attempt : nat) (w : World)
    : option (result unit * World) :=
  match fuel with
  | O => None
  | S fuel' =>
    let w := call_platform (msg_chat_id message) (msg_id message) emoji w in
    match platform env attempt with
    | Delivered =>
        let w := count_reaction (msg_chat_id message) w in
        let w := record_outcome
                   (outcome_record env message emoji attempt "success" None) w in
        let w := update_analytics "reaction_sent" 1 (Some emoji)
                   (utcnow env attempt) w in
        Some (Ok tt, w)
    | FloodWait wait_time =>
        let w := count_flood_wait w in
        let w := record_outcome
                   (outcome_record env message emoji attempt "flood_wait"
                      (Some (code_points
                               ("FloodWait " +:+ pretty wait_time +:+ "s")))) w in
        if (attempt <? max_retries)%nat then
          let w := sleep (inject_Z wait_time * 1.5)%Q w in
          send_reaction fuel' env message emoji (S attempt) w
        else Some (Ok tt, w)
    | RPCError text =>
        let w := count_error w in
        let w := record_outcome
                   (outcome_record env message emoji attempt "error"
                      (Some text)) w in
        if (attempt <? max_retries)%nat
           && negb (contains (code_points "FLOOD") (upper text))
        then
          match Utils.exponential_backoff attempt Utils.default_base_delay
                  Utils.default_max_delay (jitter_entropy env attempt) with
          | Raise e => Some (Raise e, w)
          | Ok delay =>
              let w := sleep delay w in
              send_reaction fuel' env message emoji (S attempt) w
          end
        else Some (Ok tt, w)
    | OtherException =>
        Some (Ok tt, count_error w)
    end
  end.

(** Depth that the recursion never exceeds when started at attempt 0. *)
Definition enough_fuel : nat := S max_retries.

(** [TelegramBot._handle_reaction(message)].  An exception raised below is
    caught by the handler's own [except Exception], which counts one
    error. *)
Definition handle_reaction (env : Env) (message : Message) (w : World)
    : World :=
  match chats (db w) !! msg_chat_id message with
  | None => w
  | Some chat_config =>
    if negb (default true (enabled chat_config)) then w
    else if match settings (db w) with
            | Some s => negb (default true (auto_react s))
            | None => false
            end then w
    else if negb (default true (react_to_text chat_config)) && msg_text message
    then w
    else if negb (default true (react_to_media chat_config)) && msg_media message
    then w
    else if negb (default false (react_to_forwards chat_config))
            && msg_forward_date message
    then w
    else
      let delay_min := default 1%Q (delay_min chat_config) in
      let delay_max := default 5%Q (delay_max chat_config) in
      let w := sleep (delay_min + (delay_max - delay_min) * uniform_draw env)%Q w in
      match select_emoji chat_config (choice_entropy env) (db w) with
      | (Raise _, d) => count_error (set_db d w)
      | (Ok emoji, d) =>
          match send_reaction enough_fuel env message emoji 0 (set_db d w) with
          | Some (Ok _, w') => w'
          | Some (Raise _, w') => count_error w'
          | None => set_db d w
          end
      end
  end.

(** Consecutive, non-overlapping selections for one chat: each one reads
    the chat's document from the store ([find_one], first line of
    [_handle_reaction]) and hands it to [_select_emoji]. *)
Fixpoint select_consecutive (m : nat) (cid : Z) (entropy : nat)
    (d : Database) : list (result string) * Database :=
  match m with
  | O => ([], d)
  | S m' =>
      match chats d !! cid with
      | None => ([], d)
      | Some chat_config =>
          let '(r, d1) := select_emoji chat_config entropy d in
          let '(rs, d2) := select_consecutive m' cid entropy d1 in
          (r :: rs, d2)
      end
  end.

End Reactions.

(** * analytics.py *)
Module Analytics.

(** ** Reads that can fail

    A query issues its reads one after the other.  [outage k = true] says
    that the read numbered [k] raises; the counter is threaded through, so
    a computation is a function of the outage pattern and of the number
    of the next read. *)
Definition Read (A : Type) : Type := (nat -> bool) -> nat -> result A * nat.

Definition ret {A} (a : A) : Read A := fun _ k => (Ok a, k).

Definition bind {A B} (m : Read A) (f : A -> Read B) : Read B :=
  fun outage k =>
    match m outage k with
    | (Ok a, k') => f a outage k'
    | (Raise e, k') => (Raise e, k')
    end.

Notation "'let*' x ':=' m 'in' f" := (bind m (fun x => f))
  (at level 10, x name, m at level 100, f at level 200).

(** One awaited driver call whose value, when it succeeds, is [v]. *)
Definition read {A} (v : A) : Read A :=
  fun outage k => (if outage k then Raise DatabaseError else Ok v, S k).

(** [try: body  except Exception: return handler]: what the caller gets is
    a plain value. *)
Definition try_except {A} (body : Read A) (handler : A)
    : (nat -> bool) -> nat -> A * nat :=
  fun outage k =>
    match body outage k with
    | (Ok a, k') => (a, k')
    | (Raise _, k') => (handler, k')
    end.

Fixpoint for_each {A B} (f : A -> Read B) (l : list A) : Read (list B) :=
  match l with
  | [] => ret []
  | a :: t => let* b := f a in let* bs := for_each f t in ret (b :: bs)
  end.

Definition healthy : nat -> bool := fun _ => false.

(** ** Filters of the queries *)

Definition status_is (s : string) (r : ReactionDoc) : bool :=
  String.eqb (rd_status r) s.
Definition status_in (l : list string) (r : ReactionDoc) : bool :=
  existsb (String.eqb (rd_status r)) l.
Definition timestamp_gte (t : Q) (r : ReactionDoc) : bool :=
  Qle_bool t (rd_timestamp r).
Definition timestamp_lt (t : Q) (r : ReactionDoc) : bool :=
  negb (Qle_bool t (rd_timestamp r)).
Definition chat_is (c : Z) (r : ReactionDoc) : bool :=
  (rd_chat_id r =? c)%Z.

Definition all_of {A} (fs : list (A -> bool)) (a : A) : bool :=
  forallb (fun f => f a) fs.

Definition count_documents {A} (coll : list A) (fs : list (A -> bool))
    : Read nat :=
  read (length (List.filter (all_of fs) coll)).

(** ** Stages of the aggregation pipelines *)

(** [$group] with [{"count": {"$sum": 1}}]: one pair per distinct key, in
    order of first occurrence. *)
Fixpoint tally {K} `{EqDecision K} (k : K) (acc : list (K * nat))
    : list (K * nat) :=
  match acc with
  | [] => [(k, 1%nat)]
  | (k', n) :: t =>
      if decide (k = k') then (k', S n) :: t else (k', n) :: tally k t
  end.

Definition group_count {K} `{EqDecision K} (keys : list K) : list (K * nat) :=
  fold_left (fun acc k => tally k acc) keys [].

(** [$sort: {"count": -1}], stable. *)
Fixpoint insert_by_count {K} (x : K * nat) (l : list (K * nat))
    : list (K * nat) :=
  match l with
  | [] => [x]
  | y :: t =>
      if (snd y <=? snd x)%nat then x :: l else y :: insert_by_count x t
  end.

Definition sort_count_desc {K} (l : list (K * nat)) : list (K * nat) :=
  fold_right insert_by_count [] l.

(** [$sort: {"_id": 1}] on integer keys. *)
Fixpoint insert_by_key (x : Z * nat) (l : list (Z * nat)) : list (Z * nat) :=
  match l with
  | [] => [x]
  | y :: t =>
      if (fst x <=? fst y)%Z then x :: l else y :: insert_by_key x t
  end.

Definition sort_key_asc (l : list (Z * nat)) : list (Z * nat) :=
  fold_right insert_by_key [] l.

Definition aggregate_top {K} `{EqDecision K} (coll : list ReactionDoc)
    (fs : list (ReactionDoc -> bool)) (key : ReactionDoc -> K) (limit : nat)
    : Read (list (K * nat)) :=
  read (take limit
          (sort_count_desc
             (group_count (map key (List.filter (all_of fs) coll))))).

(** ** Rounding

    [round(x, 2)]: to the nearest hundredth, ties to the even one. *)
Definition round_half_even (x : Q) : Z :=
  let f := Qfloor x in
  match ((x - inject_Z f) ?= 1 # 2)%Q with
  | Lt => f
  | Gt => (f + 1)%Z
  | Eq => if Z.even f then f else (f + 1)%Z
  end.

Definition round2 (x : Q) : Q := Qmake (round_half_even (x * 100)%Q) 100.

Definition hours_ago (now : Q) (hours : Z) : Q :=
  (now - inject_Z hours * 3600)%Q.
Definition days_ago (now : Q) (days : Z) : Q :=
  (now - inject_Z days * 86400)%Q.

Definition ratio (a b : nat) : Q :=
  (inject_Z (Z.of_nat a) / inject_Z (Z.of_nat b))%Q.

(** ** The queries of [AnalyticsEngine] *)

Definition get_total_reactions (d : Database) :=
  try_except
    (count_documents (reactions d) [status_is "success"])
    0%nat.

Definition get_reactions_per_second (d : Database) (now : Q) (hours : Z) :=
  try_except
    (let start_time := hours_ago now hours in
     let* count := count_documents (reactions d)
               [status_is "success"; timestamp_gte start_time] in
     let seconds := (hours * 3600)%Z in
     ret (if (0 <? seconds)%Z
          then round2 (inject_Z (Z.of_nat count) / inject_Z seconds)%Q
          else 0%Q))
    0%Q.

Definition chat_enabled (c : ChatConfig) : bool :=
  match enabled c with Some true => true | _ => false end.

Definition get_active_chats (d : Database) :=
  try_except
    (count_documents (map snd (map_to_list (chats d))) [chat_enabled])
    0%nat.

Definition get_flood_waits (d : Database) (now : Q) (hours : Z) :=
  try_except
    (let start_time := hours_ago now hours in
     count_documents (reactions d)
       [status_is "flood_wait"; timestamp_gte start_time])
    0%nat.

Definition get_error_rate (d : Database) (now : Q) (hours : Z) :=
  try_except
    (let start_time := hours_ago now hours in
     let* total := count_documents (reactions d) [timestamp_gte start_time] in
     let* errors := count_documents (reactions d)
                [status_in ["error"; "flood_wait"]; timestamp_gte start_time] in
     ret (if (0 <? total)%nat then round2 (ratio errors total * 100)%Q
          else 0%Q))
    0%Q.

Definition get_emoji_usage (d : Database) (now : Q) (hours : Z) :=
  try_except
    (let start_time := hours_ago now hours in
     aggregate_top (reactions d)
       [status_is "success"; timestamp_gte start_time] rd_emoji 20)
    [].

Record HourlyStat : Type := mkHourlyStat {
  hs_timestamp : Z;      (* first second of the calendar hour *)
  hs_hour : Z;
  hs_count : nat
}.

Definition get_hourly_stats (d : Database) (now : Q) (hours : Z) :=
  try_except
    (let start_time := hours_ago now hours in
     let* docs := read (sort_key_asc
                    (group_count
                       (map (fun r => epoch_hour (rd_timestamp r))
                          (List.filter
                             (all_of [status_is "success";
                                      timestamp_gte start_time])
                             (reactions d))))) in
     ret (map (fun doc => mkHourlyStat (fst doc * 3600) (fst doc mod 24)
                            (snd doc)) docs))
    [].

Record ChatStats : Type := mkChatStats {
  cs_chat_id : Z;
  cs_total_reactions : nat;
  cs_errors : nat;
  cs_error_rate : Q;
  cs_emoji_usage : list (string * nat)
}.

Definition get_chat_stats (d : Database) (now : Q) (chat : Z) (days : Z) :=
  try_except
    (let start_time := days_ago now days in
     let* total_reactions := count_documents (reactions d)
         [chat_is chat; status_is "success"; timestamp_gte start_time] in
     let* errors := count_documents (reactions d)
         [chat_is chat; status_in ["error"; "flood_wait"];
          timestamp_gte start_time] in
     let* emoji_usage := aggregate_top (reactions d)
         [chat_is chat; status_is "success"; timestamp_gte start_time]
         rd_emoji 10 in
     ret (mkChatStats chat total_reactions errors
            (if (0 <? total_reactions + errors)%nat
             then round2 (ratio errors (total_reactions + errors) * 100)%Q
             else 0%Q)
            emoji_usage))
    (mkChatStats chat 0 0 0%Q []).

Record DailySummary : Type := mkDailySummary {
  ds_date : Z;             (* the day printed by strftime("%Y-%m-%d") *)
  ds_total_reactions : nat;
  ds_total_attempts : nat;
  ds_errors : nat;
  ds_success_rate : Q;
  ds_active_chats : nat
}.

Definition get_daily_summary (d : Database) (now : Q) (date : option Q) :=
  let date := default now date in
  try_except
    (let start_time := inject_Z (epoch_day date * 86400) in
     let end_time := (start_time + 86400)%Q in
     let window := [timestamp_gte start_time; timestamp_lt end_time] in
     let* total_reactions := count_documents (reactions d)
                         (status_is "success" :: window) in
     let* total_attempts := count_documents (reactions d) window in
     let* errors := count_documents (reactions d)
                (status_in ["error"; "flood_wait"] :: window) in
     let* active_chats := read (remove_dups
                            (map rd_chat_id
                               (List.filter (all_of window) (reactions d)))) in
     ret (mkDailySummary (epoch_day date) total_reactions total_attempts
            errors
            (if (0 <? total_attempts)%nat
             then round2 (ratio total_reactions total_attempts * 100)%Q
             else 0%Q)
            (length active_chats)))
    (mkDailySummary (epoch_day date) 0 0 0 0%Q 0).

Record TopChat : Type := mkTopChat {
  tc_chat_id : Z;
  tc_chat_title : string;
  tc_reactions : nat
}.

Definition get_top_chats (d : Database) (now : Q) (limit : nat) (days : Z) :=
  try_except
    (let start_time := days_ago now days in
     let* docs := aggregate_top (reactions d)
              [status_is "success"; timestamp_gte start_time] rd_chat_id limit in
     for_each
       (fun doc =>
          let* chat_info := read (chats d !! fst doc) in
          ret (mkTopChat (fst doc)
                 (match chat_info with
                  | Some c => default "Unknown" (chat_title c)
                  | None => "Unknown"
                  end)
                 (snd doc)))
       docs)
    [].

(** ** The queries as one family *)

Inductive Query : Type :=
  | TotalReactions
  | ReactionsPerSecond (hours : Z)
  | ActiveChats
  | FloodWaits (hours : Z)
  | ErrorRate (hours : Z)
  | EmojiUsage (hours : Z)
  | HourlyStats (hours : Z)
  | ChatStatsOf (chat : Z) (days : Z)
  | DailySummaryOf (date : option Q)
  | TopChats (limit : nat) (days : Z).

Inductive Answer : Type :=
  | AnInt (n : nat)
  | AFloat (x : Q)
  | AnEmojiUsage (u : list (string * nat))
  | AnHourly (h : list HourlyStat)
  | AChatStats (c : ChatStats)
  | ADailySummary (s : DailySummary)
  | ATopChats (t : list TopChat).

Definition tag {A} (f : A -> Answer) (m : (nat -> bool) -> nat -> A * nat)
    : (nat -> bool) -> nat -> Answer * nat :=
  fun outage k => let '(a, k') := m outage k in (f a, k').

Definition run (q : Query) (d : Database) (now : Q)
    : (nat -> bool) -> nat -> Answer * nat :=
  match q with
  | TotalReactions => tag AnInt (get_total_reactions d)
  | ReactionsPerSecond h => tag AFloat (get_reactions_per_second d now h)
  | ActiveChats => tag AnInt (get_active_chats d)
  | FloodWaits h => tag AnInt (get_flood_waits d now h)
  | ErrorRate h => tag AFloat (get_error_rate d now h)
  | EmojiUsage h => tag AnEmojiUsage (get_emoji_usage d now h)
  | HourlyStats h => tag AnHourly (get_hourly_stats d now h)
  | ChatStatsOf c n => tag AChatStats (get_chat_stats d now c n)
  | DailySummaryOf dt => tag ADailySummary (get_daily_summary d now dt)
  | TopChats l n => tag ATopChats (get_top_chats d now l n)
  end.

(** The value each [except] branch returns. *)
Definition zero_shape (q : Query) (now : Q) : Answer :=
  match q with
  | TotalReactions | ActiveChats | FloodWaits _ => AnInt 0
  | ReactionsPerSecond _ | ErrorRate _ => AFloat 0%Q
  | EmojiUsage _ => AnEmojiUsage []
  | HourlyStats _ => AnHourly []
  | ChatStatsOf c _ => AChatStats (mkChatStats c 0 0 0%Q [])
  | DailySummaryOf dt =>
      ADailySummary (mkDailySummary (epoch_day (default now dt)) 0 0 0 0%Q 0)
  | TopChats _ _ => ATopChats []
  end.

(** How many reads a query issues when none of them fails. *)
Definition reads_needed (q : Query) (d : Database) (now : Q) : nat :=
  snd (run q d now healthy 0).

End Analytics.

(** * websocket.py *)
Module Websocket.

(** The dict built by [_get_current_stats]. *)
Record Snapshot : Type := mkSnapshot {
  total_reactions : nat;
  reactions_per_second : Q;
  active_chats : nat;
  bot_uptime : Z;
  flood_waits : nat;
  error_rate : Q;
  emoji_usage : list (string * nat);
  hourly_stats : list Analytics.HourlyStat;
  timestamp : Q
}.

Inductive Payload : Type :=
  | StatsData (s : Snapshot)
  | EventData (fields : list (string * string)).

Record WsMessage : Type := mkWsMessage {
  ws_type : string;
  ws_data : Payload;
  ws_timestamp : Q
}.

(** What an iteration of the loop does to the outside, in order. *)
Inductive Event : Type :=
  | Slept (seconds : Q)
  | AggregatorCall (q : Analytics.Query)
  | SendJson (connection : nat) (message : WsMessage) (delivered : bool).

(** [WebSocketManager]: connections are identified by a number. *)
Record Manager : Type := mkManager {
  active_connections : gset nat
}.

(** The surroundings of one iteration. *)
Record TickEnv : Type := mkTickEnv {
  tk_cancelled : bool;           (* the task is cancelled during the sleep *)
  tk_db : Database;
  tk_now : Q;
  tk_outage : nat -> bool;       (* failing reads, as in [Analytics.Read] *)
  tk_send_fails : nat -> bool;   (* send_json raises on this connection *)
  tk_bot_running : bool;         (* telegram_bot.is_running *)
  tk_bot_uptime : Z              (* telegram_bot.get_uptime() *)
}.

(** The seven aggregator queries behind one snapshot, in call order. *)
Definition snapshot_queries : list Analytics.Query :=
  [Analytics.TotalReactions; Analytics.ReactionsPerSecond 1;
   Analytics.ActiveChats; Analytics.FloodWaits 24; Analytics.ErrorRate 24;
   Analytics.EmojiUsage 24; Analytics.HourlyStats 24].

(** [WebSocketManager._get_current_stats()], with the list of aggregator
    queries it called.  No query raises, so the [except] branch of the
    source is never entered. *)
Definition get_current_stats (e : TickEnv)
    : Snapshot * list Analytics.Query :=
  let d := tk_db e in
  let now := tk_now e in
  let o := tk_outage e in
  let '(total_reactions, k) := Analytics.get_total_reactions d o 0%nat in
  let '(reactions_per_second, k) :=
    Analytics.get_reactions_per_second d now 1 o k in
  let '(active_chats, k) := Analytics.get_active_chats d o k in
  let '(flood_waits, k) := Analytics.get_flood_waits d now 24 o k in
  let '(error_rate, k) := Analytics.get_error_rate d now 24 o k in
  let '(emoji_usage, k) := Analytics.get_emoji_usage d now 24 o k in
  let '(hourly_stats, _) := Analytics.get_hourly_stats d now 24 o k in
  let bot_uptime := if tk_bot_running e then tk_bot_uptime e else 0%Z in
  (mkSnapshot total_reactions reactions_per_second active_chats bot_uptime
     flood_waits error_rate emoji_usage hourly_stats now,
   snapshot_queries).

(** [WebSocketManager.broadcast(message)]: every connection gets one
    [send_json]; those that raise are collected and discarded afterwards. *)
Definition broadcast (e : TickEnv) (message : WsMessage) (m : Manager)
    : Manager * list Event :=
  let '(disconnected, trace) :=
    foldl (fun acc connection =>
             let '(disconnected, trace) := acc in
             if tk_send_fails e connection
             then ({[ connection ]} ∪ disconnected,
                   trace ++ [SendJson connection message false])
             else (disconnected, trace ++ [SendJson connection message true]))
          ((∅ : gset nat), [])
          (elements (active_connections m)) in
  (mkManager (active_connections m ∖ disconnected), trace).

Inductive Control : Type := Continue | Break.

(** One iteration of the [while True] of [_broadcast_stats_loop]. *)
Definition broadcast_stats_iteration (e : TickEnv) (m : Manager)
    : Control * Manager * list Event :=
  if tk_cancelled e then (Break, m, [])
  else
    if decide (active_connections m = ∅) then (Continue, m, [Slept 5])
    else
      let '(stats, calls) := get_current_stats e in
      let '(m', sends) :=
        broadcast e (mkWsMessage "stats_update" (StatsData stats) (tk_now e)) m in
      (Continue, m', [Slept 5] ++ map AggregatorCall calls ++ sends).

(** [_broadcast_stats_loop()] over the given ticks. *)
Fixpoint broadcast_stats_loop (ticks : list TickEnv) (m : Manager)
    : Manager * list Event :=
  match ticks with
  | [] => (m, [])
  | e :: rest =>
      match broadcast_stats_iteration e m with
      | (Break, m', trace) => (m', trace)
      | (Continue, m', trace) =>
          let '(m'', trace') := broadcast_stats_loop rest m' in
          (m'', trace ++ trace')
      end
  end.

(** Observations on a trace. *)
Definition aggregator_calls (trace : list Event) : list Analytics.Query :=
  omap (fun ev => match ev with AggregatorCall q => Some q | _ => None end)
       trace.



(** [WebSocketManager.disconnect(websocket)]: [set.discard], which does
    nothing for a connection that is not registered. *)
Definition disconnect (connection : nat) (m : Manager) : Manager :=
  mkManager (active_connections m ∖ {[ connection ]}).

(** [WebSocketManager._send_initial_data(websocket)]: one snapshot, one
    [send_json]; an exception raised by the send is logged and dropped. *)
Definition send_initial_data (e : TickEnv) (connection : nat) : list Event :=
  let '(stats, calls) := get_current_stats e in
  map AggregatorCall calls
  ++ [SendJson connection
        (mkWsMessage "initial_stats" (StatsData stats) (tk_now e))
        (negb (tk_send_fails e connection))].

(** [WebSocketManager.connect(websocket)], once the socket is accepted:
    register the connection, then greet it. *)
Definition connect (e : TickEnv) (connection : nat) (m : Manager)
    : Manager * list Event :=
  (mkManager ({[ connection ]} ∪ active_connections m),
   send_initial_data e connection).

(** [notify_reaction] and [notify_chat_added]: a discrete event handed to
    [broadcast]. *)
Definition notify_reaction (e : TickEnv) (chat message : Z) (emoji : string)
    (status : string) (m : Manager) : Manager * list Event :=
  broadcast e
    (mkWsMessage "reaction"
       (EventData [("chat_id", pretty chat); ("message_id", pretty message);
                   ("emoji", emoji); ("status", status)])
       (tk_now e)) m.

Definition notify_chat_added (e : TickEnv) (chat : Z) (title : string)
    (m : Manager) : Manager * list Event :=
  broadcast e
    (mkWsMessage "chat_added"
       (EventData [("chat_id", pretty chat); ("chat_title", title)])
       (tk_now e)) m.

End Websocket.

(** * auth.py *)
Module Auth.

(** A document of the [rate_limits] collection. *)
Record RateLimitDoc : Type := mkRateLimitDoc {
  rl_key : string;
  rl_timestamp : Q
}.

(** What the caller of [check_rate_limit] gets: [True], or the
    [HTTPException] it raises. *)
Inductive Verdict : Type :=
  | Allowed
  | HTTPException (status_code : Z) (detail : string).

Definition key_is (key : string) (r : RateLimitDoc) : bool :=
  String.eqb (rl_key r) key.

Definition timestamp_gte (t : Q) (r : RateLimitDoc) : bool :=
  Qle_bool t (rl_timestamp r).
Definition timestamp_lt (t : Q) (r : RateLimitDoc) : bool :=
  negb (Qle_bool t (rl_timestamp r)).

(** [AuthManager.check_rate_limit(request, limit_type, limit, window)] for
    a request of [client_ip] at [current_time], on the [rate_limits]
    collection:
      delete_many({key, timestamp < window_start})
      count = count_documents({key, timestamp >= window_start})
      if count >= limit: raise HTTPException(429)
      insert_one({key, timestamp: current_time}); return True *)
Definition check_rate_limit (client_ip limit_type : string) (limit window : Z)
    (current_time : Q) (rate_limits : list RateLimitDoc)
    : Verdict * list RateLimitDoc :=
  let key := limit_type +:+ ":" +:+ client_ip in
  let window_start := (current_time - inject_Z window)%Q in
  let rate_limits :=
    List.filter (fun r => negb (key_is key r && timestamp_lt window_start r))
                rate_limits in
  let count :=
    length (List.filter
              (fun r => key_is key r && timestamp_gte window_start r)
              rate_limits) in
  if (limit <=? Z.of_nat count)%Z
  then (HTTPException 429 "Rate limit exceeded", rate_limits)
  else (Allowed, rate_limits ++ [mkRateLimitDoc key current_time]).

Definition default_limit : Z := 60.
Definition default_window : Z := 60.

End Auth.

(** * Specification vocabulary *)


(** The emoji list and the cursor that [_select_emoji] works with. *)
Definition effective_mode (c : ChatConfig) : string :=
  default "random" (reaction_mode c).
Definition effective_emojis (c : ChatConfig) : list string :=
  default Reactions.default_emojis (emojis c).
Definition cursor (c : ChatConfig) : Z := default 0%Z (last_emoji_idx c).

(** A chat whose list is empty, in the given mode. *)
Definition empty_list_chat (mode : string) : ChatConfig :=
  mkChatConfig 1 None None (Some mode) (Some []) None None None None None None.

(** Sample data for the closed instances below. *)
Definition empty_db : Database := mkDatabase ∅ [] [] None.

Definition sample_chat (mode : string) (l : list string) : ChatConfig :=
  mkChatConfig 1 None None (Some mode) (Some l) None None None None None None.

Definition sample_db (mode : string) (l : list string) : Database :=
  mkDatabase {[ 1%Z := sample_chat mode l ]} [] [] None.

(** Index visited by the k-th of a run of sequential selections that
    starts from cursor [c] over [n] emojis. *)
Definition visited (c : Z) (n : nat) (k : nat) : nat :=
  Z.to_nat ((c + Z.of_nat k) mod Z.of_nat n).

(** What the store holds for chat [cid] between two sequential
    selections over the list [l]: its document, with cursor [c]. *)
Definition sequential_chat_at (cid : Z) (l : list string) (d : Database)
    (c : Z) : Prop :=
  exists cfg,
    chats d !! cid = Some cfg /\ chat_id cfg = cid
    /\ effective_mode cfg = "sequential" /\ effective_emojis cfg = l
    /\ cursor cfg = c.

(** Outcomes of a platform call after which [_send_reaction] retries
    while the budget lasts: a flood wait, or an RPC error whose text does
    not mention FLOOD. *)
Definition retriable (r : Reactions.SendResult) : bool :=
  match r with
  | Reactions.FloodWait _ => true
  | Reactions.RPCError text =>
      negb (Reactions.contains (code_points "FLOOD") (Reactions.upper text))
  | _ => false
  end.

(** Outcomes for which a branch of [_send_reaction] inserts a record. *)
Definition recorded (r : Reactions.SendResult) : bool :=
  match r with
  | Reactions.OtherException => false
  | _ => true
  end.

Definition status_of (r : Reactions.SendResult) : string :=
  match r with
  | Reactions.Delivered => "success"
  | Reactions.FloodWait _ => "flood_wait"
  | _ => "error"
  end.

(** The record of a rate-limited attempt, and the world once the attempt
    has been counted and recorded. *)
Definition flood_wait_record (env : Reactions.Env) (message : Reactions.Message)
    (emoji : string) (attempt : nat) (wait_time : Z) : ReactionDoc :=
  mkReactionDoc (Reactions.msg_chat_id message) (Reactions.msg_id message)
    emoji (Reactions.utcnow env attempt) "flood_wait"
    (Some (code_points ("FloodWait " +:+ pretty wait_time +:+ "s"))) attempt.

Definition after_flood_wait (env : Reactions.Env) (message : Reactions.Message)
    (emoji : string) (attempt : nat) (wait_time : Z) (w : Reactions.World)
    : Reactions.World :=
  Reactions.record_outcome
    (flood_wait_record env message emoji attempt wait_time)
    (Reactions.count_flood_wait
       (Reactions.call_platform (Reactions.msg_chat_id message)
          (Reactions.msg_id message) emoji w)).

(** What the settings document asks for, with the defaults of
    models.BotSettings when the document or the key is missing. *)
Definition configured_max_retries (d : Database) : Z :=
  default 3%Z (s ← settings d; max_retries_setting s).
Definition configured_multiplier (d : Database) : Q :=
  default 1.5%Q (s ← settings d; flood_wait_multiplier s).

Definition with_settings (s : option BotSettings) (w : Reactions.World)
    : Reactions.World :=
  Reactions.set_db (set_settings s (Reactions.db w)) w.

(** More sample data: a platform that always answers with the same flood
    wait, a platform that answers from a list and then delivers, a message
    and worlds. *)
Definition flood_env (wait_time : Z) : Reactions.Env :=
  Reactions.mkEnv (fun _ => Reactions.FloodWait wait_time) (fun _ => 0%Q)
    (fun _ => 0%Z) 0 0%Q.

Definition scripted_env (script : list Reactions.SendResult) : Reactions.Env :=
  Reactions.mkEnv (fun k => nth k script Reactions.Delivered)
    (fun k => inject_Z (Z.of_nat k)) (fun _ => 0%Z) 0 0%Q.

Definition sample_message : Reactions.Message :=
  Reactions.mkMessage 1 100 true false false.

Definition empty_world : Reactions.World :=
  Reactions.mkWorld (Reactions.mkBotStats 0 0 0 ∅) empty_db [] [].

Definition tuned_settings : BotSettings :=
  mkBotSettings (Some true) (Some 5%Z) (Some 60%Z) (Some 2%Q).

(** The sleep that follows attempt [k] when the dispatcher retries. *)
Definition pause_after (env : Reactions.Env) (k : nat) : Q :=
  match Reactions.platform env k with
  | Reactions.FloodWait wait_time => (inject_Z wait_time * 1.5)%Q
  | Reactions.RPCError _ =>
      match Utils.exponential_backoff k Utils.default_base_delay
              Utils.default_max_delay (Reactions.jitter_entropy env k) with
      | Ok delay => delay
      | Raise _ => 0%Q
      end
  | _ => 0%Q
  end.

(** What a run adds when the attempts numbered [a] to [a + n] all conclude
    with a recorded outcome: one record and one platform call per attempt,
    retry counts [a .. a + n], and one sleep between consecutive attempts. *)
Definition run_summary (env : Reactions.Env) (message : Reactions.Message)
    (emoji : string) (a n : nat) (w w' : Reactions.World) : Prop :=
  exists news,
    reactions (Reactions.db w') = reactions (Reactions.db w) ++ news
    /\ map rd_retry_count news = seq a (S n)
    /\ map rd_status news =
         map (fun k => status_of (Reactions.platform env k)) (seq a (S n))
    /\ Forall (fun r => rd_chat_id r = Reactions.msg_chat_id message
                        /\ rd_message_id r = Reactions.msg_id message
                        /\ rd_emoji r = emoji) news
    /\ Reactions.platform_calls w' =
         Reactions.platform_calls w
         ++ repeat (Reactions.msg_chat_id message, Reactions.msg_id message,
                    emoji) (S n)
    /\ Reactions.sleeps w' =
         Reactions.sleeps w ++ map (pause_after env) (seq a n).

(** The reading of the retry parameters as tunable: under a platform that
    always answers with the same flood wait, a dispatch would make as many
    retries as the settings document asks for and sleep the signalled wait
    times the configured multiplier before each. *)
Definition settings_govern_retries : Prop :=
  forall (env : Reactions.Env) (message : Reactions.Message) (emoji : string)
         (wait_time : Z) (fuel : nat) (w w' : Reactions.World),
    (forall k, Reactions.platform env k = Reactions.FloodWait wait_time) ->
    Reactions.send_reaction fuel env message emoji 0 w = Some (Ok tt, w') ->
    Z.of_nat (length (Reactions.platform_calls w')) =
      (Z.of_nat (length (Reactions.platform_calls w))
       + configured_max_retries (Reactions.db w) + 1)%Z
    /\ Forall (fun s => (s == inject_Z wait_time
                               * configured_multiplier (Reactions.db w))%Q)
         (drop (length (Reactions.sleeps w)) (Reactions.sleeps w')).




(** A history of 100 successes and 5 errors, all at second 1000. *)
Definition sample_outcome (status : string) : ReactionDoc :=
  mkReactionDoc 1 100 "x" 1000 status None 0.

Definition sample_history : Database :=
  mkDatabase ∅ (repeat (sample_outcome "success") 100
                ++ repeat (sample_outcome "error") 5) [] None.

(** Some read that the query needs, counted from [k0], fails. *)
Definition read_fails (q : Analytics.Query) (d : Database) (now : Q)
    (outage : nat -> bool) (k0 : nat) : Prop :=
  exists k, (k0 <= k < k0 + Analytics.reads_needed q d now)%nat
            /\ outage k = true.

(** A loop body that issues exactly one read per element. *)
Definition one_read {A B} (f : A -> Analytics.Read B) : Prop :=
  forall (o : nat -> bool) (a : A) (k : nat),
    exists b, f a o k = (if o k then Raise DatabaseError else Ok b, S k).

(** The message of a periodic tick, and sample surroundings: three
    subscribers, of which number 2 has a broken connection. *)
Definition stats_update (e : Websocket.TickEnv) : Websocket.WsMessage :=
  Websocket.mkWsMessage "stats_update"
    (Websocket.StatsData (fst (Websocket.get_current_stats e)))
    (Websocket.tk_now e).

Definition sample_tick : Websocket.TickEnv :=
  Websocket.mkTickEnv false sample_history 2000 Analytics.healthy
    (fun c => Nat.eqb c 2) true 42.

Definition sample_manager : Websocket.Manager :=
  Websocket.mkManager {[ 1%nat; 2%nat; 3%nat ]}.

(** ** Vocabulary of the further properties *)

(** Number of records of a given status. *)
Definition count_status (status : string) (l : list ReactionDoc) : nat :=
  length (List.filter (fun r => String.eqb (rd_status r) status) l).

(** Everything a run of [_send_reaction] that starts at [attempt] and
    makes [n] platform calls does to the world, [news] being the records
    it appends. *)
Record run_effect (env : Reactions.Env) (message : Reactions.Message)
    (emoji : string) (attempt n : nat) (news : list ReactionDoc)
    (w w' : Reactions.World) : Prop := mk_run_effect {
  re_calls :
    Reactions.platform_calls w' =
      Reactions.platform_calls w
      ++ repeat (Reactions.msg_chat_id message, Reactions.msg_id message,
                 emoji) n;
  re_records :
    reactions (Reactions.db w') = reactions (Reactions.db w) ++ news;
  re_retry_counts : map rd_retry_count news = seq attempt (length news);
  re_statuses :
    map rd_status news =
      map (fun k => status_of (Reactions.platform env k))
          (seq attempt (length news));
  re_recorded : (n - 1 <= length news <= n)%nat;
  re_unrecorded :
    (length news < n)%nat ->
    Reactions.platform env (attempt + length news) = Reactions.OtherException;
  re_unexpected :
    Reactions.platform env (attempt + (n - 1)) = Reactions.OtherException ->
    length news = (n - 1)%nat;
  re_success_last :
    forall i r, news !! i = Some r -> rd_status r = "success" ->
                S i = length news;
  re_message :
    Forall (fun r => rd_chat_id r = Reactions.msg_chat_id message
                     /\ rd_message_id r = Reactions.msg_id message
                     /\ rd_emoji r = emoji) news;
  re_sleeps :
    Reactions.sleeps w' =
      Reactions.sleeps w ++ map (pause_after env) (seq attempt (n - 1));
  re_total :
    Reactions.total_reactions (Reactions.stats w') =
      (Reactions.total_reactions (Reactions.stats w)
       + count_status "success" news)%nat;
  re_flood_waits :
    Reactions.flood_waits (Reactions.stats w') =
      (Reactions.flood_waits (Reactions.stats w)
       + count_status "flood_wait" news)%nat;
  re_errors :
    Reactions.errors (Reactions.stats w') =
      (Reactions.errors (Reactions.stats w)
       + count_status "error" news + (n - length news))%nat;
  re_active :
    Reactions.active_chats (Reactions.stats w') =
      if (0 <? count_status "success" news)%nat
      then {[ Reactions.msg_chat_id message ]}
           ∪ Reactions.active_chats (Reactions.stats w)
      else Reactions.active_chats (Reactions.stats w);
  re_analytics :
    length (analytics (Reactions.db w')) =
      (length (analytics (Reactions.db w)) + count_status "success" news)%nat;
  re_chats : chats (Reactions.db w') = chats (Reactions.db w);
  re_settings : settings (Reactions.db w') = settings (Reactions.db w)
}.

(** A message that passes every filter of [_handle_reaction] for the
    chat document [cfg] found in the store. *)
Definition accepted (w : Reactions.World) (cfg : ChatConfig)
    (message : Reactions.Message) : Prop :=
  chats (Reactions.db w) !! Reactions.msg_chat_id message = Some cfg
  /\ enabled cfg <> Some false
  /\ (forall s, settings (Reactions.db w) = Some s -> auto_react s <> Some false)
  /\ (react_to_text cfg = Some false -> Reactions.msg_text message = false)
  /\ (react_to_media cfg = Some false -> Reactions.msg_media message = false)
  /\ (react_to_forwards cfg <> Some true ->
      Reactions.msg_forward_date message = false).

(** The delay slept before the first attempt. *)
Definition first_delay (env : Reactions.Env) (cfg : ChatConfig) : Q :=
  (default 1 (delay_min cfg)
   + (default 5 (delay_max cfg) - default 1 (delay_min cfg))
     * Reactions.uniform_draw env)%Q.

(** Every chat document is stored under its own [chat_id]. *)
Definition keyed_by_chat_id (d : Database) : Prop :=
  forall k c, chats d !! k = Some c -> chat_id c = k.

(** Sample data: a store with one enabled chat, and a platform that
    delivers at once. *)
Definition sample_world (mode : string) (l : list string) : Reactions.World :=
  Reactions.mkWorld (Reactions.mkBotStats 0 0 0 ∅) (sample_db mode l) [] [].

Definition delivering_env : Reactions.Env := scripted_env [].

(** The selection returned an emoji. *)
Definition is_ok_result {A} (r : result A) : Prop :=
  match r with Ok _ => True | Raise _ => False end.

(** A rate expressed in percent. *)
Definition percentage (x : Q) : Prop := (0 <= x /\ x <= 100)%Q.











(** The snapshot every query of which fell back to its zero value. *)
Definition zero_snapshot (e : Websocket.TickEnv) : Websocket.Snapshot :=
  Websocket.mkSnapshot 0 0 0
    (if Websocket.tk_bot_running e then Websocket.tk_bot_uptime e else 0%Z)
    0 0 [] [] (Websocket.tk_now e).

(** The sends of a trace, and those that were not delivered. *)
Definition sends_of (trace : list Websocket.Event) : list (nat * bool) :=
  omap (fun ev => match ev with
                  | Websocket.SendJson c _ ok => Some (c, ok)
                  | _ => None
                  end) trace.

Definition only_sleeps (trace : list Websocket.Event) : Prop :=
  Forall (fun ev => ev = Websocket.Slept 5) trace.


(** The registered connections on which a send raises. *)
Definition failing (e : Websocket.TickEnv) (m : Websocket.Manager)
    : list nat :=
  List.filter (Websocket.tk_send_fails e)
    (elements (Websocket.active_connections m)).

(** The ticks during which the task is not cancelled. *)
Definition uncancelled (ticks : list Websocket.TickEnv) : Prop :=
  Forall (fun e => Websocket.tk_cancelled e = false) ticks.

(** The registry and the sends of a trace, one iteration at a time. *)
Definition drops_only_failed (m m' : Websocket.Manager)
    (trace : list Websocket.Event) : Prop :=
  (forall c, c ∈ Websocket.active_connections m'
             -> c ∈ Websocket.active_connections m)
  /\ (forall c ok, (c, ok) ∈ sends_of trace
                   -> c ∈ Websocket.active_connections m)
  /\ (forall c, c ∈ Websocket.active_connections m
                -> c ∉ Websocket.active_connections m'
                -> (c, false) ∈ sends_of trace).

(** The characters [sanitize_input] lets through. *)
Definition harmless (c : N) : bool :=
  forallb (fun char => negb (c =? char)%N) Utils.dangerous_chars.

(** The characters of a rendered integer: decimal digits and the sign. *)
Definition numeric (a : ascii) : bool :=
  ((48 <=? nat_of_ascii a) && (nat_of_ascii a <=? 57))%nat
  || Ascii.eqb a "-".

(** The requests of one client, one after the other at the given times,
    with the verdict of each. *)
Fixpoint serve (client_ip limit_type : string) (limit window : Z)
    (times : list Q) (rate_limits : list Auth.RateLimitDoc)
    : list (Q * Auth.Verdict) * list Auth.RateLimitDoc :=
  match times with
  | [] => ([], rate_limits)
  | t :: rest =>
      let '(v, rate_limits) :=
        Auth.check_rate_limit client_ip limit_type limit window t
          rate_limits in
      let '(log, rate_limits) :=
        serve client_ip limit_type limit window rest rate_limits in
      ((t, v) :: log, rate_limits)
  end.

Definition is_allowed (v : Auth.Verdict) : bool :=
  match v with Auth.Allowed => true | _ => false end.

(** The times of the requests that were let through. *)
Definition allowed_times (log : list (Q * Auth.Verdict)) : list Q :=
  map fst (List.filter (fun p => is_allowed (snd p)) log).

(** Number of the given times that lie in the closed interval [a, b]. *)
Definition within (a b : Q) (l : list Q) : nat :=
  length (List.filter (fun t => Qle_bool a t && Qle_bool t b) l).

(** The timestamps stored under a key, and the documents of the others. *)
Definition key_times (key : string) (l : list Auth.RateLimitDoc) : list Q :=
  map Auth.rl_timestamp (List.filter (Auth.key_is key) l).

Definition other_keys (key : string) (l : list Auth.RateLimitDoc)
    : list Auth.RateLimitDoc :=
  List.filter (fun r => negb (Auth.key_is key r)) l.

Definition sample_times : list Q := [0; 10; 20; 100; 301; 311]%Q.

(** * Properties *)

(** ** utils.py *)
Section UtilsFacts.

Lemma float_of_int_pow2 (a : nat) :
  (a <= 1023)%nat ->
  Utils.float_of_int (2 ^ Z.of_nat a) = Ok (inject_Z (2 ^ Z.of_nat a)).
Proof.
  intros Ha. unfold Utils.float_of_int.
  assert (Hp : (0 < 2 ^ Z.of_nat a <= 2 ^ 1023)%Z).
  { split; [apply Z.pow_pos_nonneg; lia|].
    apply Z.pow_le_mono_r; lia. }
  assert (Hc : (2 ^ 1023 < 2 ^ 1024 - 2 ^ 970)%Z) by (vm_compute; reflexivity).
  destruct (Z.ltb_spec (Z.abs (2 ^ Z.of_nat a)) (2 ^ 1024 - 2 ^ 970)) as [_|Hge];
    [reflexivity|].
  rewrite Z.abs_eq in Hge by lia. lia.
Qed.


(** Within the range of the float type the backoff does not raise. *)
Lemma exponential_backoff_returns (attempt : nat) (entropy : Z) :
  (attempt <= 1023)%nat ->
  exists d,
    Utils.exponential_backoff attempt Utils.default_base_delay
      Utils.default_max_delay entropy = Ok d.
Proof.
  intros Ha. unfold Utils.exponential_backoff.
  rewrite (float_of_int_pow2 attempt Ha). eexists. reflexivity.
Qed.





Example exponential_backoff_attempt_2 :
  Utils.exponential_backoff 2 1 60 1234567 = Ok (4 + 567 / 1000)%Q.
Proof. reflexivity. Qed.

End UtilsFacts.

(** ** reactions.py: emoji selection *)
Section SelectionFacts.

Import Reactions.

Lemma select_emoji_random (c : ChatConfig) (entropy : nat) (d : Database) :
  effective_mode c = "random" ->
  select_emoji c entropy d = (random_choice entropy (effective_emojis c), d).
Proof.
  unfold effective_mode, effective_emojis, select_emoji.
  intros ->. reflexivity.
Qed.

Lemma select_emoji_fixed (c : ChatConfig) (entropy : nat) (d : Database) :
  effective_mode c = "fixed" ->
  select_emoji c entropy d =
    (Ok (match effective_emojis c with e :: _ => e | [] => default_emoji end), d).
Proof.
  unfold effective_mode, effective_emojis, select_emoji.
  intros ->. reflexivity.
Qed.

Lemma select_emoji_sequential (c : ChatConfig) (entropy : nat) (d : Database) :
  effective_mode c = "sequential" ->
  effective_emojis c <> [] ->
  let n := Z.of_nat (length (effective_emojis c)) in
  select_emoji c entropy d =
    (Ok (nth (Z.to_nat (cursor c mod n)) (effective_emojis c) default_emoji),
     update_last_emoji_idx (chat_id c) ((cursor c + 1) mod n) d).
Proof.
  unfold effective_mode, effective_emojis, cursor, select_emoji.
  intros -> Hne. cbv zeta.
  change (String.eqb "sequential" "random") with false.
  change (String.eqb "sequential" "fixed") with false.
  change (String.eqb "sequential" "sequential") with true.
  cbv iota.
  destruct (Z.eqb_spec (Z.of_nat (length (default default_emojis (emojis c)))) 0)
    as [Hz|_]; [|reflexivity].
  destruct (default default_emojis (emojis c)); [congruence|simpl in Hz; lia].
Qed.

Lemma select_emoji_other (c : ChatConfig) (entropy : nat) (d : Database) :
  effective_mode c <> "random" ->
  effective_mode c <> "fixed" ->
  effective_mode c <> "sequential" ->
  select_emoji c entropy d = (Ok default_emoji, d).
Proof.
  unfold effective_mode, select_emoji. intros H1 H2 H3.
  apply String.eqb_neq in H1, H2, H3. rewrite H1, H2, H3. reflexivity.
Qed.

(** Fixed mode, part of C6 that holds: the first emoji of a non-empty
    list, and the default symbol for an empty one, whatever the store and
    the generator are. *)
Lemma select_emoji_fixed_first (c : ChatConfig) (entropy : nat) (d : Database)
    (e : string) (rest : list string) :
  effective_mode c = "fixed" ->
  effective_emojis c = e :: rest ->
  select_emoji c entropy d = (Ok e, d).
Proof.
  intros Hm He. rewrite select_emoji_fixed by exact Hm. rewrite He. reflexivity.
Qed.

(** C6: with an empty emoji list, fixed mode answers the default symbol
    while random mode raises IndexError: the selection fails where the
    claim promises the same fallback. *)
Theorem select_emoji_empty_list (entropy : nat) (d : Database) :
  select_emoji (empty_list_chat "fixed") entropy d = (Ok default_emoji, d)
  /\ select_emoji (empty_list_chat "random") entropy d = (Raise IndexError, d).
Proof. split; reflexivity. Qed.

(** C10: in every mode other than sequential the selection returns the
    store it was given; a selection that changes the store is a
    sequential one. *)
Theorem select_emoji_no_write (c : ChatConfig) (entropy : nat) (d : Database) :
  (effective_mode c <> "sequential" -> snd (select_emoji c entropy d) = d)
  /\ (snd (select_emoji c entropy d) <> d -> effective_mode c = "sequential").
Proof.
  assert (H : effective_mode c <> "sequential" ->
              snd (select_emoji c entropy d) = d).
  { intros Hs.
    destruct (decide (effective_mode c = "random")) as [Hr|Hr].
    { rewrite select_emoji_random by exact Hr. reflexivity. }
    destruct (decide (effective_mode c = "fixed")) as [Hf|Hf].
    { rewrite select_emoji_fixed by exact Hf. reflexivity. }
    rewrite select_emoji_other by assumption. reflexivity. }
  split; [exact H|].
  intros Hd. destruct (decide (effective_mode c = "sequential")) as [|Hn];
    [assumption|]. exfalso. apply Hd, H, Hn.
Qed.

End SelectionFacts.

Section SequentialFacts.

Import Reactions.

Variable cid : Z.
Variable entropy : nat.
Variable l : list string.
Hypothesis l_nonempty : l <> [].

Local Abbreviation chat_at := (sequential_chat_at cid l).

Lemma length_pos : (0 < Z.of_nat (length l))%Z.
Proof using l_nonempty. destruct l; [congruence|simpl; lia]. Qed.

Lemma select_step (d : Database) (cfg : ChatConfig) :
  chats d !! cid = Some cfg -> chat_id cfg = cid ->
  effective_mode cfg = "sequential" -> effective_emojis cfg = l ->
  let n := Z.of_nat (length l) in
  exists d',
    select_emoji cfg entropy d =
      (Ok (nth (Z.to_nat (cursor cfg mod n)) l default_emoji), d')
    /\ chat_at d' ((cursor cfg + 1) mod n)
    /\ chats d' !! cid = Some (set_last_emoji_idx ((cursor cfg + 1) mod n) cfg)
    /\ (forall other, other <> cid -> chats d' !! other = chats d !! other)
    /\ reactions d' = reactions d /\ settings d' = settings d.
Proof using l_nonempty.
  intros Hd Hid Hm He n.
  pose proof (select_emoji_sequential cfg entropy d Hm) as Hs.
  rewrite He in Hs. specialize (Hs l_nonempty). cbv zeta in Hs.
  eexists; split; [exact Hs|].
  assert (Hl : chats (update_last_emoji_idx (chat_id cfg)
                        ((cursor cfg + 1) mod n) d) !! cid
               = Some (set_last_emoji_idx ((cursor cfg + 1) mod n) cfg)).
  { unfold update_last_emoji_idx, set_chats. cbn [chats].
    rewrite Hid, lookup_alter_eq, Hd. reflexivity. }
  split; [|split; [exact Hl|split; [|split; reflexivity]]].
  - exists (set_last_emoji_idx ((cursor cfg + 1) mod n) cfg).
    split; [exact Hl|]. repeat split; assumption.
  - intros other Ho. unfold update_last_emoji_idx, set_chats. cbn [chats].
    rewrite Hid. apply lookup_alter_ne. congruence.
Qed.

Lemma select_consecutive_from (m : nat) :
  forall (d : Database) (c : Z),
    chat_at d c ->
    (0 <= c < Z.of_nat (length l))%Z ->
    fst (select_consecutive m cid entropy d) =
      map (fun k => Ok (nth (visited c (length l) k) l default_emoji)) (seq 0 m)
    /\ chat_at (snd (select_consecutive m cid entropy d))
         ((c + Z.of_nat m) mod Z.of_nat (length l)).
Proof using l_nonempty.
  pose proof length_pos as Hn.
  induction m as [|m IH]; intros d c Hat Hc.
  - simpl. split; [reflexivity|].
    rewrite Z.add_0_r, Z.mod_small by lia. exact Hat.
  - destruct Hat as (cfg & Hd & Hid & Hm & He & Hcur).
    destruct (select_step d cfg Hd Hid Hm He) as (d' & Hs & Hat' & _).
    cbn [select_consecutive]. rewrite Hd, Hs.
    rewrite Hcur in Hs, Hat'.
    specialize (IH d' ((c + 1) mod Z.of_nat (length l))%Z Hat'
                  (Z.mod_pos_bound _ _ Hn)).
    destruct (select_consecutive m cid entropy d') as [rs dm].
    cbn [fst snd] in *. destruct IH as [IHr IHc]. split.
    + rewrite IHr, Hcur. cbn [seq map]. f_equal.
      * unfold visited. rewrite Z.add_0_r. reflexivity.
      * rewrite <- seq_shift, map_map. apply map_ext. intros k.
        unfold visited. do 3 f_equal.
        rewrite Zplus_mod_idemp_l. f_equal. lia.
    + rewrite Zplus_mod_idemp_l in IHc.
      replace (c + Z.of_nat (S m))%Z with (c + 1 + Z.of_nat m)%Z by lia.
      exact IHc.
Qed.

Lemma visited_from_0 (k : nat) : visited 0 (length l) k = (k mod length l)%nat.
Proof using l_nonempty.
  pose proof length_pos as Hn. unfold visited.
  rewrite Z.add_0_l, <- Nat2Z.inj_mod, Nat2Z.id. reflexivity.
Qed.

End SequentialFacts.

(** C5: in sequential mode over a non-empty list of N emojis and with
    cursor c, one selection returns the emoji at index c mod N and stores
    (c + 1) mod N, a value of [0, N), as the chat's cursor, leaving the
    other chats alone; and from cursor 0, the k-th of M consecutive
    selections returns the emoji at index k mod N, after which the stored
    cursor is M mod N. *)
Theorem sequential_selection_cycles (d : Database) (cid : Z)
    (cfg : ChatConfig) (entropy : nat) :
  chats d !! cid = Some cfg -> chat_id cfg = cid ->
  effective_mode cfg = "sequential" ->
  effective_emojis cfg <> [] ->
  let l := effective_emojis cfg in
  let n := length l in
  (exists d',
     Reactions.select_emoji cfg entropy d =
       (Ok (nth (Z.to_nat (cursor cfg mod Z.of_nat n)) l Reactions.default_emoji),
        d')
     /\ (cursor <$> chats d' !! cid) = Some ((cursor cfg + 1) mod Z.of_nat n)%Z
     /\ (0 <= (cursor cfg + 1) mod Z.of_nat n < Z.of_nat n)%Z
     /\ (forall other, other <> cid -> chats d' !! other = chats d !! other))
  /\ (cursor cfg = 0%Z ->
      forall m : nat,
        fst (Reactions.select_consecutive m cid entropy d) =
          map (fun k => Ok (nth (k mod n) l Reactions.default_emoji)) (seq 0 m)
        /\ (cursor <$> chats (snd (Reactions.select_consecutive m cid entropy d))
                         !! cid)
           = Some (Z.of_nat (m mod n))).
Proof.
  intros Hd Hid Hm Hne l n. subst l n.
  pose proof (length_pos _ Hne) as Hn. split.
  - destruct (select_step cid entropy _ Hne d cfg Hd Hid Hm eq_refl)
      as (d' & Hs & _ & Hl & Ho & _).
    exists d'. split; [exact Hs|]. split; [|split; [|exact Ho]].
    + rewrite Hl. reflexivity.
    + apply Z.mod_pos_bound, Hn.
  - intros Hc m.
    destruct (select_consecutive_from cid entropy _ Hne m d 0%Z) as [Hr Hat].
    { exists cfg. repeat split; assumption. }
    { lia. }
    split.
    + rewrite Hr. apply map_ext. intros k.
      rewrite (visited_from_0 _ Hne). reflexivity.
    + destruct Hat as (cfg' & Hd' & _ & _ & _ & Hcur).
      rewrite Hd'. cbn. rewrite Hcur, Z.add_0_l, Nat2Z.inj_mod. reflexivity.
Qed.

Lemma sequential_selection_cycles_witness :
  fst (Reactions.select_consecutive 5 1 0
         (sample_db "sequential" ["a"; "b"; "c"]))
  = [Ok "a"; Ok "b"; Ok "c"; Ok "a"; Ok "b"]
  /\ (cursor <$> chats (snd (Reactions.select_consecutive 5 1 0
                               (sample_db "sequential" ["a"; "b"; "c"])))
                   !! 1%Z)
     = Some 2%Z.
Proof.
  assert (Hd : chats (sample_db "sequential" ["a"; "b"; "c"]) !! 1%Z
               = Some (sample_chat "sequential" ["a"; "b"; "c"]))
    by (vm_compute; reflexivity).
  assert (Hne : effective_emojis (sample_chat "sequential" ["a"; "b"; "c"])
                <> []) by (simpl; discriminate).
  destruct (sequential_selection_cycles _ 1%Z _ 0%nat Hd eq_refl eq_refl Hne)
    as [_ H].
  exact (H eq_refl 5%nat).
Defined.

Lemma select_emoji_no_write_witness :
  snd (Reactions.select_emoji (sample_chat "fixed" ["a"; "b"]) 0 empty_db)
  = empty_db.
Proof.
  apply (proj1 (select_emoji_no_write (sample_chat "fixed" ["a"; "b"]) 0
                  empty_db)).
  simpl. discriminate.
Defined.

(** ** reactions.py: the dispatcher *)
Section DispatchFacts.

Import Reactions.

Variable env : Env.
Variable message : Message.
Variable emoji : string.

Local Abbreviation called w :=
  (call_platform (msg_chat_id message) (msg_id message) emoji w).

Lemma send_reaction_delivered (fuel attempt : nat) (w : World) :
  platform env attempt = Delivered ->
  send_reaction (S fuel) env message emoji attempt w =
    Some (Ok tt,
          update_analytics "reaction_sent" 1 (Some emoji) (utcnow env attempt)
            (record_outcome
               (outcome_record env message emoji attempt "success" None)
               (count_reaction (msg_chat_id message) (called w)))).
Proof. intros H. cbn [send_reaction]. rewrite H. reflexivity. Qed.

Lemma send_reaction_flood_wait (fuel attempt : nat) (w : World) (wait_time : Z) :
  platform env attempt = FloodWait wait_time ->
  send_reaction (S fuel) env message emoji attempt w =
    if (attempt <? max_retries)%nat
    then send_reaction fuel env message emoji (S attempt)
           (sleep (inject_Z wait_time * 1.5)%Q
              (after_flood_wait env message emoji attempt wait_time w))
    else Some (Ok tt, after_flood_wait env message emoji attempt wait_time w).
Proof. intros H. cbn [send_reaction]. rewrite H. reflexivity. Qed.

Lemma send_reaction_rpc_error (fuel attempt : nat) (w : World)
    (text : list N) :
  platform env attempt = RPCError text ->
  send_reaction (S fuel) env message emoji attempt w =
    let w1 := record_outcome
                (outcome_record env message emoji attempt "error" (Some text))
                (count_error (called w)) in
    if (attempt <? max_retries)%nat
       && negb (contains (code_points "FLOOD") (upper text))
    then
      match Utils.exponential_backoff attempt Utils.default_base_delay
              Utils.default_max_delay (jitter_entropy env attempt) with
      | Raise e => Some (Raise e, w1)
      | Ok delay =>
          send_reaction fuel env message emoji (S attempt) (sleep delay w1)
      end
    else Some (Ok tt, w1).
Proof. intros H. cbn [send_reaction]. rewrite H. reflexivity. Qed.

Lemma send_reaction_other (fuel attempt : nat) (w : World) :
  platform env attempt = OtherException ->
  send_reaction (S fuel) env message emoji attempt w =
    Some (Ok tt, count_error (called w)).
Proof. intros H. cbn [send_reaction]. rewrite H. reflexivity. Qed.

(** The recursion is bounded: from attempt [a], more than
    [max_retries - a] units of fuel always yield a result. *)
Lemma send_reaction_total (fuel : nat) :
  forall (attempt : nat) (w : World),
    (max_retries - attempt < fuel)%nat ->
    exists r, send_reaction fuel env message emoji attempt w = Some r.
Proof.
  induction fuel as [|fuel IH]; intros attempt w Hf; [lia|].
  destruct (platform env attempt) as [|wt|text|] eqn:Hp.
  - rewrite send_reaction_delivered by exact Hp. eauto.
  - rewrite (send_reaction_flood_wait _ _ _ wt) by exact Hp.
    destruct (Nat.ltb_spec attempt max_retries); [|eauto].
    apply IH. lia.
  - rewrite (send_reaction_rpc_error _ _ _ text) by exact Hp. cbv zeta.
    destruct (Nat.ltb_spec attempt max_retries); cbn [andb]; [|eauto].
    destruct (negb _); [|eauto].
    destruct (Utils.exponential_backoff _ _ _ _); [|eauto].
    apply IH. lia.
  - rewrite send_reaction_other by exact Hp. eauto.
Qed.

(** More fuel does not change a result. *)
Lemma send_reaction_fuel_mono (fuel : nat) :
  forall (attempt : nat) (w : World) (r : result unit * World) (extra : nat),
    send_reaction fuel env message emoji attempt w = Some r ->
    send_reaction (fuel + extra) env message emoji attempt w = Some r.
Proof.
  induction fuel as [|fuel IH]; intros attempt w r extra Hr; [discriminate|].
  change (S fuel + extra)%nat with (S (fuel + extra)).
  destruct (platform env attempt) as [|wt|text|] eqn:Hp.
  - rewrite send_reaction_delivered in Hr by exact Hp.
    rewrite send_reaction_delivered by exact Hp. exact Hr.
  - rewrite (send_reaction_flood_wait _ _ _ wt) in Hr by exact Hp.
    rewrite (send_reaction_flood_wait _ _ _ wt) by exact Hp.
    destruct (attempt <? max_retries)%nat; [apply IH|]; exact Hr.
  - rewrite (send_reaction_rpc_error _ _ _ text) in Hr by exact Hp.
    rewrite (send_reaction_rpc_error _ _ _ text) by exact Hp.
    cbv zeta in *.
    destruct ((attempt <? max_retries)%nat && negb _); [|exact Hr].
    destruct (Utils.exponential_backoff _ _ _ _); [apply IH|]; exact Hr.
  - rewrite send_reaction_other in Hr by exact Hp.
    rewrite send_reaction_other by exact Hp. exact Hr.
Qed.

End DispatchFacts.

Section DispatchRuns.

Import Reactions.

Variable env : Env.
Variable message : Message.
Variable emoji : string.

Local Abbreviation called w :=
  (call_platform (msg_chat_id message) (msg_id message) emoji w).

(** The last attempt of a run: whatever recorded outcome it has, the run
    ends there once the budget is used up. *)
Lemma last_attempt (fuel attempt : nat) (w : World) :
  (max_retries <= attempt)%nat ->
  recorded (platform env attempt) = true ->
  exists w',
    send_reaction (S fuel) env message emoji attempt w = Some (Ok tt, w')
    /\ run_summary env message emoji attempt 0 w w'.
Proof.
  intros Ha Hrec.
  assert (Hlt : (attempt <? max_retries)%nat = false) by (apply Nat.ltb_ge; lia).
  destruct (platform env attempt) as [|wt|text|] eqn:Hp; [| | |discriminate].
  - rewrite send_reaction_delivered by exact Hp.
    eexists; split; [reflexivity|].
    exists [outcome_record env message emoji attempt "success" None].
    cbn. rewrite Hp, app_nil_r. repeat split; auto.
  - rewrite (send_reaction_flood_wait _ _ _ _ _ _ wt) by exact Hp. rewrite Hlt.
    eexists; split; [reflexivity|].
    exists [flood_wait_record env message emoji attempt wt].
    cbn. rewrite Hp, app_nil_r. repeat split; auto.
  - rewrite (send_reaction_rpc_error _ _ _ _ _ _ text) by exact Hp.
    cbv zeta. rewrite Hlt. cbn [andb].
    eexists; split; [reflexivity|].
    exists [outcome_record env message emoji attempt "error" (Some text)].
    cbn. rewrite Hp, app_nil_r. repeat split; auto.
Qed.

(** A run whose attempts up to the cap all fail in a retriable way. *)
Lemma run_of_failures (n : nat) :
  forall (attempt fuel : nat) (w : World),
    (attempt + n = max_retries)%nat ->
    (forall k, (attempt <= k < max_retries)%nat ->
               retriable (platform env k) = true) ->
    recorded (platform env max_retries) = true ->
    (n < fuel)%nat ->
    exists w',
      send_reaction fuel env message emoji attempt w = Some (Ok tt, w')
      /\ run_summary env message emoji attempt n w w'.
Proof.
  induction n as [|n IH]; intros attempt fuel w Han Hret Hrec Hf.
  - destruct fuel as [|fuel]; [lia|].
    rewrite Nat.add_0_r in Han. subst attempt.
    apply last_attempt; [lia|exact Hrec].
  - destruct fuel as [|fuel]; [lia|].
    assert (Hlt : (attempt <? max_retries)%nat = true) by (apply Nat.ltb_lt; lia).
    pose proof (Hret attempt ltac:(lia)) as Hra.
    assert (Hnext : forall w1 x,
              reactions (db w1) = reactions (db w) ++ [x] ->
              rd_retry_count x = attempt ->
              rd_status x = status_of (platform env attempt) ->
              (rd_chat_id x = msg_chat_id message
               /\ rd_message_id x = msg_id message /\ rd_emoji x = emoji) ->
              platform_calls w1 =
                platform_calls w ++ [(msg_chat_id message, msg_id message, emoji)] ->
              sleeps w1 = sleeps w ++ [pause_after env attempt] ->
              exists w',
                send_reaction fuel env message emoji (S attempt) w1
                  = Some (Ok tt, w')
                /\ run_summary env message emoji attempt (S n) w w').
    { intros w1 x Hr1 Hc1 Hs1 Hm1 Hp1 Hl1.
      destruct (IH (S attempt) fuel w1) as (w' & Hrun & news & H1 & H2 & H3 & H4 & H5 & H6);
        [lia|intros k Hk; apply Hret; lia|exact Hrec|lia|].
      exists w'. split; [exact Hrun|].
      exists (x :: news). repeat split.
      - rewrite H1, Hr1, <- app_assoc. reflexivity.
      - cbn [map seq]. rewrite Hc1. f_equal. exact H2.
      - cbn [map seq]. rewrite Hs1. f_equal. exact H3.
      - constructor; [exact Hm1|exact H4].
      - rewrite H5, Hp1, <- app_assoc. reflexivity.
      - rewrite H6, Hl1, <- app_assoc. reflexivity. }
    destruct (platform env attempt) as [|wt|text|] eqn:Hp;
      [discriminate| | |discriminate].
    + rewrite (send_reaction_flood_wait _ _ _ _ _ _ wt) by exact Hp. rewrite Hlt.
      apply (Hnext _ (flood_wait_record env message emoji attempt wt));
        try reflexivity; cbn; auto.
      unfold pause_after. rewrite Hp. reflexivity.
    + rewrite (send_reaction_rpc_error _ _ _ _ _ _ text) by exact Hp.
      cbv zeta. rewrite Hlt. cbn [retriable] in Hra. rewrite Hra. cbn [andb].
      destruct (exponential_backoff_returns attempt (jitter_entropy env attempt))
        as (delay & Hdelay); [unfold max_retries in *; lia|].
      rewrite Hdelay.
      apply (Hnext _ (outcome_record env message emoji attempt "error"
                        (Some text)));
        try reflexivity; cbn; auto.
      unfold pause_after. rewrite Hp, Hdelay. reflexivity.
Qed.


End DispatchRuns.

(** C1: an attempt answered by a flood wait of [wait_time] seconds appends
    one record with status flood_wait, the wait in its error text and the
    attempt number as retry count; when the attempt number is below
    [max_retries] the dispatcher then sleeps [wait_time * 1.5] seconds and
    goes on with the next attempt number, and otherwise it returns. *)
Theorem flood_wait_attempt (env : Reactions.Env) (message : Reactions.Message)
    (emoji : string) (fuel attempt : nat) (w : Reactions.World)
    (wait_time : Z) :
  Reactions.platform env attempt = Reactions.FloodWait wait_time ->
  let r := flood_wait_record env message emoji attempt wait_time in
  let w1 := after_flood_wait env message emoji attempt wait_time w in
  let w2 := Reactions.sleep (inject_Z wait_time * 1.5)%Q w1 in
  reactions (Reactions.db w1) = reactions (Reactions.db w) ++ [r]
  /\ rd_status r = "flood_wait"
  /\ rd_error r
     = Some (code_points ("FloodWait " +:+ pretty wait_time +:+ "s"))
  /\ rd_retry_count r = attempt
  /\ Reactions.sleeps w1 = Reactions.sleeps w
  /\ Reactions.sleeps w2 = Reactions.sleeps w ++ [(inject_Z wait_time * 1.5)%Q]
  /\ reactions (Reactions.db w2) = reactions (Reactions.db w1)
  /\ ((attempt < Reactions.max_retries)%nat ->
      Reactions.send_reaction (S fuel) env message emoji attempt w =
        Reactions.send_reaction fuel env message emoji (S attempt) w2)
  /\ (~ (attempt < Reactions.max_retries)%nat ->
      Reactions.send_reaction (S fuel) env message emoji attempt w =
        Some (Ok tt, w1)).
Proof.
  intros Hp r w1 w2. subst r w1 w2.
  repeat (split; [reflexivity|]).
  rewrite (send_reaction_flood_wait _ _ _ _ _ _ wait_time) by exact Hp.
  split; intros Ha.
  - apply Nat.ltb_lt in Ha. rewrite Ha. reflexivity.
  - apply Nat.ltb_nlt in Ha. rewrite Ha. reflexivity.
Qed.

Lemma flood_wait_attempt_witness :
  Reactions.send_reaction 4 (flood_env 5) sample_message "x" 0 empty_world =
    Reactions.send_reaction 3 (flood_env 5) sample_message "x" 1
      (Reactions.sleep (inject_Z 5 * 1.5)%Q
         (after_flood_wait (flood_env 5) sample_message "x" 0 5 empty_world)).
Proof.
  pose proof (flood_wait_attempt (flood_env 5) sample_message "x" 3 0
                empty_world 5 eq_refl) as H.
  cbv zeta in H.
  destruct H as (_ & _ & _ & _ & _ & _ & _ & Hretry & _).
  apply Hretry. unfold Reactions.max_retries. lia.
Defined.



(** The same budget used up by four flood waits: four records. *)
Example four_flood_waits :
  exists w',
    Reactions.send_reaction Reactions.enough_fuel (flood_env 5) sample_message
      "x" 0 empty_world = Some (Ok tt, w')
    /\ map rd_retry_count (reactions (Reactions.db w')) = [0; 1; 2; 3]%nat
    /\ length (Reactions.platform_calls w') = 4%nat.
Proof. eexists. repeat split. Qed.

(** The scenario of the specification: two flood waits of 5 seconds and
    then a delivery give three records and two sleeps of 7.5 seconds. *)
Example flood_twice_then_success :
  exists w',
    Reactions.send_reaction Reactions.enough_fuel
      (scripted_env [Reactions.FloodWait 5; Reactions.FloodWait 5])
      sample_message "x" 0 empty_world = Some (Ok tt, w')
    /\ map rd_status (reactions (Reactions.db w'))
       = ["flood_wait"; "flood_wait"; "success"]
    /\ map rd_retry_count (reactions (Reactions.db w')) = [0; 1; 2]%nat
    /\ map rd_error (reactions (Reactions.db w'))
       = [Some (code_points "FloodWait 5s");
          Some (code_points "FloodWait 5s"); None]
    /\ Reactions.sleeps w' = [(5 * 1.5)%Q; (5 * 1.5)%Q].
Proof. eexists. repeat split. Qed.

Section SettingsFacts.

Import Reactions.

Variable env : Env.
Variable message : Message.
Variable emoji : string.

(** The settings document is carried through a dispatch untouched and
    has no influence on it. *)
Lemma send_reaction_settings (s : option BotSettings) (fuel : nat) :
  forall (attempt : nat) (w : World),
    send_reaction fuel env message emoji attempt (with_settings s w) =
      match send_reaction fuel env message emoji attempt w with
      | Some (r, w') => Some (r, with_settings s w')
      | None => None
      end.
Proof.
  induction fuel as [|fuel IH]; intros attempt w; [reflexivity|].
  destruct (platform env attempt) as [|wt|text|] eqn:Hp.
  - rewrite !send_reaction_delivered by exact Hp. reflexivity.
  - rewrite !(send_reaction_flood_wait _ _ _ _ _ _ wt) by exact Hp.
    destruct (attempt <? max_retries)%nat; [|reflexivity].
    rewrite <- IH. reflexivity.
  - rewrite !(send_reaction_rpc_error _ _ _ _ _ _ text) by exact Hp.
    cbv zeta.
    destruct ((attempt <? max_retries)%nat && negb _); [|reflexivity].
    destruct (Utils.exponential_backoff _ _ _ _); [|reflexivity].
    rewrite <- IH. reflexivity.
  - rewrite !send_reaction_other by exact Hp. reflexivity.
Qed.

(** A run against a platform that always signals the same flood wait. *)
Lemma run_of_flood_waits (wait_time : Z) (fuel : nat) (w w' : World) :
  (forall k, platform env k = FloodWait wait_time) ->
  send_reaction fuel env message emoji 0 w = Some (Ok tt, w') ->
  run_summary env message emoji 0 max_retries w w'.
Proof.
  intros Hall Hrun.
  destruct (run_of_failures env message emoji max_retries 0 enough_fuel w)
    as (w0 & Hrun0 & Hsum);
    [reflexivity|intros k _; rewrite Hall; reflexivity
    |rewrite Hall; reflexivity|unfold enough_fuel; lia|].
  apply (send_reaction_fuel_mono _ _ _ _ _ _ _ enough_fuel) in Hrun.
  apply (send_reaction_fuel_mono _ _ _ _ _ _ _ fuel) in Hrun0.
  rewrite Nat.add_comm, Hrun0 in Hrun.
  injection Hrun as <-. exact Hsum.
Qed.

End SettingsFacts.

(** C3 (as amended): the retry cap is the constant 3 and the flood-wait
    factor the constant 1.5, the defaults of the Bot Settings, whatever the
    settings document holds: against a platform that always signals the
    flood wait [wait_time] a dispatch makes 3 + 1 calls and sleeps
    [wait_time * 1.5] three times, and with any other settings document in
    the store it does the same. *)
Theorem retry_parameters_fixed (env : Reactions.Env)
    (message : Reactions.Message) (emoji : string) (wait_time : Z)
    (fuel : nat) (w w' : Reactions.World) (s : option BotSettings) :
  (forall k, Reactions.platform env k = Reactions.FloodWait wait_time) ->
  Reactions.send_reaction fuel env message emoji 0 w = Some (Ok tt, w') ->
  Reactions.max_retries = 3%nat
  /\ length (Reactions.platform_calls w') =
       (length (Reactions.platform_calls w) + 3 + 1)%nat
  /\ Reactions.sleeps w' =
       Reactions.sleeps w ++ repeat (inject_Z wait_time * 1.5)%Q 3
  /\ Reactions.send_reaction fuel env message emoji 0 (with_settings s w) =
       Some (Ok tt, with_settings s w').
Proof.
  intros Hall Hrun.
  destruct (run_of_flood_waits env message emoji wait_time fuel w w' Hall Hrun)
    as (news & _ & _ & _ & _ & Hcalls & Hsleeps).
  split; [reflexivity|]. split; [|split].
  - rewrite Hcalls, length_app, repeat_length. unfold Reactions.max_retries. lia.
  - rewrite Hsleeps. f_equal. unfold Reactions.max_retries. cbn [seq map].
    unfold pause_after. rewrite !Hall. reflexivity.
  - rewrite send_reaction_settings, Hrun. reflexivity.
Qed.

Lemma retry_parameters_fixed_witness :
  exists w',
    Reactions.send_reaction 9 (flood_env 10) sample_message "x" 0 empty_world
      = Some (Ok tt, w')
    /\ length (Reactions.platform_calls w') = 4%nat
    /\ Reactions.sleeps w' = repeat (inject_Z 10 * 1.5)%Q 3
    /\ Reactions.send_reaction 9 (flood_env 10) sample_message "x" 0
         (with_settings (Some tuned_settings) empty_world)
       = Some (Ok tt, with_settings (Some tuned_settings) w').
Proof.
  eexists. split; [reflexivity|].
  pose proof (retry_parameters_fixed (flood_env 10) sample_message "x" 10 9
                empty_world _ (Some tuned_settings)
                (fun k => eq_refl) eq_refl) as (_ & Hc & Hs & Hi).
  split; [exact Hc|]. split; [exact Hs|exact Hi].
Defined.

(** C3 (as stated) fails: with a settings document that asks for 5 retries
    and a multiplier of 2, a dispatch still makes 4 calls and sleeps 1.5
    times the signalled wait. *)
Lemma settings_do_not_govern_retries : ~ settings_govern_retries.
Proof.
  intros H.
  destruct (Reactions.send_reaction 9 (flood_env 10) sample_message "x" 0
              (with_settings (Some tuned_settings) empty_world))
    as [[r w']|] eqn:Hrun; [|discriminate Hrun].
  vm_compute in Hrun. injection Hrun as <- <-.
  specialize (H (flood_env 10) sample_message "x"%string 10%Z 9%nat
                (with_settings (Some tuned_settings) empty_world) _
                (fun k => eq_refl) eq_refl).
  destruct H as [Hcalls _]. vm_compute in Hcalls. discriminate Hcalls.
Qed.

(** ** analytics.py *)
Section AnalyticsFacts.

Import Analytics.






End AnalyticsFacts.



Section DegradationFacts.

Import Analytics.

Variable outage : nat -> bool.

Lemma for_each_healthy {A B} (f : A -> Read B) (l : list A) :
  one_read f ->
  forall k, exists bs, for_each f l healthy k = (Ok bs, (k + length l)%nat).
Proof.
  intros Hf. induction l as [|a l IH]; intros k.
  - exists []. cbn. rewrite Nat.add_0_r. reflexivity.
  - destruct (Hf healthy a k) as [b Hb]. destruct (IH (S k)) as [bs Hbs].
    exists (b :: bs). cbn [for_each]. unfold bind at 1. rewrite Hb.
    cbn [healthy]. unfold bind at 1. rewrite Hbs. cbn [ret length].
    f_equal. lia.
Qed.

Lemma for_each_outage {A B} (f : A -> Read B) (l : list A) :
  one_read f ->
  forall k,
    (exists j, (k <= j < k + length l)%nat /\ outage j = true) ->
    exists k', for_each f l outage k = (Raise DatabaseError, k').
Proof.
  intros Hf. induction l as [|a l IH]; intros k (j & Hj & Ho).
  - cbn in Hj. lia.
  - destruct (Hf outage a k) as [b Hb].
    cbn [for_each]. unfold bind at 1. rewrite Hb.
    destruct (outage k) eqn:Hk; [eauto|].
    destruct (IH (S k)) as [k' Hk'].
    { exists j. split; [|exact Ho].
      destruct (Nat.eq_dec j k) as [->|]; [congruence|]. cbn in Hj. lia. }
    unfold bind at 1. rewrite Hk'. eauto.
Qed.

End DegradationFacts.

Section DegradationCases.

Import Analytics.

Variable d : Database.
Variable now : Q.
Variable outage : nat -> bool.
Variable k0 : nat.

(** Closes a goal in which the reads numbered [j], [j + 1], ... up to the
    bound of [Hk] are known to succeed while read [k] fails. *)
Ltac no_failure k j fuel :=
  first
    [ lia
    | lazymatch fuel with
      | S ?fuel' =>
          destruct (Nat.eq_dec k j) as [->|?];
          [congruence | no_failure k (S j) fuel']
      end ].

(** Runs a query with a fixed number [n] of reads: either one of them
    fails and the handler's value shows, or none does, against [H]. *)
Ltac degrade_fixed n :=
  intros (k & Hk & Ho);
  change (reads_needed _ _ _) with n in Hk;
  cbv [run tag get_total_reactions get_reactions_per_second get_active_chats
       get_flood_waits get_error_rate get_emoji_usage get_hourly_stats
       get_chat_stats get_daily_summary try_except bind count_documents
       aggregate_top read ret zero_shape];
  repeat (let E := fresh "E" in
          match goal with
          | |- context [outage ?j] =>
              destruct (outage j) eqn:E; [reflexivity|]
          end);
  exfalso; no_failure k k0 4%nat.

Lemma degrade_total_reactions :
  read_fails TotalReactions d now outage k0 ->
  fst (run TotalReactions d now outage k0) = zero_shape TotalReactions now.
Proof. degrade_fixed 1%nat. Qed.

Lemma degrade_reactions_per_second (hours : Z) :
  read_fails (ReactionsPerSecond hours) d now outage k0 ->
  fst (run (ReactionsPerSecond hours) d now outage k0)
  = zero_shape (ReactionsPerSecond hours) now.
Proof. degrade_fixed 1%nat. Qed.

Lemma degrade_active_chats :
  read_fails ActiveChats d now outage k0 ->
  fst (run ActiveChats d now outage k0) = zero_shape ActiveChats now.
Proof. degrade_fixed 1%nat. Qed.

Lemma degrade_flood_waits (hours : Z) :
  read_fails (FloodWaits hours) d now outage k0 ->
  fst (run (FloodWaits hours) d now outage k0)
  = zero_shape (FloodWaits hours) now.
Proof. degrade_fixed 1%nat. Qed.

Lemma degrade_error_rate (hours : Z) :
  read_fails (ErrorRate hours) d now outage k0 ->
  fst (run (ErrorRate hours) d now outage k0)
  = zero_shape (ErrorRate hours) now.
Proof. degrade_fixed 2%nat. Qed.

Lemma degrade_emoji_usage (hours : Z) :
  read_fails (EmojiUsage hours) d now outage k0 ->
  fst (run (EmojiUsage hours) d now outage k0)
  = zero_shape (EmojiUsage hours) now.
Proof. degrade_fixed 1%nat. Qed.

Lemma degrade_hourly_stats (hours : Z) :
  read_fails (HourlyStats hours) d now outage k0 ->
  fst (run (HourlyStats hours) d now outage k0)
  = zero_shape (HourlyStats hours) now.
Proof. degrade_fixed 1%nat. Qed.

Lemma degrade_chat_stats (chat days : Z) :
  read_fails (ChatStatsOf chat days) d now outage k0 ->
  fst (run (ChatStatsOf chat days) d now outage k0)
  = zero_shape (ChatStatsOf chat days) now.
Proof. degrade_fixed 3%nat. Qed.

Lemma degrade_daily_summary (date : option Q) :
  read_fails (DailySummaryOf date) d now outage k0 ->
  fst (run (DailySummaryOf date) d now outage k0)
  = zero_shape (DailySummaryOf date) now.
Proof. degrade_fixed 4%nat. Qed.

End DegradationCases.

Section DegradationTopChats.

Import Analytics.

Variable d : Database.
Variable now : Q.

(** The body of the loop of [get_top_chats]. *)
Local Abbreviation annotate :=
  (fun doc : Z * nat =>
     bind (read (chats d !! fst doc))
       (fun chat_info =>
          ret (mkTopChat (fst doc)
                 (match chat_info with
                  | Some c => default "Unknown" (chat_title c)
                  | None => "Unknown"
                  end)
                 (snd doc)))).

Lemma annotate_one_read : one_read annotate.
Proof.
  intros o a k. eexists. unfold bind, read, ret.
  destruct (o k); reflexivity.
Qed.

Local Abbreviation top_docs limit days :=
  (take limit
     (sort_count_desc
        (group_count
           (map rd_chat_id
              (List.filter
                 (all_of [status_is "success";
                          timestamp_gte (days_ago now days)])
                 (reactions d)))))).

Lemma reads_needed_top_chats (limit : nat) (days : Z) :
  reads_needed (TopChats limit days) d now = S (length (top_docs limit days)).
Proof.
  unfold reads_needed, run, tag, get_top_chats, try_except, aggregate_top.
  unfold bind at 1. cbn [read healthy].
  destruct (for_each_healthy annotate (top_docs limit days) annotate_one_read 1)
    as [bs Hbs].
  rewrite Hbs. reflexivity.
Qed.

Lemma degrade_top_chats (outage : nat -> bool) (k0 : nat) (limit : nat)
    (days : Z) :
  read_fails (TopChats limit days) d now outage k0 ->
  fst (run (TopChats limit days) d now outage k0)
  = zero_shape (TopChats limit days) now.
Proof.
  intros (k & Hk & Ho). rewrite reads_needed_top_chats in Hk.
  unfold run, tag, get_top_chats, try_except, aggregate_top.
  unfold bind at 1. unfold read at 1.
  destruct (outage k0) eqn:E0; [reflexivity|].
  destruct (for_each_outage outage annotate (top_docs limit days)
              annotate_one_read (S k0)) as [k' Hk'].
  { exists k. split; [|exact Ho].
    destruct (Nat.eq_dec k k0) as [->|]; [congruence|]. lia. }
  rewrite Hk'. reflexivity.
Qed.

End DegradationTopChats.

(** C8: for every query of the aggregator, every store, every time and
    every pattern of failing reads, if one of the reads the query needs
    fails then the query returns its zero value; the value is returned as
    a plain answer, never as an exception. *)
Theorem queries_degrade (q : Analytics.Query) (d : Database) (now : Q)
    (outage : nat -> bool) (k0 : nat) :
  read_fails q d now outage k0 ->
  fst (Analytics.run q d now outage k0) = Analytics.zero_shape q now.
Proof.
  destruct q.
  - apply degrade_total_reactions.
  - apply degrade_reactions_per_second.
  - apply degrade_active_chats.
  - apply degrade_flood_waits.
  - apply degrade_error_rate.
  - apply degrade_emoji_usage.
  - apply degrade_hourly_stats.
  - apply degrade_chat_stats.
  - apply degrade_daily_summary.
  - apply degrade_top_chats.
Qed.

Lemma queries_degrade_witness :
  fst (Analytics.run (Analytics.ErrorRate 24) sample_history 2000
         (fun k => Nat.eqb k 1) 0)
  = Analytics.AFloat 0%Q.
Proof.
  apply (queries_degrade (Analytics.ErrorRate 24) sample_history 2000
           (fun k => Nat.eqb k 1) 0).
  exists 1%nat. split; [vm_compute; lia|reflexivity].
Defined.

(** Without a failing read the same query gives the rate of the history. *)
Example error_rate_of_sample_history :
  fst (Analytics.run (Analytics.ErrorRate 24) sample_history 2000
         Analytics.healthy 0)
  = Analytics.AFloat 4.76%Q.
Proof. vm_compute. reflexivity. Qed.

(** ** websocket.py *)
Section BroadcastFacts.

Import Websocket.

Variable e : TickEnv.
Variable message : WsMessage.

Local Abbreviation push :=
  (fun c : nat => SendJson c message (negb (tk_send_fails e c))).

Local Abbreviation step :=
  (fun (acc : gset nat * list Event) (connection : nat) =>
     let '(disconnected, trace) := acc in
     if tk_send_fails e connection
     then ({[ connection ]} ∪ disconnected,
           trace ++ [SendJson connection message false])
     else (disconnected, trace ++ [SendJson connection message true])).

Lemma broadcast_fold (l : list nat) :
  forall (disconnected : gset nat) (trace : list Event),
    snd (foldl step (disconnected, trace) l) = trace ++ map push l
    /\ forall c, c ∈ fst (foldl step (disconnected, trace) l)
                 <-> c ∈ disconnected \/ (c ∈ l /\ tk_send_fails e c = true).
Proof.
  induction l as [|x l IH]; intros disconnected trace.
  - cbn. rewrite app_nil_r. split; [reflexivity|]. intros c. split.
    + intros Hc. left. exact Hc.
    + intros [Hc|[Hc _]]; [exact Hc|]. apply elem_of_nil in Hc. destruct Hc.
  - cbn [foldl map].
    destruct (tk_send_fails e x) eqn:Hx.
    + destruct (IH ({[x]} ∪ disconnected) (trace ++ [SendJson x message false]))
        as [Ht Hd].
      split.
      * rewrite Ht, <- app_assoc. reflexivity.
      * intros c. rewrite Hd, elem_of_union, elem_of_singleton, elem_of_cons.
        split.
        -- intros [[->|Hc]|[Hc Hf]]; auto.
        -- intros [Hc|[[->|Hc] Hf]]; auto.
    + destruct (IH disconnected (trace ++ [SendJson x message true]))
        as [Ht Hd].
      split.
      * rewrite Ht, <- app_assoc. reflexivity.
      * intros c. rewrite Hd. split.
        -- intros [?|[Hin Hf]]; [left; assumption|right].
           split; [apply elem_of_cons; right; exact Hin|exact Hf].
        -- intros [?|[Hin Hf]]; [left; assumption|].
           apply elem_of_cons in Hin as [->|Hin]; [congruence|].
           right. split; assumption.
Qed.

Lemma broadcast_spec (m : Manager) :
  snd (broadcast e message m) = map push (elements (active_connections m))
  /\ forall c, c ∈ active_connections (fst (broadcast e message m))
               <-> c ∈ active_connections m /\ tk_send_fails e c = false.
Proof.
  unfold broadcast.
  destruct (broadcast_fold (elements (active_connections m)) ∅ []) as [Ht Hd].
  destruct (foldl _ _ _) as [disconnected trace].
  cbn [fst snd active_connections] in *.
  split; [exact Ht|].
  intros c. rewrite elem_of_difference, Hd, elem_of_elements.
  destruct (tk_send_fails e c); split.
  - intros [Hin Hn]. exfalso. apply Hn. right. split; [exact Hin|reflexivity].
  - intros [_ Hf]. discriminate Hf.
  - intros [Hin _]. split; [exact Hin|reflexivity].
  - intros [Hin _]. split; [exact Hin|].
    intros [Hemp|[_ Hf]]; [|discriminate Hf].
    apply not_elem_of_empty in Hemp. exact Hemp.
Qed.








End BroadcastFacts.



(** The sample tick, run: one sleep, seven queries, three sends of which
    the one to connection 2 fails, and connection 2 gone afterwards. *)
Example sample_tick_run :
  length (snd (Websocket.broadcast_stats_iteration sample_tick sample_manager))
  = 11%nat
  /\ Websocket.active_connections
       (snd (fst (Websocket.broadcast_stats_iteration sample_tick
                    sample_manager)))
     = {[ 1%nat; 3%nat ]}.
Proof. split; vm_compute; reflexivity. Qed.

(** * Further properties *)

(** ** reactions.py: every run of the dispatcher *)
Section RunEffects.

Import Reactions.

Variable env : Env.
Variable message : Message.
Variable emoji : string.

Local Abbreviation called w :=
  (call_platform (msg_chat_id message) (msg_id message) emoji w).

Lemma count_status_cons (s : string) (r : ReactionDoc) (l : list ReactionDoc) :
  count_status s (r :: l) = (count_status s [r] + count_status s l)%nat.
Proof.
  unfold count_status. cbn [List.filter].
  destruct (String.eqb (rd_status r) s); reflexivity.
Qed.

(** A run that makes one platform call and records it. *)
Lemma effect_of_last (attempt : nat) (x : ReactionDoc) (w w' : World) :
  platform_calls w' =
    platform_calls w ++ [(msg_chat_id message, msg_id message, emoji)] ->
  reactions (db w') = reactions (db w) ++ [x] ->
  rd_retry_count x = attempt ->
  rd_status x = status_of (platform env attempt) ->
  platform env attempt <> OtherException ->
  rd_chat_id x = msg_chat_id message ->
  rd_message_id x = msg_id message ->
  rd_emoji x = emoji ->
  sleeps w' = sleeps w ->
  total_reactions (stats w') =
    (total_reactions (stats w) + count_status "success" [x])%nat ->
  flood_waits (stats w') =
    (flood_waits (stats w) + count_status "flood_wait" [x])%nat ->
  errors (stats w') = (errors (stats w) + count_status "error" [x])%nat ->
  active_chats (stats w') =
    (if (0 <? count_status "success" [x])%nat
     then {[ msg_chat_id message ]} ∪ active_chats (stats w)
     else active_chats (stats w)) ->
  length (analytics (db w')) =
    (length (analytics (db w)) + count_status "success" [x])%nat ->
  chats (db w') = chats (db w) ->
  settings (db w') = settings (db w) ->
  run_effect env message emoji attempt 1 [x] w w'.
Proof.
  intros Hcalls Hrec Hcount Hstatus Hexp Hc Hm He Hsl Ht Hf Her Ha Han Hch Hse.
  constructor; try assumption.
  - cbn. rewrite Hcount. reflexivity.
  - cbn. rewrite Hstatus. reflexivity.
  - cbn. lia.
  - cbn. lia.
  - cbn. rewrite Nat.add_0_r. intros Hu. contradiction.
  - intros [|i] r Hi Hr; [reflexivity|]. cbn in Hi. discriminate Hi.
  - repeat constructor; assumption.
  - cbn. rewrite Hsl, app_nil_r. reflexivity.
  - rewrite Her. cbn [length]. lia.
Qed.

(** A recorded failure and its pause put before the rest of a run. *)
Lemma effect_of_retry (attempt n : nat) (x : ReactionDoc)
    (news : list ReactionDoc) (w w1 w' : World) :
  platform_calls w1 =
    platform_calls w ++ [(msg_chat_id message, msg_id message, emoji)] ->
  reactions (db w1) = reactions (db w) ++ [x] ->
  rd_retry_count x = attempt ->
  rd_status x = status_of (platform env attempt) ->
  rd_status x <> "success" ->
  rd_chat_id x = msg_chat_id message ->
  rd_message_id x = msg_id message ->
  rd_emoji x = emoji ->
  sleeps w1 = sleeps w ++ [pause_after env attempt] ->
  total_reactions (stats w1) = total_reactions (stats w) ->
  flood_waits (stats w1) =
    (flood_waits (stats w) + count_status "flood_wait" [x])%nat ->
  errors (stats w1) = (errors (stats w) + count_status "error" [x])%nat ->
  active_chats (stats w1) = active_chats (stats w) ->
  analytics (db w1) = analytics (db w) ->
  chats (db w1) = chats (db w) ->
  settings (db w1) = settings (db w) ->
  (1 <= n)%nat ->
  run_effect env message emoji (S attempt) n news w1 w' ->
  run_effect env message emoji attempt (S n) (x :: news) w w'.
Proof.
  intros Hcalls Hrec Hcount Hstatus Hns Hc Hm He Hsl Ht Hf Her Ha Han Hch Hse
         Hn [].
  assert (Hsucc : count_status "success" [x] = 0%nat).
  { unfold count_status. cbn.
    destruct (String.eqb_spec (rd_status x) "success"); [contradiction|].
    reflexivity. }
  constructor.
  - rewrite re_calls0, Hcalls, <- app_assoc. reflexivity.
  - rewrite re_records0, Hrec, <- app_assoc. reflexivity.
  - cbn. rewrite Hcount, re_retry_counts0. reflexivity.
  - cbn. rewrite Hstatus, re_statuses0. reflexivity.
  - cbn [length]. lia.
  - cbn [length]. intros Hlt.
    replace (attempt + S (length news))%nat
      with (S attempt + length news)%nat by lia.
    apply re_unrecorded0. lia.
  - cbn [length]. intros Hu.
    replace (attempt + (S n - 1))%nat with (S attempt + (n - 1))%nat in Hu
      by lia.
    apply re_unexpected0 in Hu. lia.
  - intros [|i] r Hi Hr.
    + cbn in Hi. injection Hi as <-. contradiction.
    + cbn in Hi. cbn [length]. f_equal. eapply re_success_last0; eassumption.
  - constructor; [repeat split; assumption|assumption].
  - rewrite re_sleeps0, Hsl, <- app_assoc.
    replace (S n - 1)%nat with (S (n - 1)) by lia. reflexivity.
  - rewrite re_total0, Ht, (count_status_cons _ x news), Hsucc. reflexivity.
  - rewrite re_flood_waits0, Hf, (count_status_cons _ x news). lia.
  - rewrite re_errors0, Her, (count_status_cons "error" x news). cbn [length]. lia.
  - rewrite re_active0, Ha, (count_status_cons _ x news), Hsucc. reflexivity.
  - rewrite re_analytics0, Han, (count_status_cons _ x news), Hsucc. reflexivity.
  - rewrite re_chats0. exact Hch.
  - rewrite re_settings0. exact Hse.
Qed.

End RunEffects.

Section RunShape.

Import Reactions.

Variable env : Env.
Variable message : Message.
Variable emoji : string.

Local Abbreviation called w :=
  (call_platform (msg_chat_id message) (msg_id message) emoji w).

Lemma effect_of_unexpected (attempt : nat) (w : World) :
  platform env attempt = OtherException ->
  run_effect env message emoji attempt 1 [] w (count_error (called w)).
Proof.
  intros Hp.
  constructor; cbn; rewrite ?app_nil_r, ?Nat.add_0_r;
    try reflexivity; try lia.
  - intros _. exact Hp.
  - intros i r Hi. discriminate Hi.
  - constructor.
Qed.

(** Whatever the platform answers, a run with fuel beyond the remaining
    budget returns normally, and its effect is that of at most
    [max_retries - attempt + 1] attempts. *)
Lemma run_shape (fuel : nat) :
  forall (attempt : nat) (w : World),
    (max_retries - attempt < fuel)%nat ->
    exists w' n news,
      send_reaction fuel env message emoji attempt w = Some (Ok tt, w')
      /\ (1 <= n <= S (max_retries - attempt))%nat
      /\ run_effect env message emoji attempt n news w w'.
Proof.
  induction fuel as [|fuel IH]; intros attempt w Hf; [lia|].
  destruct (platform env attempt) as [|wt|text|] eqn:Hp.
  - rewrite send_reaction_delivered by exact Hp.
    eexists _, 1%nat, [_]. split; [reflexivity|]. split; [lia|].
    apply effect_of_last; try reflexivity.
    + cbn. rewrite Hp. reflexivity.
    + rewrite Hp. discriminate.
    + cbn. lia.
    + cbn. lia.
    + cbn. lia.
    + cbn. rewrite length_app. cbn. lia.
  - rewrite (send_reaction_flood_wait _ _ _ _ _ _ wt) by exact Hp.
    destruct (Nat.ltb_spec attempt max_retries) as [Hlt|Hge].
    + destruct (IH (S attempt)
                  (sleep (inject_Z wt * 1.5)%Q
                     (after_flood_wait env message emoji attempt wt w)))
        as (w' & n & news & Hrun & Hn & Heff); [lia|].
      exists w', (S n), (flood_wait_record env message emoji attempt wt :: news).
      split; [exact Hrun|]. split; [lia|].
      eapply effect_of_retry; try exact Heff; try reflexivity; try lia.
      * cbn. rewrite Hp. reflexivity.
      * cbn. discriminate.
      * cbn. unfold pause_after. rewrite Hp. reflexivity.
      * cbn. lia.
      * cbn. lia.
    + eexists _, 1%nat, [_]. split; [reflexivity|]. split; [lia|].
      apply effect_of_last; try reflexivity.
      * cbn. rewrite Hp. reflexivity.
      * rewrite Hp. discriminate.
      * cbn. lia.
      * cbn. lia.
      * cbn. lia.
      * cbn. lia.
  - rewrite (send_reaction_rpc_error _ _ _ _ _ _ text) by exact Hp. cbv zeta.
    destruct (Nat.ltb_spec attempt max_retries) as [Hlt|Hge]; cbn [andb].
    + destruct (negb (contains (code_points "FLOOD") (upper text))).
      * destruct (exponential_backoff_returns attempt
                    (jitter_entropy env attempt)) as (delay & Hdelay);
          [unfold max_retries in *; lia|].
        rewrite Hdelay.
        destruct (IH (S attempt)
                    (sleep delay
                       (record_outcome
                          (outcome_record env message emoji attempt "error"
                             (Some text))
                          (count_error (called w)))))
          as (w' & n & news & Hrun & Hn & Heff); [lia|].
        exists w', (S n),
          (outcome_record env message emoji attempt "error" (Some text) :: news).
        split; [exact Hrun|]. split; [lia|].
        eapply effect_of_retry; try exact Heff; try reflexivity; try lia.
        -- cbn. rewrite Hp. reflexivity.
        -- cbn. discriminate.
        -- cbn. unfold pause_after. rewrite Hp, Hdelay. reflexivity.
        -- cbn. lia.
        -- cbn. lia.
      * eexists _, 1%nat, [_]. split; [reflexivity|]. split; [lia|].
        apply effect_of_last; try reflexivity.
        -- cbn. rewrite Hp. reflexivity.
        -- rewrite Hp. discriminate.
        -- cbn. lia.
        -- cbn. lia.
        -- cbn. lia.
        -- cbn. lia.
    + eexists _, 1%nat, [_]. split; [reflexivity|]. split; [lia|].
      apply effect_of_last; try reflexivity.
      * cbn. rewrite Hp. reflexivity.
      * rewrite Hp. discriminate.
      * cbn. lia.
      * cbn. lia.
      * cbn. lia.
      * cbn. lia.
  - rewrite send_reaction_other by exact Hp.
    eexists _, 1%nat, []. split; [reflexivity|]. split; [lia|].
    apply effect_of_unexpected, Hp.
Qed.

End RunShape.

(** X1: whatever the platform answers, a dispatch returns normally after
    at least one and at most [max_retries + 1] platform calls, all for the
    same chat, message and emoji, with one sleep between two consecutive
    calls and at most one record per call. *)
Theorem dispatch_attempts_bounded (env : Reactions.Env)
    (message : Reactions.Message) (emoji : string) (w : Reactions.World) :
  exists w' n,
    Reactions.send_reaction Reactions.enough_fuel env message emoji 0 w
      = Some (Ok tt, w')
    /\ (1 <= n <= Reactions.max_retries + 1)%nat
    /\ Reactions.platform_calls w' =
         Reactions.platform_calls w
         ++ repeat (Reactions.msg_chat_id message, Reactions.msg_id message,
                    emoji) n
    /\ length (Reactions.sleeps w') = (length (Reactions.sleeps w) + (n - 1))%nat
    /\ (length (reactions (Reactions.db w)) + (n - 1)
        <= length (reactions (Reactions.db w'))
        <= length (reactions (Reactions.db w)) + n)%nat.
Proof.
  destruct (run_shape env message emoji Reactions.enough_fuel 0 w)
    as (w' & n & news & Hrun & Hn & Heff);
    [unfold Reactions.enough_fuel; lia|].
  exists w', n. split; [exact Hrun|]. split; [lia|].
  destruct Heff. split; [assumption|]. split.
  - rewrite re_sleeps0, length_app, length_map, length_seq. reflexivity.
  - rewrite re_records0, length_app. lia.
Qed.

(** X2: the outcome history is append-only and ordered: a dispatch keeps
    the records that were there and appends records of this message whose
    retry counts are 0, 1, 2, ... in order, whose statuses are those of the
    platform's successive answers, and among which a success can only be
    the last. *)
Theorem outcome_log_append_only (env : Reactions.Env)
    (message : Reactions.Message) (emoji : string) (w : Reactions.World) :
  exists w' news,
    Reactions.send_reaction Reactions.enough_fuel env message emoji 0 w
      = Some (Ok tt, w')
    /\ reactions (Reactions.db w') = reactions (Reactions.db w) ++ news
    /\ map rd_retry_count news = seq 0 (length news)
    /\ map rd_status news =
         map (fun k => status_of (Reactions.platform env k))
             (seq 0 (length news))
    /\ (forall i r, news !! i = Some r -> rd_status r = "success" ->
                    S i = length news)
    /\ Forall (fun r => rd_chat_id r = Reactions.msg_chat_id message
                        /\ rd_message_id r = Reactions.msg_id message
                        /\ rd_emoji r = emoji) news.
Proof.
  destruct (run_shape env message emoji Reactions.enough_fuel 0 w)
    as (w' & n & news & Hrun & Hn & Heff);
    [unfold Reactions.enough_fuel; lia|].
  exists w', news. split; [exact Hrun|].
  destruct Heff. repeat split; assumption.
Qed.

(** X3: the in-memory counters move with the history: a dispatch that
    makes [n] platform calls raises [total_reactions] by the number of
    success records it appended, [flood_waits] by the number of flood_wait
    records, and [errors] by the number of error records plus one exactly
    when its last call, the one numbered [n - 1], ended in an unexpected
    exception, which is also the one call that leaves no record; the chat
    enters [active_chats] exactly when a success was recorded. *)
Theorem counters_follow_log (env : Reactions.Env)
    (message : Reactions.Message) (emoji : string) (w : Reactions.World) :
  exists w' n news,
    Reactions.send_reaction Reactions.enough_fuel env message emoji 0 w
      = Some (Ok tt, w')
    /\ (1 <= n)%nat
    /\ Reactions.platform_calls w' =
         Reactions.platform_calls w
         ++ repeat (Reactions.msg_chat_id message, Reactions.msg_id message,
                    emoji) n
    /\ reactions (Reactions.db w') = reactions (Reactions.db w) ++ news
    /\ length news =
         (n - (if recorded (Reactions.platform env (n - 1)) then 0 else 1))%nat
    /\ Reactions.total_reactions (Reactions.stats w') =
         (Reactions.total_reactions (Reactions.stats w)
          + count_status "success" news)%nat
    /\ Reactions.flood_waits (Reactions.stats w') =
         (Reactions.flood_waits (Reactions.stats w)
          + count_status "flood_wait" news)%nat
    /\ Reactions.errors (Reactions.stats w') =
         (Reactions.errors (Reactions.stats w)
          + count_status "error" news
          + (if recorded (Reactions.platform env (n - 1)) then 0 else 1))%nat
    /\ Reactions.active_chats (Reactions.stats w') =
         (if (0 <? count_status "success" news)%nat
          then {[ Reactions.msg_chat_id message ]}
               ∪ Reactions.active_chats (Reactions.stats w)
          else Reactions.active_chats (Reactions.stats w)).
Proof.
  destruct (run_shape env message emoji Reactions.enough_fuel 0 w)
    as (w' & n & news & Hrun & Hn & Heff);
    [unfold Reactions.enough_fuel; lia|].
  exists w', n, news. split; [exact Hrun|].
  destruct Heff. split; [lia|]. split; [assumption|]. split; [assumption|].
  assert (Hlen : length news =
                 (n - (if recorded (Reactions.platform env (n - 1))
                       then 0 else 1))%nat).
  { destruct (Reactions.platform env (n - 1)) eqn:Hlast; cbn [recorded].
    4: { apply re_unexpected0. exact Hlast. }
    all: destruct (decide (length news < n)%nat) as [Hlt|Hge]; [|lia];
      assert (Hpos : length news = (n - 1)%nat) by lia;
      apply re_unrecorded0 in Hlt; cbn [Nat.add] in Hlt;
      rewrite Hpos, Hlast in Hlt; discriminate Hlt. }
  split; [exact Hlen|].
  split; [assumption|]. split; [assumption|]. split; [|assumption].
  rewrite re_errors0.
  destruct (recorded (Reactions.platform env (n - 1))); lia.
Qed.

(** X4: a dispatch writes to the reactions and analytics collections
    only: the chats and the settings are as before, and the analytics
    collection grows by one document per recorded success. *)
Theorem dispatch_leaves_policy_alone (env : Reactions.Env)
    (message : Reactions.Message) (emoji : string) (w : Reactions.World) :
  exists w' news,
    Reactions.send_reaction Reactions.enough_fuel env message emoji 0 w
      = Some (Ok tt, w')
    /\ reactions (Reactions.db w') = reactions (Reactions.db w) ++ news
    /\ chats (Reactions.db w') = chats (Reactions.db w)
    /\ settings (Reactions.db w') = settings (Reactions.db w)
    /\ length (analytics (Reactions.db w')) =
         (length (analytics (Reactions.db w)) + count_status "success" news)%nat
    /\ (count_status "success" news <= 1)%nat.
Proof.
  destruct (run_shape env message emoji Reactions.enough_fuel 0 w)
    as (w' & n & news & Hrun & Hn & Heff);
    [unfold Reactions.enough_fuel; lia|].
  exists w', news. split; [exact Hrun|].
  destruct Heff. repeat (split; [assumption|]).
  assert (Hall : forall l : list ReactionDoc,
            (forall i r, l !! i = Some r -> rd_status r = "success" ->
                         S i = length l) ->
            (count_status "success" l <= 1)%nat).
  { clear. induction l as [|x l IH]; intros Hl; [cbn; lia|].
    rewrite count_status_cons.
    destruct (String.eqb_spec (rd_status x) "success") as [Hx|Hx].
    - pose proof (Hl 0%nat x eq_refl Hx) as Hlen. cbn in Hlen.
      destruct l; [|discriminate Hlen].
      unfold count_status. cbn.
      destruct (String.eqb (rd_status x) "success"); cbn; lia.
    - assert (count_status "success" [x] = 0%nat) as ->.
      { unfold count_status. cbn.
        destruct (String.eqb_spec (rd_status x) "success");
          [contradiction|reflexivity]. }
      apply IH. intros i r Hi Hr.
      pose proof (Hl (S i) r Hi Hr) as Hlen. cbn in Hlen. lia. }
  apply Hall, re_success_last0.
Qed.

(** ** reactions.py: the message handler *)
Section HandlerFacts.

Import Reactions.

Variable env : Env.
Variable message : Message.

Lemma handle_reaction_accepted (w : World) (cfg : ChatConfig) :
  accepted w cfg message ->
  handle_reaction env message w =
    let w1 := sleep (first_delay env cfg) w in
    match select_emoji cfg (choice_entropy env) (db w1) with
    | (Raise _, d) => count_error (set_db d w1)
    | (Ok emoji, d) =>
        match send_reaction enough_fuel env message emoji 0 (set_db d w1) with
        | Some (Ok _, w') => w'
        | Some (Raise _, w') => count_error w'
        | None => set_db d w1
        end
    end.
Proof.
  intros (Hl & He & Hs & Ht & Hm & Hf).
  unfold handle_reaction. rewrite Hl.
  destruct (enabled cfg) as [[|]|]; [| congruence |]; cbn [default negb].
  all: destruct (settings (db w)) as [s|] eqn:Hset;
    [specialize (Hs s eq_refl);
     destruct (auto_react s) as [[|]|]; [|congruence|]|];
    cbn [default negb].
  all: destruct (react_to_text cfg) as [[|]|];
    [|rewrite (Ht eq_refl)|]; cbn [default negb andb].
  all: destruct (react_to_media cfg) as [[|]|];
    [|rewrite (Hm eq_refl)|]; cbn [default negb andb].
  all: destruct (react_to_forwards cfg) as [[|]|];
    [|rewrite (Hf ltac:(congruence))|rewrite (Hf ltac:(congruence))];
    cbn [default negb andb].
  all: reflexivity.
Qed.

(** What the selection may do to the store. *)
Lemma select_emoji_store (c : ChatConfig) (entropy : nat) (d : Database) :
  snd (select_emoji c entropy d) = d
  \/ exists v, is_ok_result (fst (select_emoji c entropy d))
               /\ snd (select_emoji c entropy d)
                  = update_last_emoji_idx (chat_id c) v d.
Proof.
  destruct (decide (effective_mode c = "sequential")) as [Hs|Hs].
  - destruct (decide (effective_emojis c = [])) as [He|He].
    + left. unfold effective_mode, effective_emojis in *.
      unfold select_emoji. rewrite Hs, He. reflexivity.
    + right. rewrite (select_emoji_sequential c entropy d Hs He).
      eexists. split; reflexivity.
  - left. destruct (decide (effective_mode c = "random")) as [Hr|Hr].
    { rewrite select_emoji_random by exact Hr. reflexivity. }
    destruct (decide (effective_mode c = "fixed")) as [Hf|Hf].
    { rewrite select_emoji_fixed by exact Hf. reflexivity. }
    rewrite select_emoji_other by assumption. reflexivity.
Qed.

End HandlerFacts.

Section HandlerRuns.

Import Reactions.

Variable env : Env.
Variable message : Message.

(** Either the handler returns at one of its filters, or the message was
    accepted. *)
Lemma handle_reaction_cases (w : World) :
  handle_reaction env message w = w
  \/ exists cfg, accepted w cfg message.
Proof.
  unfold handle_reaction, accepted.
  destruct (chats (db w) !! msg_chat_id message) as [cfg|] eqn:Hl;
    [|left; reflexivity].
  destruct (enabled cfg) as [[|]|] eqn:He; cbn [default negb];
    try (left; reflexivity).
  all: destruct (settings (db w)) as [s|] eqn:Hs;
    [destruct (auto_react s) as [[|]|] eqn:Ha|]; cbn [default negb];
    try (left; reflexivity).
  all: destruct (react_to_text cfg) as [[|]|] eqn:Ht,
                (msg_text message) eqn:Hmt; cbn [default negb andb];
    try (left; reflexivity).
  all: destruct (react_to_media cfg) as [[|]|] eqn:Hm,
                (msg_media message) eqn:Hmm; cbn [default negb andb];
    try (left; reflexivity).
  all: destruct (react_to_forwards cfg) as [[|]|] eqn:Hf,
                (msg_forward_date message) eqn:Hmf; cbn [default negb andb];
    try (left; reflexivity).
  all: right; exists cfg; repeat split; intros; congruence.
Qed.

(** The store after the handler: that of the selection, with the settings
    untouched. *)
Lemma handle_reaction_store (w : World) (cfg : ChatConfig) :
  accepted w cfg message ->
  chats (db (handle_reaction env message w))
    = chats (snd (select_emoji cfg (choice_entropy env) (db w)))
  /\ settings (db (handle_reaction env message w)) = settings (db w).
Proof.
  intros Hacc. rewrite (handle_reaction_accepted env message w cfg Hacc).
  cbv zeta. change (db (sleep (first_delay env cfg) w)) with (db w).
  pose proof (select_emoji_store cfg (choice_entropy env) (db w)) as Hst.
  destruct (select_emoji cfg (choice_entropy env) (db w)) as [[emoji|e] d].
  - cbn [snd fst] in *.
    assert (Hd : settings d = settings (db w)).
    { destruct Hst as [->|(v & _ & ->)]; reflexivity. }
    destruct (run_shape env message emoji enough_fuel 0
                (set_db d (sleep (first_delay env cfg) w)))
      as (w' & n & news & Hrun & _ & Heff);
      [unfold enough_fuel; lia|].
    rewrite Hrun. destruct Heff. rewrite re_chats0, re_settings0.
    split; [reflexivity|exact Hd].
  - cbn [snd fst] in *. split; [reflexivity|].
    destruct Hst as [->|(v & _ & ->)]; reflexivity.
Qed.

End HandlerRuns.

(** X5: a message that one of the filters rejects leaves no trace: for an
    unknown or disabled chat, with the global auto_react switch off, for a
    text or media message of a chat that filters them, and for a forwarded
    message unless the chat asks for forwards, the handler returns the
    world as it was: no sleep, no platform call, no record, no counter. *)
Theorem rejected_message_leaves_no_trace (env : Reactions.Env)
    (message : Reactions.Message) (w : Reactions.World) :
  (chats (Reactions.db w) !! Reactions.msg_chat_id message = None
   \/ exists cfg,
        chats (Reactions.db w) !! Reactions.msg_chat_id message = Some cfg
        /\ (enabled cfg = Some false
            \/ (exists s, settings (Reactions.db w) = Some s
                          /\ auto_react s = Some false)
            \/ (react_to_text cfg = Some false
                /\ Reactions.msg_text message = true)
            \/ (react_to_media cfg = Some false
                /\ Reactions.msg_media message = true)
            \/ (react_to_forwards cfg <> Some true
                /\ Reactions.msg_forward_date message = true))) ->
  Reactions.handle_reaction env message w = w.
Proof.
  intros H.
  destruct (handle_reaction_cases env message w) as [Hw|(cfg' & Hacc)];
    [exact Hw|].
  exfalso. destruct Hacc as (Hl & He & Hs & Ht & Hm & Hf).
  destruct H as [Hn|(cfg & Hl' & H)]; [congruence|].
  rewrite Hl in Hl'. injection Hl' as <-.
  destruct H as [H|[(s & Hset & Ha)|[[H1 H2]|[[H1 H2]|[H1 H2]]]]].
  - contradiction.
  - exact (Hs s Hset Ha).
  - rewrite (Ht H1) in H2. discriminate H2.
  - rewrite (Hm H1) in H2. discriminate H2.
  - rewrite (Hf H1) in H2. discriminate H2.
Qed.

Lemma rejected_message_leaves_no_trace_witness :
  Reactions.handle_reaction delivering_env
    (Reactions.mkMessage 1 100 true false true)
    (sample_world "random" ["a"; "b"])
  = sample_world "random" ["a"; "b"].
Proof.
  apply rejected_message_leaves_no_trace.
  right. exists (sample_chat "random" ["a"; "b"]).
  split; [vm_compute; reflexivity|].
  do 4 right. split; [discriminate|reflexivity].
Defined.

(** X6: the handler writes nothing of a chat's policy but the rotation
    cursor of the message's own chat: the settings are untouched, every
    document is still stored under its chat_id, and each chat document is
    either as before or, for the chat of the message, as before with a
    new [last_emoji_idx]. *)
Theorem handler_changes_only_cursor (env : Reactions.Env)
    (message : Reactions.Message) (w : Reactions.World) :
  keyed_by_chat_id (Reactions.db w) ->
  let w' := Reactions.handle_reaction env message w in
  settings (Reactions.db w') = settings (Reactions.db w)
  /\ keyed_by_chat_id (Reactions.db w')
  /\ forall k,
       chats (Reactions.db w') !! k = chats (Reactions.db w) !! k
       \/ (k = Reactions.msg_chat_id message
           /\ exists cfg v,
                chats (Reactions.db w) !! k = Some cfg
                /\ chats (Reactions.db w') !! k
                   = Some (set_last_emoji_idx v cfg)).
Proof.
  intros Hkey w'. subst w'.
  destruct (handle_reaction_cases env message w) as [Hw|(cfg & Hacc)].
  { rewrite Hw. split; [reflexivity|]. split; [exact Hkey|]. intros k. left.
    reflexivity. }
  destruct (handle_reaction_store env message w cfg Hacc) as [Hch Hse].
  pose proof Hacc as (Hl & _).
  pose proof (Hkey _ _ Hl) as Hid.
  split; [exact Hse|].
  destruct (select_emoji_store cfg (Reactions.choice_entropy env)
              (Reactions.db w)) as [Hsame|(v & _ & Hupd)].
  - rewrite Hsame in Hch. split.
    + intros k c. rewrite Hch. apply Hkey.
    + intros k. left. rewrite Hch. reflexivity.
  - rewrite Hupd in Hch. unfold Reactions.update_last_emoji_idx, set_chats in Hch.
    cbn [chats] in Hch. rewrite Hid in Hch. split.
    + intros k c. rewrite Hch.
      destruct (decide (k = Reactions.msg_chat_id message)) as [->|Hne].
      * rewrite lookup_alter_eq, Hl. cbn. intros [= <-]. exact Hid.
      * rewrite lookup_alter_ne by congruence. apply Hkey.
    + intros k. rewrite Hch.
      destruct (decide (k = Reactions.msg_chat_id message)) as [->|Hne].
      * right. split; [reflexivity|]. exists cfg, v.
        rewrite lookup_alter_eq, Hl. split; reflexivity.
      * left. apply lookup_alter_ne. congruence.
Qed.

Lemma handler_changes_only_cursor_witness :
  settings (Reactions.db (Reactions.handle_reaction delivering_env
                            sample_message
                            (sample_world "sequential" ["a"; "b"])))
  = None
  /\ keyed_by_chat_id
       (Reactions.db (Reactions.handle_reaction delivering_env sample_message
                        (sample_world "sequential" ["a"; "b"]))).
Proof.
  assert (Hkey : keyed_by_chat_id
                   (Reactions.db (sample_world "sequential" ["a"; "b"]))).
  { intros k c. cbn. unfold sample_db. cbn [chats].
    intros Hk. apply lookup_singleton_Some in Hk as [<- <-]. reflexivity. }
  pose proof (handler_changes_only_cursor delivering_env sample_message
                (sample_world "sequential" ["a"; "b"]) Hkey) as H.
  cbv zeta in H. destruct H as (Hs & Hk & _).
  split; [exact Hs|exact Hk].
Defined.

Section SelectionMembers.

Import Reactions.

Lemma random_choice_member (entropy : nat) (l : list string) :
  l <> [] -> exists e, random_choice entropy l = Ok e /\ e ∈ l.
Proof.
  intros Hne. destruct l as [|x l]; [congruence|].
  eexists. split; [reflexivity|].
  apply list_elem_of_In, nth_In, Nat.mod_upper_bound. cbn. lia.
Qed.

Lemma sequential_index_member (c : Z) (l : list string) :
  l <> [] ->
  nth (Z.to_nat (c mod Z.of_nat (length l))) l default_emoji ∈ l.
Proof.
  intros Hne. pose proof (length_pos l Hne) as Hn.
  apply list_elem_of_In, nth_In.
  pose proof (Z.mod_pos_bound c (Z.of_nat (length l)) Hn). lia.
Qed.

Lemma nth_lookup_lt (i : nat) (l : list string) :
  (i < length l)%nat -> l !! i = Some (nth i l default_emoji).
Proof.
  intros Hi. destruct (lookup_lt_is_Some_2 l i Hi) as [x Hx].
  rewrite (nth_lookup_Some _ _ default_emoji _ Hx). exact Hx.
Qed.

Lemma random_choice_lookup (entropy : nat) (l : list string) :
  l <> [] ->
  exists e, random_choice entropy l = Ok e
            /\ l !! (entropy mod length l)%nat = Some e.
Proof.
  intros Hne. destruct l as [|x l]; [congruence|].
  eexists. split; [reflexivity|].
  apply nth_lookup_lt, Nat.mod_upper_bound. cbn. lia.
Qed.

Lemma sequential_index_lookup (c : Z) (l : list string) :
  l <> [] ->
  l !! Z.to_nat (c mod Z.of_nat (length l))
  = Some (nth (Z.to_nat (c mod Z.of_nat (length l))) l default_emoji).
Proof.
  intros Hne. pose proof (length_pos l Hne) as Hn.
  apply nth_lookup_lt.
  pose proof (Z.mod_pos_bound c (Z.of_nat (length l)) Hn). lia.
Qed.

End SelectionMembers.

(** X7: on a non-empty emoji list the selection never raises, whatever the
    mode, the stored cursor (negative or beyond the list included) and the
    generator are: in random mode it returns the element of the list that
    the generator's draw below the length points at, in fixed mode the
    first element, in sequential mode the element at the cursor modulo the
    length, so in these three modes a member of the list; and in any other
    mode the default symbol. *)
Theorem selection_returns_member (c : ChatConfig) (entropy : nat)
    (d : Database) :
  effective_emojis c <> [] ->
  exists e,
    fst (Reactions.select_emoji c entropy d) = Ok e
    /\ (effective_mode c = "random" ->
        effective_emojis c !! (entropy mod length (effective_emojis c))%nat
        = Some e)
    /\ (effective_mode c = "fixed" -> head (effective_emojis c) = Some e)
    /\ (effective_mode c = "sequential" ->
        effective_emojis c
          !! Z.to_nat (cursor c mod Z.of_nat (length (effective_emojis c)))
        = Some e)
    /\ (effective_mode c = "random" \/ effective_mode c = "fixed"
        \/ effective_mode c = "sequential" -> e ∈ effective_emojis c)
    /\ (effective_mode c <> "random" -> effective_mode c <> "fixed" ->
        effective_mode c <> "sequential" -> e = Reactions.default_emoji).
Proof.
  intros Hne.
  destruct (decide (effective_mode c = "random")) as [Hr|Hr].
  { rewrite select_emoji_random by exact Hr.
    destruct (random_choice_lookup entropy _ Hne) as (e & -> & Hin).
    exists e. split; [reflexivity|]. rewrite Hr.
    split; [intros _; exact Hin|]. split; [discriminate|].
    split; [discriminate|]. split; [|congruence].
    intros _. exact (list_elem_of_lookup_2 _ _ _ Hin). }
  destruct (decide (effective_mode c = "fixed")) as [Hf|Hf].
  { rewrite select_emoji_fixed by exact Hf. rewrite Hf.
    destruct (effective_emojis c) as [|x l]; [congruence|].
    exists x. split; [reflexivity|]. split; [discriminate|].
    split; [reflexivity|]. split; [discriminate|]. split; [|congruence].
    intros _. apply list_elem_of_here. }
  destruct (decide (effective_mode c = "sequential")) as [Hs|Hs].
  { rewrite (select_emoji_sequential c entropy d Hs Hne). rewrite Hs.
    eexists. split; [reflexivity|]. split; [discriminate|].
    split; [discriminate|].
    split; [intros _; apply sequential_index_lookup, Hne|].
    split; [|congruence].
    intros _. apply sequential_index_member, Hne. }
  rewrite select_emoji_other by assumption.
  exists Reactions.default_emoji. split; [reflexivity|].
  split; [contradiction|]. split; [contradiction|]. split; [contradiction|].
  split; [|reflexivity].
  intros [H|[H|H]]; contradiction.
Qed.

Lemma selection_returns_member_witness :
  fst (Reactions.select_emoji
         (mkChatConfig 1 None None (Some "sequential") (Some ["a"; "b"; "c"])
            (Some (-7)%Z) None None None None None) 0 empty_db) = Ok "c".
Proof.
  destruct (selection_returns_member
              (mkChatConfig 1 None None (Some "sequential")
                 (Some ["a"; "b"; "c"]) (Some (-7)%Z) None None None None None)
              0 empty_db ltac:(cbn; discriminate))
    as (e & Hok & _ & _ & Hseq & _).
  specialize (Hseq eq_refl). cbn in Hseq. injection Hseq as <-. exact Hok.
Defined.

Section HandlerOutcomes.

Import Reactions.

Variable env : Env.
Variable message : Message.

Lemma select_emoji_keeps_history (c : ChatConfig) (entropy : nat)
    (d : Database) :
  reactions (snd (select_emoji c entropy d)) = reactions d
  /\ analytics (snd (select_emoji c entropy d)) = analytics d.
Proof.
  destruct (select_emoji_store c entropy d) as [->|(v & _ & ->)];
    split; reflexivity.
Qed.

Lemma select_emoji_raise_keeps_store (c : ChatConfig) (entropy : nat)
    (d : Database) (e : exn) :
  fst (select_emoji c entropy d) = Raise e ->
  snd (select_emoji c entropy d) = d.
Proof.
  intros Hr.
  destruct (select_emoji_store c entropy d) as [Hd|(v & Hok & _)];
    [exact Hd|].
  rewrite Hr in Hok. destruct Hok.
Qed.

End HandlerOutcomes.

(** X8: when the selection raises (an empty list in random or sequential
    mode), the handler's own except clause takes over: the accepted
    message costs the initial delay and one count in [errors], and
    nothing else changes: no platform call, no record, no write. *)
Theorem selection_failure_counts_error (env : Reactions.Env)
    (message : Reactions.Message) (w : Reactions.World) (cfg : ChatConfig)
    (e : exn) :
  accepted w cfg message ->
  fst (Reactions.select_emoji cfg (Reactions.choice_entropy env)
         (Reactions.db w)) = Raise e ->
  Reactions.handle_reaction env message w =
    Reactions.count_error (Reactions.sleep (first_delay env cfg) w).
Proof.
  intros Hacc Hr.
  rewrite (handle_reaction_accepted env message w cfg Hacc). cbv zeta.
  change (Reactions.db (Reactions.sleep (first_delay env cfg) w))
    with (Reactions.db w).
  pose proof (select_emoji_raise_keeps_store cfg
                (Reactions.choice_entropy env) (Reactions.db w) e Hr) as Hd.
  destruct (Reactions.select_emoji cfg (Reactions.choice_entropy env)
              (Reactions.db w)) as [r d].
  cbn [fst snd] in *. subst r d. reflexivity.
Qed.

Lemma selection_failure_counts_error_witness :
  Reactions.handle_reaction delivering_env sample_message
    (sample_world "random" [])
  = Reactions.count_error
      (Reactions.sleep (first_delay delivering_env (sample_chat "random" []))
         (sample_world "random" [])).
Proof.
  apply (selection_failure_counts_error delivering_env sample_message
           (sample_world "random" []) (sample_chat "random" []) IndexError).
  - repeat split; try discriminate.
  - reflexivity.
Defined.

(** X9: the one-message scenario end to end: for an accepted message of a
    chat with a non-empty emoji list whose first platform call is
    delivered, the handler sleeps the initial delay once, calls the
    platform once and appends exactly one record, with status success,
    retry count 0 and the emoji of the chat's mode: in random mode the
    element of the list the generator's draw points at, in fixed mode the
    first element, in sequential mode the element at the cursor modulo the
    length, and the default symbol in an unrecognised mode;
    [total_reactions] grows by one, the chat is active, and no flood wait
    or error is counted. *)
Theorem accepted_message_delivered (env : Reactions.Env)
    (message : Reactions.Message) (w : Reactions.World) (cfg : ChatConfig) :
  accepted w cfg message ->
  effective_emojis cfg <> [] ->
  Reactions.platform env 0 = Reactions.Delivered ->
  let w' := Reactions.handle_reaction env message w in
  exists emoji,
    (effective_mode cfg = "random" ->
     effective_emojis cfg
       !! (Reactions.choice_entropy env mod length (effective_emojis cfg))%nat
     = Some emoji)
    /\ (effective_mode cfg = "fixed" -> head (effective_emojis cfg) = Some emoji)
    /\ (effective_mode cfg = "sequential" ->
        effective_emojis cfg
          !! Z.to_nat (cursor cfg mod Z.of_nat (length (effective_emojis cfg)))
        = Some emoji)
    /\ (effective_mode cfg <> "random" -> effective_mode cfg <> "fixed" ->
        effective_mode cfg <> "sequential" ->
        emoji = Reactions.default_emoji)
    /\ reactions (Reactions.db w') =
         reactions (Reactions.db w)
         ++ [mkReactionDoc (Reactions.msg_chat_id message)
               (Reactions.msg_id message) emoji (Reactions.utcnow env 0)
               "success" None 0]
    /\ Reactions.platform_calls w' =
         Reactions.platform_calls w
         ++ [(Reactions.msg_chat_id message, Reactions.msg_id message, emoji)]
    /\ Reactions.sleeps w' = Reactions.sleeps w ++ [first_delay env cfg]
    /\ Reactions.total_reactions (Reactions.stats w') =
         S (Reactions.total_reactions (Reactions.stats w))
    /\ Reactions.msg_chat_id message
         ∈ Reactions.active_chats (Reactions.stats w')
    /\ Reactions.flood_waits (Reactions.stats w') =
         Reactions.flood_waits (Reactions.stats w)
    /\ Reactions.errors (Reactions.stats w') =
         Reactions.errors (Reactions.stats w).
Proof.
  intros Hacc Hne Hp w'. subst w'.
  rewrite (handle_reaction_accepted env message w cfg Hacc). cbv zeta.
  change (Reactions.db (Reactions.sleep (first_delay env cfg) w))
    with (Reactions.db w).
  pose proof (select_emoji_keeps_history cfg (Reactions.choice_entropy env)
                (Reactions.db w)) as [Hh _].
  assert (Hsel : exists e,
             fst (Reactions.select_emoji cfg (Reactions.choice_entropy env)
                    (Reactions.db w)) = Ok e
             /\ (effective_mode cfg = "random" ->
                 effective_emojis cfg
                   !! (Reactions.choice_entropy env
                       mod length (effective_emojis cfg))%nat = Some e)
             /\ (effective_mode cfg = "fixed" ->
                 head (effective_emojis cfg) = Some e)
             /\ (effective_mode cfg = "sequential" ->
                 effective_emojis cfg
                   !! Z.to_nat (cursor cfg
                                mod Z.of_nat (length (effective_emojis cfg)))
                 = Some e)
             /\ (effective_mode cfg <> "random" ->
                 effective_mode cfg <> "fixed" ->
                 effective_mode cfg <> "sequential" ->
                 e = Reactions.default_emoji)).
  { destruct (decide (effective_mode cfg = "random")) as [Hr|Hr].
    { rewrite select_emoji_random by exact Hr.
      destruct (random_choice_lookup (Reactions.choice_entropy env) _ Hne)
        as (e & -> & Hin).
      exists e. split; [reflexivity|]. rewrite Hr.
      split; [intros _; exact Hin|]. split; [discriminate|].
      split; [discriminate|congruence]. }
    destruct (decide (effective_mode cfg = "fixed")) as [Hf|Hf].
    { rewrite select_emoji_fixed by exact Hf. rewrite Hf.
      destruct (effective_emojis cfg) as [|x l]; [congruence|].
      exists x. split; [reflexivity|]. split; [discriminate|].
      split; [reflexivity|]. split; [discriminate|congruence]. }
    destruct (decide (effective_mode cfg = "sequential")) as [Hs|Hs].
    { rewrite (select_emoji_sequential cfg _ (Reactions.db w) Hs Hne).
      rewrite Hs. eexists. split; [reflexivity|]. split; [discriminate|].
      split; [discriminate|].
      split; [intros _; apply sequential_index_lookup, Hne|congruence]. }
    rewrite select_emoji_other by assumption.
    exists Reactions.default_emoji. split; [reflexivity|].
    split; [contradiction|]. split; [contradiction|].
    split; [contradiction|reflexivity]. }
  destruct Hsel as (emoji & Hok & Hrand & Hfix & Hseq & Hoth).
  destruct (Reactions.select_emoji cfg (Reactions.choice_entropy env)
              (Reactions.db w)) as [r d].
  cbn [fst snd] in *. subst r.
  unfold Reactions.enough_fuel.
  rewrite send_reaction_delivered by exact Hp.
  exists emoji. split; [exact Hrand|]. split; [exact Hfix|].
  split; [exact Hseq|]. split; [exact Hoth|].
  cbn. rewrite Hh. repeat split; try reflexivity.
  apply elem_of_union_l, elem_of_singleton. reflexivity.
Qed.

Lemma accepted_message_delivered_witness :
  reactions (Reactions.db (Reactions.handle_reaction delivering_env
                             sample_message
                             (sample_world "random" ["a"; "b"])))
  = [mkReactionDoc 1 100 "a" 0 "success" None 0].
Proof.
  assert (Hacc : accepted (sample_world "random" ["a"; "b"])
                   (sample_chat "random" ["a"; "b"]) sample_message)
    by (repeat split; try discriminate).
  pose proof (accepted_message_delivered delivering_env sample_message
                (sample_world "random" ["a"; "b"])
                (sample_chat "random" ["a"; "b"]) Hacc
                ltac:(cbn; discriminate) eq_refl) as H.
  cbv zeta in H. destruct H as (emoji & Hrand & _ & _ & _ & Hrec & _).
  specialize (Hrand eq_refl). cbn in Hrand. injection Hrand as <-.
  exact Hrec.
Defined.

(** X10: for an accepted message the first sleep is the configured delay:
    with [delay_min <= delay_max] (defaults 1 and 5) and a draw in [0, 1)
    it lies between the two, and it is followed by at most [max_retries]
    retry pauses. *)
Theorem first_sleep_within_delays (env : Reactions.Env)
    (message : Reactions.Message) (w : Reactions.World) (cfg : ChatConfig) :
  accepted w cfg message ->
  (default 1 (delay_min cfg) <= default 5 (delay_max cfg))%Q ->
  (0 <= Reactions.uniform_draw env)%Q ->
  (Reactions.uniform_draw env < 1)%Q ->
  exists pauses,
    Reactions.sleeps (Reactions.handle_reaction env message w) =
      Reactions.sleeps w ++ first_delay env cfg :: pauses
    /\ (default 1 (delay_min cfg) <= first_delay env cfg)%Q
    /\ (first_delay env cfg <= default 5 (delay_max cfg))%Q
    /\ (length pauses <= Reactions.max_retries)%nat.
Proof.
  intros Hacc Hle H0 H1.
  assert (Hb : (default 1 (delay_min cfg) <= first_delay env cfg)%Q
               /\ (first_delay env cfg <= default 5 (delay_max cfg))%Q).
  { unfold first_delay.
    set (a := default 1%Q (delay_min cfg)) in *.
    set (b := default 5%Q (delay_max cfg)) in *.
    set (u := Reactions.uniform_draw env) in *.
    split; nra. }
  rewrite (handle_reaction_accepted env message w cfg Hacc). cbv zeta.
  destruct (Reactions.select_emoji cfg (Reactions.choice_entropy env)
              (Reactions.db (Reactions.sleep (first_delay env cfg) w)))
    as [[emoji|e] d].
  - destruct (run_shape env message emoji Reactions.enough_fuel 0
                (Reactions.set_db d (Reactions.sleep (first_delay env cfg) w)))
      as (w' & n & news & Hrun & Hn & Heff);
      [unfold Reactions.enough_fuel; lia|].
    rewrite Hrun. destruct Heff.
    exists (map (pause_after env) (seq 0 (n - 1))).
    split; [|split; [apply Hb|split; [apply Hb|]]].
    + rewrite re_sleeps0. cbn. rewrite <- app_assoc. reflexivity.
    + rewrite length_map, length_seq. lia.
  - exists []. split; [reflexivity|].
    split; [apply Hb|split; [apply Hb|cbn; lia]].
Qed.

Lemma first_sleep_within_delays_witness :
  exists pauses,
    Reactions.sleeps (Reactions.handle_reaction (flood_env 5) sample_message
                        (sample_world "fixed" ["a"])) =
      first_delay (flood_env 5) (sample_chat "fixed" ["a"]) :: pauses
    /\ (length pauses <= Reactions.max_retries)%nat.
Proof.
  assert (Hacc : accepted (sample_world "fixed" ["a"])
                   (sample_chat "fixed" ["a"]) sample_message)
    by (repeat split; try discriminate).
  destruct (first_sleep_within_delays (flood_env 5) sample_message
              (sample_world "fixed" ["a"]) (sample_chat "fixed" ["a"]) Hacc)
    as (pauses & Hs & _ & _ & Hl).
  - cbn. discriminate.
  - cbn. discriminate.
  - reflexivity.
  - exists pauses. split; [exact Hs|exact Hl].
Defined.

Section FloodText.

Import Reactions.

Lemma upper_append (s t : list N) : upper (s ++ t) = upper s ++ upper t.
Proof. unfold upper. apply flat_map_app. Qed.

Lemma starts_with_append (needle rest : list N) :
  starts_with needle (needle ++ rest) = true.
Proof.
  induction needle as [|c needle IH]; [reflexivity|].
  cbn. rewrite N.eqb_refl. exact IH.
Qed.

Lemma contains_inside (needle before rest : list N) :
  contains needle (before ++ needle ++ rest) = true.
Proof.
  induction before as [|c before IH].
  - cbn [app].
    destruct (needle ++ rest) eqn:E; cbn [contains];
      rewrite <- E, starts_with_append; reflexivity.
  - cbn [app contains]. rewrite IH. apply orb_true_r.
Qed.

End FloodText.

(** X11: an RPC error whose text mentions a flood, in any letter case, is
    never retried: even at the first attempt, with the whole retry budget
    left, the dispatcher records it once as an error, counts one error and
    returns without sleeping or calling the platform again. *)
Theorem flood_error_text_not_retried (env : Reactions.Env)
    (message : Reactions.Message) (emoji : string) (w : Reactions.World)
    (before word rest : list N) :
  Reactions.upper word = code_points "FLOOD" ->
  Reactions.platform env 0 = Reactions.RPCError (before ++ word ++ rest) ->
  exists w',
    Reactions.send_reaction Reactions.enough_fuel env message emoji 0 w
      = Some (Ok tt, w')
    /\ reactions (Reactions.db w') =
         reactions (Reactions.db w)
         ++ [mkReactionDoc (Reactions.msg_chat_id message)
               (Reactions.msg_id message) emoji (Reactions.utcnow env 0)
               "error" (Some (before ++ word ++ rest)) 0]
    /\ Reactions.platform_calls w' =
         Reactions.platform_calls w
         ++ [(Reactions.msg_chat_id message, Reactions.msg_id message, emoji)]
    /\ Reactions.sleeps w' = Reactions.sleeps w
    /\ Reactions.errors (Reactions.stats w') =
         S (Reactions.errors (Reactions.stats w)).
Proof.
  intros Hword Hp. unfold Reactions.enough_fuel.
  rewrite (send_reaction_rpc_error _ _ _ _ _ _ _ Hp). cbv zeta.
  rewrite !upper_append, Hword, contains_inside.
  cbn [negb andb]. rewrite andb_false_r.
  eexists. split; [reflexivity|]. repeat split; reflexivity.
Qed.

Lemma flood_error_text_not_retried_witness :
  exists w',
    Reactions.send_reaction Reactions.enough_fuel
      (scripted_env
         [Reactions.RPCError (code_points "[420 flood_wait_7] too fast")])
      sample_message "x" 0 empty_world
      = Some (Ok tt, w')
    /\ map rd_status (reactions (Reactions.db w')) = ["error"]
    /\ Reactions.sleeps w' = [].
Proof.
  destruct (flood_error_text_not_retried
              (scripted_env
                 [Reactions.RPCError (code_points "[420 flood_wait_7] too fast")])
              sample_message "x" empty_world
              (code_points "[420 ") (code_points "flood")
              (code_points "_wait_7] too fast")
              eq_refl eq_refl) as (w' & Hrun & Hrec & _ & Hsl & _).
  exists w'. split; [exact Hrun|]. split; [rewrite Hrec; reflexivity|exact Hsl].
Defined.

(** Upper-casing follows Unicode: the ligature U+FB02 becomes FL, so a text
    that spells the word with it is a rate limit too, while a text without
    the word is retried. *)
Example upper_of_ligature :
  Reactions.upper (64258 :: code_points "ood")%N = code_points "FLOOD"
  /\ retriable (Reactions.RPCError (64258 :: code_points "ood wait")%N) = false
  /\ retriable (Reactions.RPCError (code_points "PEER_ID_INVALID")) = true
  /\ Reactions.upper [223; 255; 1075]%N = [83; 83; 376; 1043]%N.
Proof. repeat split; vm_compute; reflexivity. Qed.

(** ** analytics.py: what the queries answer *)
Section RoundingFacts.

Import Analytics.

Lemma round_half_even_floor (x : Q) :
  round_half_even x = Qfloor x
  \/ (round_half_even x = (Qfloor x + 1)%Z /\ (inject_Z (Qfloor x) < x)%Q).
Proof.
  unfold round_half_even.
  destruct (Qcompare_spec (x - inject_Z (Qfloor x)) (1 # 2)) as [He|Hl|Hg].
  - destruct (Z.even (Qfloor x)); [left; reflexivity|right].
    split; [reflexivity|]. lra.
  - left. reflexivity.
  - right. split; [reflexivity|]. lra.
Qed.

Lemma round_half_even_range (x : Q) (n : Z) :
  (0 <= x)%Q -> (x <= inject_Z n)%Q ->
  (0 <= round_half_even x <= n)%Z.
Proof.
  intros H0 Hn.
  pose proof (Qfloor_resp_le _ _ H0) as Hf0. change (Qfloor 0) with 0%Z in Hf0.
  pose proof (Qfloor_resp_le _ _ Hn) as Hfn. rewrite Qfloor_Z in Hfn.
  destruct (round_half_even_floor x) as [->|[-> Hlt]]; [lia|].
  split; [lia|].
  assert (Hs : (inject_Z (Qfloor x) < inject_Z n)%Q) by lra.
  rewrite <- Zlt_Qlt in Hs. lia.
Qed.

Lemma round2_nonneg (x : Q) : (0 <= x)%Q -> (0 <= round2 x)%Q.
Proof.
  intros H0. unfold round2.
  assert (Hy : (0 <= x * 100)%Q) by lra.
  pose proof (Qfloor_resp_le _ _ Hy) as Hf. change (Qfloor 0) with 0%Z in Hf.
  destruct (round_half_even_floor (x * 100)) as [->|[-> _]];
    unfold Qle; cbn [Qnum Qden]; lia.
Qed.

Lemma round2_percentage (x : Q) : percentage x -> percentage (round2 x).
Proof.
  intros [H0 H1]. unfold round2.
  destruct (round_half_even_range (x * 100) 10000) as [Hlo Hhi].
  { lra. }
  { change (inject_Z 10000) with 10000%Q. lra. }
  split; unfold Qle; cbn [Qnum Qden]; lia.
Qed.

Lemma ratio_percentage (a b : nat) :
  (a <= b)%nat -> (0 < b)%nat -> percentage (ratio a b * 100)%Q.
Proof.
  intros Hab Hb. unfold ratio.
  assert (Ha0 : (0 <= inject_Z (Z.of_nat a))%Q)
    by (change 0%Q with (inject_Z 0); rewrite <- Zle_Qle; lia).
  assert (Hb0 : (0 < inject_Z (Z.of_nat b))%Q)
    by (change 0%Q with (inject_Z 0); rewrite <- Zlt_Qlt; lia).
  assert (Hle : (inject_Z (Z.of_nat a) <= inject_Z (Z.of_nat b))%Q)
    by (rewrite <- Zle_Qle; lia).
  assert (Hq0 : (0 <= inject_Z (Z.of_nat a) / inject_Z (Z.of_nat b))%Q).
  { apply Qle_shift_div_l; [exact Hb0|]. lra. }
  assert (Hq1 : (inject_Z (Z.of_nat a) / inject_Z (Z.of_nat b) <= 1)%Q).
  { apply Qle_shift_div_r; [exact Hb0|]. lra. }
  split; lra.
Qed.

Lemma percentage_zero : percentage 0.
Proof. split; lra. Qed.

Lemma guarded_rate_percentage (a b : nat) :
  (a <= b)%nat ->
  percentage (if (0 <? b)%nat then round2 (ratio a b * 100)%Q else 0%Q).
Proof.
  intros Hab. destruct (Nat.ltb_spec 0 b) as [Hb|_];
    [|exact percentage_zero].
  apply round2_percentage, ratio_percentage; assumption.
Qed.

Lemma stronger_filter_counts_less {A} (p q : A -> bool) (l : list A) :
  (forall a, p a = true -> q a = true) ->
  (length (List.filter p l) <= length (List.filter q l))%nat.
Proof.
  intros Hpq. induction l as [|a l IH]; [reflexivity|].
  cbn [List.filter]. specialize (Hpq a).
  destruct (p a), (q a); cbn [length]; try lia.
Qed.

Lemma narrower_filter_counts_less {A} (f : A -> bool) (fs : list (A -> bool))
    (l : list A) :
  (length (List.filter (all_of (f :: fs)) l)
   <= length (List.filter (all_of fs) l))%nat.
Proof.
  apply stronger_filter_counts_less. intros a. unfold all_of. cbn [forallb].
  intros H. apply andb_true_iff in H. apply H.
Qed.

End RoundingFacts.

(** X12: the three rates of the aggregator are percentages: whatever the
    store, the window and the failing reads are, the global error rate,
    the error rate of a chat and the success rate of a day lie between 0
    and 100. *)
Theorem rates_are_percentages (d : Database) (now : Q) (outage : nat -> bool)
    (k : nat) (hours chat days : Z) (date : option Q) :
  percentage (fst (Analytics.get_error_rate d now hours outage k))
  /\ percentage (Analytics.cs_error_rate
                   (fst (Analytics.get_chat_stats d now chat days outage k)))
  /\ percentage (Analytics.ds_success_rate
                   (fst (Analytics.get_daily_summary d now date outage k))).
Proof.
  split; [|split].
  - cbv [Analytics.get_error_rate Analytics.try_except Analytics.bind
         Analytics.count_documents Analytics.read Analytics.ret].
    destruct (outage k); [exact percentage_zero|].
    destruct (outage (S k)); [exact percentage_zero|].
    cbn [fst]. apply guarded_rate_percentage, narrower_filter_counts_less.
  - cbv [Analytics.get_chat_stats Analytics.try_except Analytics.bind
         Analytics.count_documents Analytics.aggregate_top Analytics.read
         Analytics.ret].
    destruct (outage k); [exact percentage_zero|].
    destruct (outage (S k)); [exact percentage_zero|].
    destruct (outage (S (S k))); [exact percentage_zero|].
    cbn [fst Analytics.cs_error_rate]. apply guarded_rate_percentage. lia.
  - cbv [Analytics.get_daily_summary Analytics.try_except Analytics.bind
         Analytics.count_documents Analytics.read Analytics.ret].
    destruct (outage k); [exact percentage_zero|].
    destruct (outage (S k)); [exact percentage_zero|].
    destruct (outage (S (S k))); [exact percentage_zero|].
    destruct (outage (S (S (S k)))); [exact percentage_zero|].
    cbn [fst Analytics.ds_success_rate].
    apply guarded_rate_percentage, narrower_filter_counts_less.
Qed.

(** X13: the reaction rate is never negative, and for a window of zero or
    fewer hours it is 0.0: the division by the window's seconds is
    guarded. *)
Theorem reactions_per_second_guarded (d : Database) (now : Q)
    (outage : nat -> bool) (k : nat) (hours : Z) :
  (0 <= fst (Analytics.get_reactions_per_second d now hours outage k))%Q
  /\ ((hours <= 0)%Z ->
      fst (Analytics.get_reactions_per_second d now hours outage k) = 0%Q).
Proof.
  cbv [Analytics.get_reactions_per_second Analytics.try_except Analytics.bind
       Analytics.count_documents Analytics.read Analytics.ret].
  destruct (outage k); cbn [fst].
  { split; [lra|reflexivity]. }
  destruct (Z.ltb_spec 0 (hours * 3600)) as [Hpos|Hneg].
  - split; [|intros Hh; lia].
    apply round2_nonneg.
    apply Qle_shift_div_l.
    + change 0%Q with (inject_Z 0). rewrite <- Zlt_Qlt. exact Hpos.
    + rewrite Qmult_0_l. change 0%Q with (inject_Z 0). rewrite <- Zle_Qle. lia.
  - split; [lra|reflexivity].
Qed.

Lemma reactions_per_second_guarded_witness :
  fst (Analytics.get_reactions_per_second sample_history 2000 0
         Analytics.healthy 0) = 0%Q.
Proof.
  apply (proj2 (reactions_per_second_guarded sample_history 2000
                  Analytics.healthy 0 0)).
  lia.
Defined.

(** ** analytics.py: the stages of the pipelines *)
Section GroupFacts.

Import Analytics.

Context {K : Type} `{EqDecision K}.

Implicit Types (k : K) (acc : list (K * nat)) (keys : list K).












End GroupFacts.

Section SortFacts.

Import Analytics.

Context {K : Type}.

Implicit Types (l : list (K * nat)) (x : K * nat).






End SortFacts.

Section TopFacts.

Import Analytics.

Context {K : Type} `{EqDecision K}.



End TopFacts.

Section HistogramFacts.

Import Analytics.


End HistogramFacts.



Example emoji_usage_of_sample_history :
  fst (Analytics.get_emoji_usage sample_history 2000 24 Analytics.healthy 0)
  = [("x", 100%nat)].
Proof. vm_compute. reflexivity. Qed.

Section TopChatsFacts.

Import Analytics.



End TopChatsFacts.



Example top_chats_of_sample_history :
  fst (Analytics.get_top_chats sample_history 2000 3 7 Analytics.healthy 0)
  = [Analytics.mkTopChat 1 "Unknown" 100].
Proof. vm_compute. reflexivity. Qed.

Section HourlyFacts.

Import Analytics.







End HourlyFacts.



Example hourly_stats_of_sample_history :
  fst (Analytics.get_hourly_stats sample_history 2000 24 Analytics.healthy 0)
  = [Analytics.mkHourlyStat 0 0 100].
Proof. vm_compute. reflexivity. Qed.

Section DailyFacts.

Import Analytics.

Lemma disjoint_filters_within {A} (p q r : A -> bool) (l : list A) :
  (forall a, p a = true -> q a = false) ->
  (forall a, p a = true -> r a = true) ->
  (forall a, q a = true -> r a = true) ->
  (length (List.filter p l) + length (List.filter q l)
   <= length (List.filter r l))%nat.
Proof.
  intros Hpq Hpr Hqr. induction l as [|a l IH]; [reflexivity|].
  cbn [List.filter].
  specialize (Hpq a). specialize (Hpr a). specialize (Hqr a).
  destruct (p a), (q a), (r a); cbn [length]; lia.
Qed.

Lemma success_and_failures_within (fs : list (ReactionDoc -> bool))
    (l : list ReactionDoc) :
  (length (List.filter (all_of (status_is "success" :: fs)) l)
   + length (List.filter
               (all_of (status_in ["error"; "flood_wait"] :: fs)) l)
   <= length (List.filter (all_of fs) l))%nat.
Proof.
  apply disjoint_filters_within; intros r; unfold all_of; cbn [forallb].
  - intros H. apply andb_true_iff in H as [Hs _].
    unfold status_is in Hs. apply String.eqb_eq in Hs.
    unfold status_in. rewrite Hs. reflexivity.
  - intros H. apply andb_true_iff in H. apply H.
  - intros H. apply andb_true_iff in H. apply H.
Qed.

Lemma remove_dups_shorter (l : list Z) :
  (length (remove_dups l) <= length l)%nat
  /\ (l <> [] -> remove_dups l <> []).
Proof.
  split.
  - induction l as [|x l IH]; [reflexivity|].
    cbn [remove_dups]. destruct (decide_rel elem_of x l); cbn [length]; lia.
  - intros Hne Hnil. destruct l as [|x l]; [congruence|].
    assert (Hx : x ∈ remove_dups (x :: l))
      by (apply elem_of_remove_dups, list_elem_of_here).
    rewrite Hnil in Hx. inversion Hx.
Qed.

End DailyFacts.

(** X17: when its four reads succeed, the daily summary is consistent:
    it is dated with the day asked for (today when none is given), its
    successes and its errors together do not exceed its attempts, its
    active chats are at most as many as the attempts, and a day without
    attempts has success rate 0.0 and no active chat, while a day with
    attempts has at least one. *)
Theorem daily_summary_consistent (d : Database) (now : Q) (date : option Q)
    (outage : nat -> bool) (k : nat) :
  (forall j, (k <= j < k + 4)%nat -> outage j = false) ->
  let s := fst (Analytics.get_daily_summary d now date outage k) in
  Analytics.ds_date s = epoch_day (default now date)
  /\ (Analytics.ds_total_reactions s + Analytics.ds_errors s
      <= Analytics.ds_total_attempts s)%nat
  /\ (Analytics.ds_active_chats s <= Analytics.ds_total_attempts s)%nat
  /\ (Analytics.ds_total_attempts s = 0%nat ->
      Analytics.ds_success_rate s = 0%Q
      /\ Analytics.ds_active_chats s = 0%nat)
  /\ ((0 < Analytics.ds_total_attempts s)%nat ->
      (1 <= Analytics.ds_active_chats s)%nat).
Proof.
  intros Hok s. subst s.
  cbv [Analytics.get_daily_summary Analytics.try_except Analytics.bind
       Analytics.count_documents Analytics.read Analytics.ret].
  rewrite (Hok k), (Hok (S k)), (Hok (S (S k))), (Hok (S (S (S k)))) by lia.
  cbn [fst Analytics.ds_date Analytics.ds_total_reactions Analytics.ds_errors
       Analytics.ds_total_attempts Analytics.ds_active_chats
       Analytics.ds_success_rate].
  set (window := [Analytics.timestamp_gte
                    (inject_Z (epoch_day (default now date) * 86400));
                  Analytics.timestamp_lt
                    (inject_Z (epoch_day (default now date) * 86400) + 86400)%Q]).
  set (attempts := List.filter (Analytics.all_of window) (reactions d)).
  destruct (remove_dups_shorter (map rd_chat_id attempts)) as [Hlen Hne].
  rewrite length_map in Hlen.
  split; [reflexivity|]. split; [apply success_and_failures_within|].
  split; [exact Hlen|]. split.
  - intros H0. rewrite H0. split; [reflexivity|].
    fold attempts in H0. lia.
  - intros Hpos. fold attempts in Hpos.
    destruct attempts as [|r rest]; [cbn in Hpos; lia|].
    destruct (remove_dups (map rd_chat_id (r :: rest))) eqn:E.
    + exfalso. apply Hne; [discriminate|reflexivity].
    + cbn. lia.
Qed.

Lemma daily_summary_consistent_witness :
  Analytics.ds_date
    (fst (Analytics.get_daily_summary sample_history 2000 None
            Analytics.healthy 0)) = epoch_day 2000
  /\ (Analytics.ds_total_reactions
        (fst (Analytics.get_daily_summary sample_history 2000 None
                Analytics.healthy 0))
      + Analytics.ds_errors
          (fst (Analytics.get_daily_summary sample_history 2000 None
                  Analytics.healthy 0))
      <= Analytics.ds_total_attempts
           (fst (Analytics.get_daily_summary sample_history 2000 None
                   Analytics.healthy 0)))%nat.
Proof.
  pose proof (daily_summary_consistent sample_history 2000 None
                Analytics.healthy 0 (fun j _ => eq_refl)) as H.
  cbv zeta in H. destruct H as (H1 & H2 & _).
  split; [exact H1|exact H2].
Defined.

Example daily_summary_of_sample_history :
  fst (Analytics.get_daily_summary sample_history 2000 None
         Analytics.healthy 0)
  = Analytics.mkDailySummary 0 100 105 5 (9524 # 100) 1.
Proof. vm_compute. reflexivity. Qed.

(** ** websocket.py: snapshots, connections and the loop *)

(** X18: with the database down, a snapshot is still produced: when every
    read fails, [_get_current_stats] returns all counts and rates at zero
    and empty collections, with the bot's uptime and the time as usual,
    each of the seven queries having fallen back on its own. *)
Theorem snapshot_survives_outage (e : Websocket.TickEnv) :
  (forall k, Websocket.tk_outage e k = true) ->
  Websocket.get_current_stats e = (zero_snapshot e, Websocket.snapshot_queries).
Proof.
  intros Hdown.
  cbv [Websocket.get_current_stats Analytics.get_total_reactions
       Analytics.get_reactions_per_second Analytics.get_active_chats
       Analytics.get_flood_waits Analytics.get_error_rate
       Analytics.get_emoji_usage Analytics.get_hourly_stats
       Analytics.try_except Analytics.bind Analytics.count_documents
       Analytics.aggregate_top Analytics.read Analytics.ret].
  rewrite !Hdown. reflexivity.
Qed.

Lemma snapshot_survives_outage_witness :
  Websocket.get_current_stats
    (Websocket.mkTickEnv false sample_history 2000 (fun _ => true)
       (fun _ => false) true 42)
  = (Websocket.mkSnapshot 0 0 0 42 0 0 [] [] 2000, Websocket.snapshot_queries).
Proof.
  apply (snapshot_survives_outage
           (Websocket.mkTickEnv false sample_history 2000 (fun _ => true)
              (fun _ => false) true 42)).
  intros k. reflexivity.
Defined.

Section ConnectionFacts.

Import Websocket.

Variable e : TickEnv.

Lemma sends_of_pushes (message : WsMessage) (l : list nat) :
  sends_of (map (fun c => SendJson c message (negb (tk_send_fails e c))) l)
  = map (fun c => (c, negb (tk_send_fails e c))) l.
Proof.
  induction l as [|c l IH]; [reflexivity|].
  cbn [map]. unfold sends_of in *. cbn. rewrite IH. reflexivity.
Qed.

End ConnectionFacts.

(** X19: a broadcast cleans up after itself: whatever the message, the
    sends it marks as failed are exactly those to the connections it
    removes, every connection it keeps received the message, and a second
    broadcast right after it fails nowhere and leaves the set unchanged. *)
Theorem broadcast_cleans_up (e : Websocket.TickEnv)
    (message again : Websocket.WsMessage) (m : Websocket.Manager) :
  let first := Websocket.broadcast e message m in
  let second := Websocket.broadcast e again (fst first) in
  (forall c ok, (c, ok) ∈ sends_of (snd first) ->
     c ∈ Websocket.active_connections m
     /\ (ok = false <-> c ∉ Websocket.active_connections (fst first)))
  /\ (forall c, c ∈ Websocket.active_connections (fst first) ->
        (c, true) ∈ sends_of (snd first))
  /\ Websocket.active_connections (fst second)
     = Websocket.active_connections (fst first)
  /\ (forall c ok, (c, ok) ∈ sends_of (snd second) -> ok = true).
Proof.
  intros first second. subst first second.
  destruct (broadcast_spec e message m) as [Ht Hd].
  destruct (broadcast_spec e again (fst (Websocket.broadcast e message m)))
    as [Ht2 Hd2].
  split; [|split; [|split]].
  - intros c ok Hin. rewrite Ht, sends_of_pushes in Hin.
    apply list_elem_of_In, in_map_iff in Hin as (c' & Heq & Hc').
    injection Heq as -> <-.
    apply list_elem_of_In, elem_of_elements in Hc'.
    split; [exact Hc'|]. rewrite Hd.
    destruct (Websocket.tk_send_fails e c); cbn [negb]; split.
    + intros _ [_ Hf]. discriminate Hf.
    + reflexivity.
    + intros Hf. discriminate Hf.
    + intros Hn. exfalso. apply Hn. split; [exact Hc'|reflexivity].
  - intros c Hc. apply Hd in Hc as [Hin Hf].
    rewrite Ht, sends_of_pushes.
    apply list_elem_of_In, in_map_iff. exists c. rewrite Hf. split; [reflexivity|].
    apply list_elem_of_In, elem_of_elements, Hin.
  - apply set_eq. intros c. rewrite Hd2, Hd. tauto.
  - intros c ok Hin. rewrite Ht2, sends_of_pushes in Hin.
    apply list_elem_of_In, in_map_iff in Hin as (c' & Heq & Hc').
    injection Heq as -> <-.
    apply list_elem_of_In, elem_of_elements, Hd in Hc' as [_ Hf].
    rewrite Hf. reflexivity.
Qed.

Lemma current_stats_calls (e : Websocket.TickEnv) :
  Websocket.get_current_stats e
  = (fst (Websocket.get_current_stats e), Websocket.snapshot_queries).
Proof.
  unfold Websocket.get_current_stats.
  repeat (match goal with
          | |- context [let '(_, _) := ?x in _] => destruct x
          end).
  reflexivity.
Qed.


Lemma elem_of_connect (e : Websocket.TickEnv) (c c' : nat)
    (m : Websocket.Manager) :
  c' ∈ Websocket.active_connections (fst (Websocket.connect e c m))
  <-> c' = c \/ c' ∈ Websocket.active_connections m.
Proof.
  cbn. rewrite elem_of_union, elem_of_singleton. reflexivity.
Qed.

Lemma elem_of_disconnect (c c' : nat) (m : Websocket.Manager) :
  c' ∈ Websocket.active_connections (Websocket.disconnect c m)
  <-> c' ∈ Websocket.active_connections m /\ c' <> c.
Proof.
  cbn. rewrite elem_of_difference, elem_of_singleton. reflexivity.
Qed.

Lemma manager_eq (m m' : Websocket.Manager) :
  (forall c, c ∈ Websocket.active_connections m
             <-> c ∈ Websocket.active_connections m') ->
  m = m'.
Proof.
  destruct m as [s], m' as [s']. cbn. intros H. f_equal.
  apply set_eq, H.
Qed.


(** X21: [disconnect] is a discard: it removes the connection and nothing
    else, it leaves the registry as it is when the connection is not
    registered, so it can be repeated, and it undoes the registration made
    by [connect] for a connection that was not registered before. *)
Theorem disconnect_undoes_connect (e : Websocket.TickEnv) (c : nat)
    (m : Websocket.Manager) :
  c ∉ Websocket.active_connections m ->
  Websocket.disconnect c (fst (Websocket.connect e c m)) = m
  /\ Websocket.disconnect c m = m
  /\ (forall m', Websocket.disconnect c (Websocket.disconnect c m')
                 = Websocket.disconnect c m')
  /\ (forall m' c', c' ∈ Websocket.active_connections
                            (Websocket.disconnect c m')
                    <-> c' ∈ Websocket.active_connections m' /\ c' <> c).
Proof.
  intros Hout. split; [|split; [|split]].
  - apply manager_eq. intros c'.
    rewrite elem_of_disconnect, elem_of_connect. split.
    + intros [[->|Hin] Hne]; [congruence|exact Hin].
    + intros Hin. split; [right; exact Hin|].
      intros ->. exact (Hout Hin).
  - apply manager_eq. intros c'. rewrite elem_of_disconnect. split.
    + intros [Hin _]. exact Hin.
    + intros Hin. split; [exact Hin|]. intros ->. exact (Hout Hin).
  - intros m'. apply manager_eq. intros c'.
    rewrite !elem_of_disconnect. tauto.
  - intros m' c'. apply elem_of_disconnect.
Qed.

Lemma disconnect_undoes_connect_witness :
  Websocket.disconnect 7 (fst (Websocket.connect sample_tick 7 sample_manager))
  = sample_manager.
Proof.
  apply (disconnect_undoes_connect sample_tick 7 sample_manager).
  vm_compute. intros H. discriminate H.
Defined.

Lemma elem_of_discards (l : list nat) (m : Websocket.Manager) (c : nat) :
  c ∈ Websocket.active_connections (foldr Websocket.disconnect m l)
  <-> c ∈ Websocket.active_connections m /\ c ∉ l.
Proof.
  induction l as [|x l IH].
  - cbn. split; [intros H; split; [exact H|apply not_elem_of_nil]|tauto].
  - cbn [foldr]. rewrite elem_of_disconnect, IH, not_elem_of_cons. tauto.
Qed.

(** X22: the clean-up of a broadcast is the source's second loop: the
    registry it leaves is the one obtained by calling [disconnect] on each
    registered connection whose send raised, and on no other. *)
Theorem broadcast_disconnects_failures (e : Websocket.TickEnv)
    (message : Websocket.WsMessage) (m : Websocket.Manager) :
  fst (Websocket.broadcast e message m)
  = foldr Websocket.disconnect m (failing e m).
Proof.
  destruct (broadcast_spec e message m) as [_ Hd].
  apply manager_eq. intros c. rewrite Hd, elem_of_discards.
  unfold failing. split.
  - intros [Hin Hf]. split; [exact Hin|].
    intros Hc. apply list_elem_of_In, filter_In in Hc as [_ Hc]. congruence.
  - intros [Hin Hn]. split; [exact Hin|].
    destruct (Websocket.tk_send_fails e c) eqn:Hf; [|reflexivity].
    exfalso. apply Hn, list_elem_of_In, filter_In.
    split; [|exact Hf]. apply list_elem_of_In, elem_of_elements, Hin.
Qed.

(** X23: cancellation ends the loop at once: the tick during whose sleep
    the task is cancelled contributes no sleep, no query and no send, and
    no later tick is run, so the loop does what it did on the ticks before
    the cancellation. *)
Theorem cancellation_ends_loop (pre post : list Websocket.TickEnv)
    (e : Websocket.TickEnv) (m : Websocket.Manager) :
  Websocket.tk_cancelled e = true ->
  Websocket.broadcast_stats_loop (pre ++ e :: post) m
  = Websocket.broadcast_stats_loop pre m.
Proof.
  intros Hc. revert m. induction pre as [|x pre IH]; intros m.
  - cbn [app Websocket.broadcast_stats_loop].
    unfold Websocket.broadcast_stats_iteration. rewrite Hc. reflexivity.
  - cbn [app Websocket.broadcast_stats_loop].
    destruct (Websocket.broadcast_stats_iteration x m) as [[ctl m'] trace].
    destruct ctl; [|reflexivity].
    rewrite IH. reflexivity.
Qed.

Lemma cancellation_ends_loop_witness :
  Websocket.broadcast_stats_loop
    ([sample_tick]
     ++ Websocket.mkTickEnv true sample_history 2005 Analytics.healthy
          (fun _ => false) true 47
     :: [sample_tick; sample_tick]) sample_manager
  = Websocket.broadcast_stats_loop [sample_tick] sample_manager.
Proof.
  apply (cancellation_ends_loop [sample_tick] [sample_tick; sample_tick]
           (Websocket.mkTickEnv true sample_history 2005 Analytics.healthy
              (fun _ => false) true 47) sample_manager).
  reflexivity.
Defined.

Lemma sends_of_app (a b : list Websocket.Event) :
  sends_of (a ++ b) = sends_of a ++ sends_of b.
Proof. unfold sends_of. apply omap_app. Qed.

Lemma sends_of_calls (qs : list Analytics.Query) :
  sends_of (map Websocket.AggregatorCall qs) = [].
Proof. induction qs as [|q qs IH]; [reflexivity|exact IH]. Qed.

(** What one iteration whose sleep completes does, by cases on the
    registry. *)
Lemma iteration_idle (e : Websocket.TickEnv) (m : Websocket.Manager) :
  Websocket.tk_cancelled e = false ->
  Websocket.active_connections m = ∅ ->
  Websocket.broadcast_stats_iteration e m
  = (Websocket.Continue, m, [Websocket.Slept 5]).
Proof.
  intros Hc He. unfold Websocket.broadcast_stats_iteration.
  rewrite Hc, decide_True by exact He. reflexivity.
Qed.

Lemma iteration_live (e : Websocket.TickEnv) (m : Websocket.Manager) :
  Websocket.tk_cancelled e = false ->
  Websocket.active_connections m <> ∅ ->
  Websocket.broadcast_stats_iteration e m
  = (Websocket.Continue,
     fst (Websocket.broadcast e (stats_update e) m),
     [Websocket.Slept 5]
     ++ map Websocket.AggregatorCall Websocket.snapshot_queries
     ++ snd (Websocket.broadcast e (stats_update e) m)).
Proof.
  intros Hc Hne. unfold Websocket.broadcast_stats_iteration.
  rewrite Hc, decide_False by exact Hne.
  rewrite (current_stats_calls e). cbn [fst]. fold (stats_update e).
  destruct (Websocket.broadcast e (stats_update e) m) as [m1 sends].
  reflexivity.
Qed.

Lemma iteration_drops_only_failed (e : Websocket.TickEnv)
    (m : Websocket.Manager) :
  drops_only_failed m
    (snd (fst (Websocket.broadcast_stats_iteration e m)))
    (snd (Websocket.broadcast_stats_iteration e m)).
Proof.
  destruct (Websocket.tk_cancelled e) eqn:Hc.
  - unfold Websocket.broadcast_stats_iteration. rewrite Hc. cbn [fst snd].
    repeat split.
    + intros c H. exact H.
    + intros c ok H. inversion H.
    + intros c Hin Hout. destruct (Hout Hin).
  - destruct (decide (Websocket.active_connections m = ∅)) as [He|Hne].
    + rewrite (iteration_idle e m Hc He). cbn [fst snd]. repeat split.
      * intros c H. exact H.
      * intros c ok H. inversion H.
      * intros c Hin Hout. destruct (Hout Hin).
    + rewrite (iteration_live e m Hc Hne). cbn [fst snd].
      destruct (broadcast_spec e (stats_update e) m) as [Ht Hd].
      assert (Hs : sends_of
                     ([Websocket.Slept 5]
                      ++ map Websocket.AggregatorCall Websocket.snapshot_queries
                      ++ snd (Websocket.broadcast e (stats_update e) m))
                   = map (fun c => (c, negb (Websocket.tk_send_fails e c)))
                       (elements (Websocket.active_connections m))).
      { rewrite !sends_of_app, sends_of_calls, Ht, sends_of_pushes.
        reflexivity. }
      unfold drops_only_failed. rewrite Hs. repeat split.
      * intros c H. apply Hd in H as [H _]. exact H.
      * intros c ok H.
        apply list_elem_of_In, in_map_iff in H as (c' & Heq & Hc').
        injection Heq as -> _.
        apply list_elem_of_In, elem_of_elements in Hc'. exact Hc'.
      * intros c Hin Hout.
        apply list_elem_of_In, in_map_iff. exists c. split.
        -- destruct (Websocket.tk_send_fails e c) eqn:Hf; [reflexivity|].
           exfalso. apply Hout, Hd. split; [exact Hin|exact Hf].
        -- apply list_elem_of_In, elem_of_elements, Hin.
Qed.

(** X24: the loop never adds a connection and drops one only after a send
    to it raised: over any ticks, every connection registered at the end
    was registered at the start, every send goes to a connection that was
    registered at the start, and a connection that is gone at the end has a
    failed send in the trace. *)
Theorem loop_drops_only_failed (ticks : list Websocket.TickEnv)
    (m : Websocket.Manager) :
  let result := Websocket.broadcast_stats_loop ticks m in
  (forall c, c ∈ Websocket.active_connections (fst result)
             -> c ∈ Websocket.active_connections m)
  /\ (forall c ok, (c, ok) ∈ sends_of (snd result)
                   -> c ∈ Websocket.active_connections m)
  /\ (forall c, c ∈ Websocket.active_connections m
                -> c ∉ Websocket.active_connections (fst result)
                -> (c, false) ∈ sends_of (snd result)).
Proof.
  cbv zeta. revert m. induction ticks as [|e ticks IH]; intros m.
  - cbn. repeat split.
    + intros c H. exact H.
    + intros c ok H. inversion H.
    + intros c Hin Hout. destruct (Hout Hin).
  - cbn [Websocket.broadcast_stats_loop].
    pose proof (iteration_drops_only_failed e m) as (Hsub & Hto & Hgone).
    destruct (Websocket.broadcast_stats_iteration e m) as [[ctl m'] trace].
    cbn [fst snd] in Hsub, Hto, Hgone.
    destruct ctl.
    + destruct (IH m') as (Hsub' & Hto' & Hgone').
      destruct (Websocket.broadcast_stats_loop ticks m') as [m'' trace'].
      cbn [fst snd] in *. repeat split.
      * intros c H. apply Hsub, Hsub', H.
      * intros c ok H. rewrite sends_of_app in H.
        apply elem_of_app in H as [H|H].
        -- exact (Hto c ok H).
        -- apply Hsub. exact (Hto' c ok H).
      * intros c Hin Hout. rewrite sends_of_app. apply elem_of_app.
        destruct (decide (c ∈ Websocket.active_connections m')) as [Hm|Hm].
        -- right. exact (Hgone' c Hm Hout).
        -- left. exact (Hgone c Hin Hm).
    + cbn [fst snd]. repeat split; assumption.
Qed.

(** X25: with nobody connected the loop only sleeps: over any ticks it asks
    the aggregator nothing, sends nothing and leaves the registry empty,
    sleeping five seconds once per tick until the task is cancelled. *)
Theorem idle_loop_only_sleeps (ticks : list Websocket.TickEnv)
    (m : Websocket.Manager) :
  Websocket.active_connections m = ∅ ->
  let result := Websocket.broadcast_stats_loop ticks m in
  fst result = m
  /\ only_sleeps (snd result)
  /\ Websocket.aggregator_calls (snd result) = []
  /\ sends_of (snd result) = []
  /\ (length (snd result) <= length ticks)%nat
  /\ (uncancelled ticks -> length (snd result) = length ticks).
Proof.
  intros He. cbv zeta. induction ticks as [|e ticks IH].
  - cbn. repeat split; try reflexivity; try constructor.
  - cbn [Websocket.broadcast_stats_loop].
    destruct (Websocket.tk_cancelled e) eqn:Hc.
    + unfold Websocket.broadcast_stats_iteration. rewrite Hc. cbn.
      repeat split; try reflexivity; try constructor; try lia.
      intros Hu. apply Forall_cons in Hu as [Hu _]. congruence.
    + rewrite (iteration_idle e m Hc He).
      destruct IH as (Hm & Hs & Ha & Hn & Hl & Hu).
      destruct (Websocket.broadcast_stats_loop ticks m) as [m' trace].
      cbn [fst snd] in *. repeat split.
      * exact Hm.
      * apply Forall_cons. split; [reflexivity|exact Hs].
      * exact Ha.
      * exact Hn.
      * cbn. lia.
      * intros Hall. apply Forall_cons in Hall as [_ Hall].
        cbn. rewrite (Hu Hall). reflexivity.
Qed.

Lemma idle_loop_only_sleeps_witness :
  snd (Websocket.broadcast_stats_loop [sample_tick; sample_tick; sample_tick]
         (Websocket.mkManager ∅))
  = [Websocket.Slept 5; Websocket.Slept 5; Websocket.Slept 5].
Proof.
  pose proof (idle_loop_only_sleeps [sample_tick; sample_tick; sample_tick]
                (Websocket.mkManager ∅) eq_refl) as H.
  cbv zeta in H. destruct H as (_ & Hs & _ & _ & _ & Hl).
  assert (Hu : uncancelled [sample_tick; sample_tick; sample_tick])
    by (repeat constructor).
  specialize (Hl Hu).
  destruct (snd (Websocket.broadcast_stats_loop
                   [sample_tick; sample_tick; sample_tick]
                   (Websocket.mkManager ∅))) as [|a [|b [|c [|d l]]]];
    try discriminate Hl.
  apply Forall_cons in Hs as [-> Hs].
  apply Forall_cons in Hs as [-> Hs].
  apply Forall_cons in Hs as [-> _].
  reflexivity.
Defined.

(** ** utils.py: input sanitising and durations *)

Lemma lstrip_spec (t : Utils.text) :
  exists pre, t = pre ++ Utils.lstrip t
              /\ forallb Utils.is_space pre = true.
Proof.
  induction t as [|c t (pre & Heq & Hsp)].
  - exists []. split; reflexivity.
  - cbn [Utils.lstrip]. destruct (Utils.is_space c) eqn:Hc.
    + exists (c :: pre). cbn. rewrite Hc, Hsp. rewrite <- Heq.
      split; reflexivity.
    + exists []. split; reflexivity.
Qed.

Lemma strip_spec (t : Utils.text) :
  exists pre post, t = pre ++ Utils.strip t ++ post
                   /\ forallb Utils.is_space pre = true
                   /\ forallb Utils.is_space post = true.
Proof.
  destruct (lstrip_spec t) as (pre & Heq & Hpre).
  destruct (lstrip_spec (rev (Utils.lstrip t))) as (post & Heq' & Hpost).
  exists pre, (rev post). unfold Utils.strip. split; [|split].
  - rewrite <- rev_app_distr, <- Heq', rev_involutive. exact Heq.
  - exact Hpre.
  - rewrite forallb_forall in *. intros x Hx. apply Hpost.
    apply in_rev. exact Hx.
Qed.

Lemma replace_all_filter (l : list N) (t : Utils.text) :
  foldl (fun t char => Utils.replace_with_empty char t) t l
  = List.filter (fun c => forallb (fun char => negb (c =? char)%N) l) t.
Proof.
  revert t. induction l as [|char l IH]; intros t.
  - cbn. induction t as [|x t IHt]; [reflexivity|].
    cbn. f_equal. exact IHt.
  - cbn [foldl]. rewrite IH. unfold Utils.replace_with_empty.
    induction t as [|x t IHt]; [reflexivity|].
    cbn [List.filter forallb].
    destruct (negb (x =? char)%N); cbn [andb List.filter].
    + destruct (forallb _ l); [f_equal|]; exact IHt.
    + exact IHt.
Qed.

Lemma sanitize_input_filter (t : Utils.text) (max_length : Z) :
  Utils.sanitize_input t max_length
  = List.filter harmless (Utils.slice_to max_length (Utils.strip t)).
Proof.
  unfold Utils.sanitize_input. destruct t as [|c t].
  - unfold Utils.slice_to. cbn. destruct (0 <=? max_length)%Z;
      rewrite take_nil; reflexivity.
  - apply replace_all_filter.
Qed.

Lemma filter_sublist {A} (f : A -> bool) (l : list A) :
  List.filter f l `sublist_of` l.
Proof.
  induction l as [|x l IH]; [constructor|].
  cbn. destruct (f x); [apply sublist_skip|apply sublist_cons]; exact IH.
Qed.

Lemma slice_to_sublist (stop : Z) (t : Utils.text) :
  Utils.slice_to stop t `sublist_of` t.
Proof.
  unfold Utils.slice_to. destruct (0 <=? stop)%Z; apply sublist_take.
Qed.

Lemma strip_sublist (t : Utils.text) : Utils.strip t `sublist_of` t.
Proof.
  destruct (strip_spec t) as (pre & post & Heq & _).
  rewrite Heq at 2. apply sublist_inserts_l, sublist_inserts_r. reflexivity.
Qed.

(** X26: what [sanitize_input] returns is safe and is part of the input:
    the result contains none of the ten dangerous characters; it is the
    input stripped of surrounding whitespace and cut, with exactly the
    dangerous characters taken out, so its characters are characters of the
    input in their order; for a non-negative [max_length] it is at most that
    long; and the empty text gives the empty text. *)
Theorem sanitize_input_safe (t : Utils.text) (max_length : Z) :
  let out := Utils.sanitize_input t max_length in
  (forall c, c ∈ Utils.dangerous_chars -> c ∉ out)
  /\ out = List.filter harmless (Utils.slice_to max_length (Utils.strip t))
  /\ out `sublist_of` t
  /\ ((0 <= max_length)%Z -> (Z.of_nat (length out) <= max_length)%Z)
  /\ Utils.sanitize_input [] max_length = [].
Proof.
  cbv zeta. rewrite sanitize_input_filter. split; [|split; [|split; [|split]]].
  - intros c Hd Hin.
    apply list_elem_of_In, filter_In in Hin as [_ Hh].
    unfold harmless in Hh. rewrite forallb_forall in Hh.
    apply list_elem_of_In in Hd. specialize (Hh c Hd).
    rewrite N.eqb_refl in Hh. discriminate Hh.
  - reflexivity.
  - etransitivity; [apply filter_sublist|].
    etransitivity; [apply slice_to_sublist|apply strip_sublist].
  - intros Hpos.
    pose proof (sublist_length _ _
                  (filter_sublist harmless
                     (Utils.slice_to max_length (Utils.strip t)))) as Hl.
    unfold Utils.slice_to in *.
    destruct (0 <=? max_length)%Z eqn:Hle; [|lia].
    rewrite length_take in Hl. lia.
  - reflexivity.
Qed.

(** Sanitising twice is not sanitising once: taking a dangerous character
    out can bring whitespace to the front. *)
Example sanitize_input_not_idempotent :
  Utils.sanitize_input [60; 32; 97]%N 500 = [32; 97]%N
  /\ Utils.sanitize_input [32; 97]%N 500 = [97]%N.
Proof. split; reflexivity. Qed.

(** A negative [max_length] cuts from the end. *)
Example sanitize_input_negative_length :
  Utils.sanitize_input [97; 98; 99; 100]%N (-1) = [97; 98; 99]%N.
Proof. reflexivity. Qed.

Lemma chars_append (a b : string) :
  list_ascii_of_string (a +:+ b)
  = list_ascii_of_string a ++ list_ascii_of_string b.
Proof.
  induction a as [|c a IH]; [reflexivity|].
  change (String c a +:+ b) with (String c (a +:+ b)).
  cbn [list_ascii_of_string]. rewrite IH. reflexivity.
Qed.

Lemma chars_inj (a b : string) :
  list_ascii_of_string a = list_ascii_of_string b -> a = b.
Proof.
  intros H. rewrite <- (string_of_list_ascii_of_string a),
              <- (string_of_list_ascii_of_string b), H. reflexivity.
Qed.

Lemma pretty_N_char_numeric (x : N) : numeric (pretty_N_char x) = true.
Proof. unfold pretty_N_char. repeat case_match; reflexivity. Qed.

Lemma pretty_N_go_numeric (x : N) :
  forall s, forallb numeric (list_ascii_of_string s) = true ->
            forallb numeric (list_ascii_of_string (pretty_N_go x s)) = true.
Proof.
  induction (N.lt_wf_0 x) as [x _ IH]; intros s Hs.
  assert (x = 0 \/ 0 < x)%N as [->|Hpos] by lia.
  - rewrite pretty_N_go_0. exact Hs.
  - rewrite pretty_N_go_step by exact Hpos. apply IH.
    + apply N.div_lt; [exact Hpos|reflexivity].
    + cbn [list_ascii_of_string forallb].
      rewrite pretty_N_char_numeric, Hs. reflexivity.
Qed.

Lemma pretty_N_numeric (x : N) :
  forallb numeric (list_ascii_of_string (pretty x)) = true.
Proof.
  unfold pretty, pretty_N. destruct (decide (x = 0%N)); [reflexivity|].
  apply pretty_N_go_numeric. reflexivity.
Qed.

Lemma pretty_Z_numeric (z : Z) :
  forallb numeric (list_ascii_of_string (pretty z)) = true.
Proof.
  destruct z as [|p|p].
  - reflexivity.
  - apply (pretty_N_numeric (N.pos p)).
  - change (pretty (Z.neg p)) with ("-" +:+ pretty (N.pos p)).
    rewrite chars_append, forallb_app, (pretty_N_numeric (N.pos p)).
    reflexivity.
Qed.

(** Two texts that agree up to a separator which occurs in neither head
    agree on both sides of it. *)
Lemma split_at_separator (x : ascii) (a b r r' : list ascii) :
  numeric x = false ->
  forallb numeric a = true -> forallb numeric b = true ->
  a ++ x :: r = b ++ x :: r' -> a = b /\ r = r'.
Proof.
  intros Hx. revert b. induction a as [|c a IH]; intros [|d b] Ha Hb Heq.
  - injection Heq as ->. split; reflexivity.
  - cbn in Heq, Hb. injection Heq as <- _.
    rewrite Hx in Hb. discriminate Hb.
  - cbn in Heq, Ha. injection Heq as -> _.
    rewrite Hx in Ha. discriminate Ha.
  - cbn in Heq, Ha, Hb. injection Heq as -> Heq.
    apply andb_prop in Ha as [_ Ha]. apply andb_prop in Hb as [_ Hb].
    destruct (IH b Ha Hb Heq) as [-> ->]. split; reflexivity.
Qed.

(** A rendering made of two integers and two separators determines both
    integers. *)
Lemma two_fields_inj (x y : ascii) (mid tail : list ascii) (a b a' b' : Z) :
  numeric x = false -> numeric y = false ->
  list_ascii_of_string (pretty a) ++ x :: mid
    ++ list_ascii_of_string (pretty b) ++ y :: tail
  = list_ascii_of_string (pretty a') ++ x :: mid
    ++ list_ascii_of_string (pretty b') ++ y :: tail ->
  a = a' /\ b = b'.
Proof.
  intros Hx Hy Heq.
  apply (split_at_separator x) in Heq as [Ha Hrest];
    [|exact Hx|apply pretty_Z_numeric..].
  apply chars_inj, (inj pretty) in Ha.
  apply app_inv_head in Hrest.
  apply (split_at_separator y) in Hrest as [Hb _];
    [|exact Hy|apply pretty_Z_numeric..].
  apply chars_inj, (inj pretty) in Hb.
  split; assumption.
Qed.

Lemma one_field_inj (x : ascii) (tail : list ascii) (a a' : Z) :
  numeric x = false ->
  list_ascii_of_string (pretty a) ++ x :: tail
  = list_ascii_of_string (pretty a') ++ x :: tail ->
  a = a'.
Proof.
  intros Hx Heq.
  apply (split_at_separator x) in Heq as [Ha _];
    [|exact Hx|apply pretty_Z_numeric..].
  apply chars_inj, (inj pretty) in Ha. exact Ha.
Qed.

(** The first separator of a rendering tells the branch that made it. *)
Lemma separators_differ (x y : ascii) (a b : Z) (r r' : list ascii) :
  numeric x = false -> numeric y = false -> x <> y ->
  list_ascii_of_string (pretty a) ++ x :: r
  <> list_ascii_of_string (pretty b) ++ y :: r'.
Proof.
  intros Hx Hy Hne.
  pose proof (pretty_Z_numeric a) as Ha.
  pose proof (pretty_Z_numeric b) as Hb.
  revert Ha Hb.
  generalize (list_ascii_of_string (pretty a)) as u.
  generalize (list_ascii_of_string (pretty b)) as v.
  intros v u. revert v. induction u as [|c u IH]; intros [|d v] Ha Hb Heq.
  - injection Heq as Heq _. exact (Hne Heq).
  - cbn in Heq, Hb. injection Heq as <- _. rewrite Hx in Hb. discriminate Hb.
  - cbn in Heq, Ha. injection Heq as -> _. rewrite Hy in Ha. discriminate Ha.
  - cbn in Heq, Ha, Hb. injection Heq as _ Heq.
    apply andb_prop in Ha as [_ Ha]. apply andb_prop in Hb as [_ Hb].
    exact (IH v Ha Hb Heq).
Qed.

Lemma format_duration_chars (seconds : Z) :
  list_ascii_of_string (Utils.format_duration seconds)
  = if (seconds <? 60)%Z then
      list_ascii_of_string (pretty seconds) ++ ["s"%char]
    else if (seconds <? 3600)%Z then
      list_ascii_of_string (pretty (seconds / 60)%Z) ++ "m"%char :: [" "%char]
      ++ list_ascii_of_string (pretty (seconds mod 60)%Z) ++ ["s"%char]
    else
      list_ascii_of_string (pretty (seconds / 3600)%Z) ++ "h"%char :: [" "%char]
      ++ list_ascii_of_string (pretty ((seconds mod 3600) / 60)%Z)
      ++ ["m"%char].
Proof.
  unfold Utils.format_duration.
  destruct (seconds <? 60)%Z; [|destruct (seconds <? 3600)%Z];
    rewrite ?chars_append; reflexivity.
Qed.

(** X27: what a rendered duration tells: two durations are rendered alike
    exactly when they are equal or are both of an hour or more and in the
    same minute, so below one hour (negative values included) the rendering
    is exact, and from one hour on it drops the seconds and nothing else. *)
Theorem format_duration_resolution (s s' : Z) :
  Utils.format_duration s = Utils.format_duration s'
  <-> s = s' \/ ((3600 <= s)%Z /\ (3600 <= s')%Z /\ (s / 60 = s' / 60)%Z).
Proof.
  split.
  - intros Heq. apply (f_equal list_ascii_of_string) in Heq.
    rewrite !format_duration_chars in Heq.
    destruct (s <? 60)%Z eqn:H1; [|destruct (s <? 3600)%Z eqn:H2];
      (destruct (s' <? 60)%Z eqn:H1'; [|destruct (s' <? 3600)%Z eqn:H2']).
    + left. apply (one_field_inj "s" []) in Heq; [exact Heq|reflexivity].
    + exfalso. revert Heq.
      apply separators_differ; [reflexivity|reflexivity|discriminate].
    + exfalso. revert Heq.
      apply separators_differ; [reflexivity|reflexivity|discriminate].
    + exfalso. revert Heq.
      apply separators_differ; [reflexivity|reflexivity|discriminate].
    + left. apply (two_fields_inj "m" "s" [" "%char] []) in Heq as [Hq Hr];
        [|reflexivity|reflexivity].
      rewrite (Z.div_mod s 60), (Z.div_mod s' 60), Hq, Hr by lia.
      reflexivity.
    + exfalso. revert Heq.
      apply separators_differ; [reflexivity|reflexivity|discriminate].
    + exfalso. revert Heq.
      apply separators_differ; [reflexivity|reflexivity|discriminate].
    + exfalso. revert Heq.
      apply separators_differ; [reflexivity|reflexivity|discriminate].
    + right. apply (two_fields_inj "h" "m" [" "%char] []) in Heq as [Hq Hr];
        [|reflexivity|reflexivity].
      split; [lia|]. split; [lia|].
      pose proof (Z.div_mod s 3600) as Hs.
      pose proof (Z.div_mod s' 3600) as Hs'.
      pose proof (Z.mod_pos_bound s 3600) as Hb.
      pose proof (Z.mod_pos_bound s' 3600) as Hb'.
      assert (Hd : forall z, (z / 60 = 60 * (z / 3600) + (z mod 3600) / 60)%Z).
      { intros z.
        rewrite (Z.div_mod z 3600) at 1 by lia.
        replace (3600 * (z / 3600) + z mod 3600)%Z
          with ((z mod 3600) + (60 * (z / 3600)) * 60)%Z by lia.
        rewrite Z.div_add by lia. lia. }
      rewrite (Hd s), (Hd s'), Hq, Hr. reflexivity.
  - intros [->|(Hs & Hs' & Hm)]; [reflexivity|].
    unfold Utils.format_duration.
    assert (H1 : (s <? 60)%Z = false) by lia.
    assert (H2 : (s <? 3600)%Z = false) by lia.
    assert (H1' : (s' <? 60)%Z = false) by lia.
    assert (H2' : (s' <? 3600)%Z = false) by lia.
    rewrite H1, H2, H1', H2'.
    assert (Hh : forall z, (z / 3600 = (z / 60) / 60)%Z).
    { intros z. rewrite Z.div_div by lia. reflexivity. }
    assert (Hmin : forall z, ((z mod 3600) / 60 = (z / 60) mod 60)%Z).
    { intros z.
      change 3600%Z with (60 * 60)%Z.
      rewrite Z.rem_mul_r by lia.
      replace (z mod 60 + 60 * ((z / 60) mod 60))%Z
        with (z mod 60 + ((z / 60) mod 60) * 60)%Z by lia.
      rewrite Z.div_add by lia.
      rewrite (Z.div_small (z mod 60) 60)
        by (apply Z.mod_pos_bound; lia).
      lia. }
    rewrite (Hh s), (Hh s'), (Hmin s), (Hmin s'), Hm. reflexivity.
Qed.

Example format_duration_samples :
  Utils.format_duration 59 = "59s"
  /\ Utils.format_duration 60 = "1m 0s"
  /\ Utils.format_duration 3599 = "59m 59s"
  /\ Utils.format_duration 3661 = "1h 1m"
  /\ Utils.format_duration (-5) = "-5s".
Proof. repeat split; vm_compute; reflexivity. Qed.

(** ** auth.py: the request limiter *)

Lemma since_later (w0 w : Q) (l : list Q) :
  (w0 <= w)%Q ->
  List.filter (Qle_bool w) (List.filter (Qle_bool w0) l)
  = List.filter (Qle_bool w) l.
Proof.
  intros Hw. induction l as [|x l IH]; [reflexivity|].
  cbn [List.filter].
  destruct (Qle_bool w0 x) eqn:H0, (Qle_bool w x) eqn:H1;
    cbn [List.filter]; rewrite ?H1, ?IH; try reflexivity.
  exfalso. apply Qle_bool_iff in H1.
  assert (H : Qle_bool w0 x = true)
    by (apply Qle_bool_iff; apply (Qle_trans _ w); assumption).
  congruence.
Qed.

Lemma allowed_times_cons (t : Q) (v : Auth.Verdict)
    (log : list (Q * Auth.Verdict)) :
  allowed_times ((t, v) :: log)
  = (if is_allowed v then [t] else []) ++ allowed_times log.
Proof. unfold allowed_times. cbn. destruct (is_allowed v); reflexivity. Qed.

Section Limiter.

Variables (client_ip limit_type : string) (limit window : Z).
Hypothesis window_nonneg : (0 <= window)%Z.

Local Abbreviation key := (limit_type +:+ ":" +:+ client_ip).
Local Abbreviation span := (inject_Z window).

Lemma span_nonneg : (0 <= span)%Q.
Proof using window_nonneg.
  change 0%Q with (inject_Z 0). rewrite <- Zle_Qle. exact window_nonneg. Qed.

(** The [delete_many] and the [count_documents] of one call, on the
    timestamps stored under the key. *)
Lemma prune_spec (start : Q) (l : list Auth.RateLimitDoc) :
  let pruned :=
    List.filter (fun r => negb (Auth.key_is key r && Auth.timestamp_lt start r))
                l in
  key_times key pruned = List.filter (Qle_bool start) (key_times key l)
  /\ other_keys key pruned = other_keys key l
  /\ length (List.filter
               (fun r => Auth.key_is key r && Auth.timestamp_gte start r)
               pruned)
     = length (List.filter (Qle_bool start) (key_times key l)).
Proof.
  cbv zeta. unfold key_times, other_keys, Auth.timestamp_lt,
    Auth.timestamp_gte.
  induction l as [|r l (IH1 & IH2 & IH3)]; [repeat split|].
  cbn [List.filter].
  destruct (Auth.key_is key r) eqn:Hk,
           (Qle_bool start (Auth.rl_timestamp r)) eqn:Ht;
    cbn [negb andb List.filter map length];
    rewrite ?Hk, ?Ht; cbn [negb andb List.filter map length];
    rewrite ?Ht; cbn [length];
    rewrite ?IH1, ?IH2, ?IH3; repeat split; reflexivity.
Qed.

(** One call of [check_rate_limit], on the timestamps stored under the
    key. *)
Lemma check_rate_limit_spec (t : Q) (l : list Auth.RateLimitDoc) :
  let result := Auth.check_rate_limit client_ip limit_type limit window t l in
  let kept := List.filter (Qle_bool (t - span)) (key_times key l) in
  (fst result = Auth.Allowed <-> (Z.of_nat (length kept) < limit)%Z)
  /\ (fst result = Auth.Allowed
      \/ fst result = Auth.HTTPException 429 "Rate limit exceeded")
  /\ key_times key (snd result)
     = kept ++ (if is_allowed (fst result) then [t] else [])
  /\ other_keys key (snd result) = other_keys key l.
Proof.
  cbv zeta. unfold Auth.check_rate_limit.
  destruct (prune_spec (t - span) l) as (Hk & Ho & Hn).
  cbv zeta in Hk, Ho, Hn. rewrite Hn.
  destruct (limit <=? _)%Z eqn:Hl; cbn [fst snd is_allowed].
  - split; [|split; [|split]].
    + split; [discriminate|]. intros H. lia.
    + right. reflexivity.
    + rewrite Hk, app_nil_r. reflexivity.
    + exact Ho.
  - split; [|split; [|split]].
    + split; [|reflexivity]. intros _. lia.
    + left. reflexivity.
    + unfold key_times in *. rewrite List.filter_app, map_app, Hk.
      cbn. unfold Auth.key_is. cbn. rewrite String.eqb_refl. reflexivity.
    + unfold other_keys in *. rewrite List.filter_app, Ho.
      cbn. unfold Auth.key_is. cbn. rewrite String.eqb_refl.
      cbn. rewrite app_nil_r. reflexivity.
Qed.

(** The invariant of a run: the store holds, under the key, the allowed
    requests that are not older than the window of the last request. *)
Lemma serve_invariant (times : list Q) :
  forall (earlier : list Q) (last : Q) (l : list Auth.RateLimitDoc),
    Forall (Qle last) times ->
    StronglySorted Qle times ->
    key_times key l = List.filter (Qle_bool (last - span)) earlier ->
    (forall a, (within a (a + span) earlier <= Z.to_nat limit)%nat) ->
    (length (key_times key l) <= Z.to_nat limit)%nat ->
    let result := serve client_ip limit_type limit window times l in
    (forall a, (within a (a + span) (earlier ++ allowed_times (fst result))
                <= Z.to_nat limit)%nat)
    /\ (forall pre t v post,
          fst result = pre ++ (t, v) :: post ->
          (v = Auth.Allowed
           <-> (Z.of_nat (length (List.filter (Qle_bool (t - span))
                                    (earlier ++ allowed_times pre)))
                < limit)%Z)
          /\ (v = Auth.Allowed
              \/ v = Auth.HTTPException 429 "Rate limit exceeded"))
    /\ other_keys key (snd result) = other_keys key l
    /\ (length (key_times key (snd result)) <= Z.to_nat limit)%nat.
Proof using window_nonneg.
  induction times as [|t times IH]; intros earlier last l Hlast Hsort Hk Hb Hl.
  - cbn [serve fst snd]. unfold allowed_times. cbn [List.filter map].
    rewrite app_nil_r. split; [exact Hb|]. split; [|split; [reflexivity|exact Hl]].
    intros [|p pre] t v post Heq; discriminate Heq.
  - apply Forall_cons in Hlast as [Hlt _].
    apply StronglySorted_inv in Hsort as [Hsort Hle].
    cbn [serve].
    pose proof (check_rate_limit_spec t l) as (Hv & Hcode & Hk' & Ho').
    cbv zeta in Hv, Hcode, Hk', Ho'.
    destruct (Auth.check_rate_limit client_ip limit_type limit window t l)
      as [v l1].
    cbn [fst snd] in Hv, Hcode, Hk', Ho'.
    assert (Hkept : List.filter (Qle_bool (t - span)) (key_times key l)
                    = List.filter (Qle_bool (t - span)) earlier).
    { rewrite Hk. apply since_later. lra. }
    rewrite Hkept in Hv, Hk'.
    assert (Hself : Qle_bool (t - span) t = true).
    { apply Qle_bool_iff. pose proof span_nonneg. lra. }
    set (earlier' := earlier ++ (if is_allowed v then [t] else [])).
    assert (Hk1 : key_times key l1
                  = List.filter (Qle_bool (t - span)) earlier').
    { subst earlier'. rewrite Hk', List.filter_app.
      destruct (is_allowed v); cbn [List.filter]; rewrite ?Hself;
        reflexivity. }
    assert (Hb1 : forall a, (within a (a + span) earlier'
                             <= Z.to_nat limit)%nat).
    { intros a. subst earlier'. destruct v as [|code detail];
        cbn [is_allowed]; [|rewrite app_nil_r; apply Hb].
      unfold within. rewrite List.filter_app, length_app.
      cbn [List.filter].
      destruct (Qle_bool a t && Qle_bool t (a + span)) eqn:Hin;
        cbn [length]; [|specialize (Hb a); unfold within in Hb; lia].
      apply andb_prop in Hin as [_ Hin]. apply Qle_bool_iff in Hin.
      assert (Hfew : (length (List.filter
                                (fun x => Qle_bool a x && Qle_bool x (a + span))
                                earlier)
                      <= length (List.filter (Qle_bool (t - span)) earlier))%nat).
      { apply stronger_filter_counts_less. intros x Hx.
        apply andb_prop in Hx as [Hx _]. apply Qle_bool_iff in Hx.
        apply Qle_bool_iff. lra. }
      assert (Z.of_nat (length (List.filter (Qle_bool (t - span)) earlier))
              < limit)%Z by (apply Hv; reflexivity).
      lia. }
    assert (Hl1 : (length (key_times key l1) <= Z.to_nat limit)%nat).
    { rewrite Hk'. rewrite length_app.
      assert (Hfew : (length (List.filter (Qle_bool (t - span)) earlier)
                      <= length (key_times key l))%nat).
      { rewrite Hk, <- (since_later (last - span) (t - span)) by lra.
        apply sublist_length, filter_sublist. }
      destruct v as [|code detail]; cbn [is_allowed length]; [|lia].
      assert (Z.of_nat (length (List.filter (Qle_bool (t - span)) earlier))
              < limit)%Z by (apply Hv; reflexivity).
      lia. }
    specialize (IH earlier' t l1 Hle Hsort Hk1 Hb1 Hl1).
    cbv zeta in IH. destruct IH as (Hbound & Hlog & Hother & Hlen).
    destruct (serve client_ip limit_type limit window times l1)
      as [log l2].
    cbn [fst snd] in *.
    assert (Hshift : forall pre,
               earlier ++ allowed_times ((t, v) :: pre)
               = earlier' ++ allowed_times pre).
    { intros pre. subst earlier'.
      rewrite allowed_times_cons, app_assoc. reflexivity. }
    split; [|split; [|split]].
    + intros a. rewrite Hshift. apply Hbound.
    + intros [|p pre] t' v' post Heq.
      * injection Heq as <- <- _.
        unfold allowed_times. cbn [List.filter map]. rewrite app_nil_r.
        split; [exact Hv|exact Hcode].
      * injection Heq as <- Heq. rewrite Hshift.
        exact (Hlog pre t' v' post Heq).
    + rewrite Hother. exact Ho'.
    + exact Hlen.
Qed.

End Limiter.

(** X28: the limiter is a sliding window over the requests it allowed: for
    one client whose requests come at non-decreasing times, starting with
    nothing stored under its key and with a non-negative window, a request
    is allowed exactly when fewer than [limit] of the earlier allowed ones
    lie within [window] seconds before it, and is refused with status 429
    otherwise; so no time interval of length [window] contains more than
    [limit] allowed requests, a refused request is not counted, at most
    [limit] documents are kept under the key, and the documents of other
    keys are left as they are. *)
Theorem rate_limit_sliding_window (client_ip limit_type : string)
    (limit window : Z) (times : list Q)
    (rate_limits : list Auth.RateLimitDoc) :
  (0 <= window)%Z ->
  StronglySorted Qle times ->
  key_times (limit_type +:+ ":" +:+ client_ip) rate_limits = [] ->
  let key := limit_type +:+ ":" +:+ client_ip in
  let result := serve client_ip limit_type limit window times rate_limits in
  (forall pre t v post,
     fst result = pre ++ (t, v) :: post ->
     (v = Auth.Allowed
      <-> (Z.of_nat (length (List.filter (Qle_bool (t - inject_Z window))
                               (allowed_times pre)))
           < limit)%Z)
     /\ (v = Auth.Allowed
         \/ v = Auth.HTTPException 429 "Rate limit exceeded"))
  /\ (forall a, (within a (a + inject_Z window) (allowed_times (fst result))
                 <= Z.to_nat limit)%nat)
  /\ (length (key_times key (snd result)) <= Z.to_nat limit)%nat
  /\ other_keys key (snd result) = other_keys key rate_limits.
Proof.
  intros Hw Hsort Hfresh key result. subst key result.
  destruct times as [|t times].
  - cbn [serve fst snd]. split; [|split; [|split]].
    + intros [|p pre] t v post Heq; discriminate Heq.
    + intros a. cbn. lia.
    + rewrite Hfresh. cbn. lia.
    + reflexivity.
  - pose proof (serve_invariant client_ip limit_type limit window Hw
                  (t :: times) [] t rate_limits) as H.
    cbv zeta in H. destruct H as (Hbound & Hlog & Hother & Hlen).
    + apply Forall_cons. split; [apply Qle_refl|].
      apply StronglySorted_inv in Hsort as [_ Hle]. exact Hle.
    + exact Hsort.
    + rewrite Hfresh. reflexivity.
    + intros a. cbn. lia.
    + rewrite Hfresh. cbn. lia.
    + split; [|split; [|split]].
      * exact Hlog.
      * exact Hbound.
      * exact Hlen.
      * exact Hother.
Qed.

Lemma rate_limit_sliding_window_witness :
  (within 0 (0 + 300) (allowed_times (fst (serve "10.0.0.1" "login" 2 300
                                              sample_times [])))
   <= 2)%nat.
Proof.
  pose proof (rate_limit_sliding_window "10.0.0.1" "login" 2 300
                sample_times []) as H.
  cbv zeta in H. destruct H as (_ & Hbound & _).
  - lia.
  - unfold sample_times.
    repeat (apply SSorted_cons; [|repeat constructor; unfold Qle; cbn; lia]).
    apply SSorted_nil.
  - reflexivity.
  - exact (Hbound 0%Q).
Defined.

(** The sample run: with two logins allowed per 300 seconds, the third and
    fourth requests are refused, and the client is served again once the
    first allowed request is older than the window. *)
Example serve_sample_times :
  map (fun p => is_allowed (snd p))
      (fst (serve "10.0.0.1" "login" 2 300 sample_times []))
  = [true; true; false; false; true; true].
Proof. vm_compute. reflexivity. Qed.
